(** * KTLX reader ([phypno/ioeeg/ktlx.py]): a shallow embedding

    The module reads the files of an XLTEK recording: the common header of
    every file ([_read_hdr_file]), the segment table of contents
    ([_read_stc]), the delta-coded raw data of one segment ([_read_erd]),
    the conversion factors ([_calculate_conversion]) and the random-access
    reader ([Ktlx.return_dat]).

    Conventions of the embedding:
    - a file is the [list byte] of its content, a missing file is [None];
    - a Python exception is an [Err] of the [result] monad, named after the
      exception class the interpreter raises;
    - [struct.unpack] uses the native byte order of the acquisition machines
      (little-endian) and fails unless the buffer has exactly the size of the
      format;
    - a numpy integer or a Python [int] is a [Z]; a numpy [float64] is a
      primitive binary64 [float]. *)

From stdpp Require Import base list strings.
From Stdlib Require Import ZArith Lia Strings.Byte Strings.Ascii.
From Stdlib Require PrimFloat Uint63 FloatOps.

Local Open Scope Z_scope.

(** ** Exceptions and the error monad *)

Inductive unsupported :=
  | file_schema_msg (v : Z)   (* 'Reading header not implemented for file_schema ' + v *)
  | base_schema_msg (v : Z)   (* 'Reading header not implemented for base_schema ' + v *)
  | headbox_msg (v : Z).      (* 'Implement conversion factor for headbox ' + v *)

Inductive exn :=
  | NotImplementedError (m : unsupported)
  | StructError            (* struct.error: buffer of the wrong size *)
  | AssertionError
  | KeyError
  | NameError
  | ValueError
  | IndexError
  | IOError
  | OverflowError
  | UnicodeDecodeError
  | OutOfFuel.             (* not a Python exception: a loop of the model ran out of fuel *)

Inductive result (A : Type) :=
  | Ok (a : A)
  | Err (e : exn).
Arguments Ok {A} a.
Arguments Err {A} e.

Definition bind {A B} (r : result A) (k : A -> result B) : result B :=
  match r with
  | Ok a => k a
  | Err e => Err e
  end.

Declare Scope result_scope.
Delimit Scope result_scope with result.
Notation "x <- r ;; k" := (bind r (fun x => k))
  (at level 100, r at next level, right associativity) : result_scope.
Local Open Scope result_scope.

(** The names the specification gives to the three [NotImplementedError]s. *)
Definition UnsupportedSchema (v : Z) : exn := NotImplementedError (file_schema_msg v).
Definition UnsupportedBaseSchema (v : Z) : exn := NotImplementedError (base_schema_msg v).
Definition UnsupportedHeadbox (v : Z) : exn := NotImplementedError (headbox_msg v).

Definition is_ok {A} (r : result A) : bool :=
  match r with Ok _ => true | Err _ => false end.

(** [assert c] *)
Definition assert_ (c : bool) : result unit :=
  if c then Ok tt else Err AssertionError.

Fixpoint mapM {A B} (f : A -> result B) (l : list A) : result (list B) :=
  match l with
  | [] => Ok []
  | a :: l' => b <- f a ;; bs <- mapM f l' ;; Ok (b :: bs)
  end.

(** ** Bytes and [struct.unpack] *)

Definition byte_val (b : byte) : Z := Z.of_N (Byte.to_N b).

Definition byte_of (z : Z) : byte :=
  match Byte.of_N (Z.to_N (z mod 256)) with
  | Some b => b
  | None => x00
  end.

(** Little-endian value of a byte string. *)
Fixpoint le_unsigned (bs : list byte) : Z :=
  match bs with
  | [] => 0
  | b :: bs' => byte_val b + 256 * le_unsigned bs'
  end.

(** Two's complement reading of a [w]-bit pattern. *)
Definition signed (w : Z) (u : Z) : Z :=
  if u <? 2 ^ (w - 1) then u else u - 2 ^ w.

(** [unpack(fmt, buf)[0]] for the one-value formats: [buf] must have exactly
    the [n] bytes of the format. *)
Definition unpack_unsigned (n : nat) (buf : list byte) : result Z :=
  if (length buf =? n)%nat then Ok (le_unsigned buf) else Err StructError.

Definition unpack_signed (n : nat) (buf : list byte) : result Z :=
  if (length buf =? n)%nat
  then Ok (signed (8 * Z.of_nat n) (le_unsigned buf))
  else Err StructError.

Definition unpack_B := unpack_unsigned 1.   (* 'B' *)
Definition unpack_H := unpack_unsigned 2.   (* 'H' *)
Definition unpack_b := unpack_signed 1.     (* 'b' *)
Definition unpack_h := unpack_signed 2.     (* 'h' *)
Definition unpack_i := unpack_signed 4.     (* 'i' *)

(** [unpack('B' * n, buf)], [unpack('c' * n, buf)]: one value per byte. *)
Definition unpack_bytes (n : nat) (buf : list byte) : result (list byte) :=
  if (length buf =? n)%nat then Ok buf else Err StructError.

(** Cut [buf] into chunks of [k] bytes (the last one may be short). *)
Fixpoint chunks (fuel : nat) (k : nat) (buf : list byte) : list (list byte) :=
  match fuel with
  | O => []
  | S fuel' =>
      match buf with
      | [] => []
      | _ => take k buf :: chunks fuel' k (drop k buf)
      end
  end.

(** [unpack(c * n, buf)] for a repeated [k]-byte signed format
    ([n] negative gives the empty format, as [c * n] is then the empty
    string). *)
Definition unpack_many_signed (k : nat) (n : Z) (buf : list byte)
  : result (list Z) :=
  let n' := Z.to_nat n in
  if (length buf =? n' * k)%nat
  then Ok (map (fun c => signed (8 * Z.of_nat k) (le_unsigned c))
               (chunks n' k buf))
  else Err StructError.

(** [filebytes[i:j]] for [0 <= i <= j]. *)
Definition slice (filebytes : list byte) (i j : nat) : list byte :=
  take (j - i) (drop i filebytes).

(** [_make_str]: the characters up to the first null byte; every character
    is decoded on its own as UTF-8, which fails on a byte above 0x7f. *)
Fixpoint _make_str (t_in : list byte) : result string :=
  match t_in with
  | [] => Ok EmptyString
  | t :: rest =>
      if Byte.eqb t x00 then Ok EmptyString
      else if byte_val t <? 128
      then s <- _make_str rest ;; Ok (String (ascii_of_byte t) s)
      else Err UnicodeDecodeError
  end.

(** ** File objects

    A file opened with [open(name, 'rb')] is its content and a position;
    [file_io] threads the position and the exceptions. *)

Definition file_io (A : Type) : Type := list byte -> nat -> result (A * nat).

Definition io_ret {A} (a : A) : file_io A := fun _ pos => Ok (a, pos).

Definition io_bind {A B} (c : file_io A) (k : A -> file_io B) : file_io B :=
  fun f pos =>
    match c f pos with
    | Ok (a, pos') => k a f pos'
    | Err e => Err e
    end.

Definition io_lift {A} (r : result A) : file_io A :=
  fun _ pos => match r with Ok a => Ok (a, pos) | Err e => Err e end.

Declare Scope io_scope.
Delimit Scope io_scope with io.
Notation "x <- c ;; k" := (io_bind c (fun x => k))
  (at level 100, c at next level, right associativity) : io_scope.

(** [f.read(n)]: at most [n] bytes from the position, all the rest when [n]
    is negative; the position moves past what was read. *)
Definition f_read (n : Z) : file_io (list byte) :=
  fun f pos =>
    let rest := drop pos f in
    let buf := if n <? 0 then rest else take (Z.to_nat n) rest in
    Ok (buf, (pos + length buf)%nat).

Definition f_seek (p : nat) : file_io unit := fun _ _ => Ok (tt, p).
Definition f_tell : file_io nat := fun _ pos => Ok (pos, pos).
(** [f.seek(0, SEEK_END); f.tell()] *)
Definition f_end : file_io nat := fun f _ => Ok (length f, length f).

(** [with open(name, 'rb') as f: body] *)
Definition with_open {A} (file : option (list byte)) (body : file_io A)
  : result A :=
  match file with
  | None => Err IOError
  | Some f => match body f 0%nat with Ok (a, _) => Ok a | Err e => Err e end
  end.

(** [unpack(fmt, f.read(n))] for the formats of the headers. *)
Definition read_H : file_io Z :=
  (buf <- f_read 2 ;; io_lift (unpack_H buf))%io.
Definition read_i : file_io Z :=
  (buf <- f_read 4 ;; io_lift (unpack_i buf))%io.
Definition read_str (n : nat) : file_io string :=
  (buf <- f_read (Z.of_nat n) ;;
   cs <- io_lift (unpack_bytes n buf) ;;
   io_lift (_make_str cs))%io.
Definition read_many (k : nat) (n : Z) : file_io (list Z) :=
  (buf <- f_read (n * Z.of_nat k) ;; io_lift (unpack_many_signed k n buf))%io.

(** ** The header of a file: [_read_hdr_file] *)

(** The keys set when [file_schema >= 7]. [sample_freq] keeps the 64 bits of
    the double as they are in the file. *)
Record hdr_schema7 := {
  sample_freq : Z;
  num_channels : Z;
  deltabits : Z;
  phys_chan : list Z;
  headbox_type : list Z;
  headbox_sn : list Z;
  headbox_sw_version : string;
  dsp_hw_version : string;
  dsp_sw_version : string;
  discardbits : Z
}.

(** The keys set when [file_schema >= 8]. *)
Record hdr_schema8 := {
  shorted : list Z;
  frequency_factor : list Z
}.

(** The dict [hdr]. [creation_time] keeps the seconds since the epoch;
    [patient_id] is the string that overwrites the number read first. *)
Record hdr := {
  file_guid : list byte;
  file_schema : Z;
  base_schema : Z;
  creation_time : Z;
  study_id : Z;
  pat_last_name : string;
  pat_first_name : string;
  pat_middle_name : string;
  patient_id : string;
  schema7 : option hdr_schema7;
  schema8 : option hdr_schema8
}.

Definition supported_schema (v : Z) : bool :=
  (v =? 1) || (v =? 7) || (v =? 8) || (v =? 9).

Definition read_schema7 : file_io hdr_schema7 :=
  (d <- f_read 8 ;;
   freq <- io_lift (unpack_unsigned 8 d) ;;
   n_chan <- read_i ;;
   dbits <- read_i ;;
   phys <- read_many 4 n_chan ;;
   _ <- f_seek (Z.to_nat 4464) ;;
   hb_type <- read_many 4 4 ;;
   hb_sn <- read_many 4 4 ;;
   hb_sw <- read_str 40 ;;
   dsp_hw <- read_str 10 ;;
   dsp_sw <- read_str 10 ;;
   discard <- read_i ;;
   io_ret {| sample_freq := freq; num_channels := n_chan; deltabits := dbits;
             phys_chan := phys; headbox_type := hb_type; headbox_sn := hb_sn;
             headbox_sw_version := hb_sw; dsp_hw_version := dsp_hw;
             dsp_sw_version := dsp_sw; discardbits := discard |})%io.

Definition read_schema8 : file_io hdr_schema8 :=
  (sh <- read_many 2 1024 ;;
   ff <- read_many 2 1024 ;;
   io_ret {| shorted := sh; frequency_factor := ff |})%io.

Definition read_hdr_body : file_io hdr :=
  (pos0 <- f_tell ;;
   _ <- io_lift (assert_ (pos0 =? 0)%nat) ;;
   guid <- f_read 16 ;;
   schema <- read_H ;;
   _ <- io_lift (if supported_schema schema then Ok tt
                 else Err (UnsupportedSchema schema)) ;;
   base <- read_H ;;
   _ <- io_lift (if base =? 1 then Ok tt
                 else Err (UnsupportedBaseSchema base)) ;;
   ctime <- read_i ;;
   _ <- read_i ;;                       (* hdr['patient_id'], overwritten below *)
   study <- read_i ;;
   last <- read_str 80 ;;
   first <- read_str 80 ;;
   middle <- read_str 80 ;;
   pid <- read_str 80 ;;
   pos <- f_tell ;;
   _ <- io_lift (assert_ (pos =? 352)%nat) ;;
   s7 <- (if 7 <=? schema
          then (h <- read_schema7 ;; io_ret (Some h))
          else io_ret None) ;;
   s8 <- (if 8 <=? schema
          then (h <- read_schema8 ;; io_ret (Some h))
          else io_ret None) ;;
   io_ret {| file_guid := guid; file_schema := schema; base_schema := base;
             creation_time := ctime; study_id := study;
             pat_last_name := last; pat_first_name := first;
             pat_middle_name := middle; patient_id := pid;
             schema7 := s7; schema8 := s8 |})%io.

Definition _read_hdr_file (ktlx_file : option (list byte)) : result hdr :=
  with_open ktlx_file read_hdr_body.

(** [hdr[key]] for a key of the schema 7 block: [KeyError] when absent. *)
Definition hdr_get {A} (h : hdr) (key : hdr_schema7 -> A) : result A :=
  match schema7 h with
  | Some h7 => Ok (key h7)
  | None => Err KeyError
  end.

(** ** The raw data of a segment: the loop of [_read_erd] *)

#[global] Instance byte_eq_dec : EqDecision byte := Byte.byte_eq_dec.

(** [output]: [n_chan] rows of [n_samples] cells. The cells are float64 in
    the source; they only ever hold integers below 2^53 in absolute value
    (a 32-bit value plus fewer than 2^31 deltas of 16 bits), on which
    float64 arithmetic is exact, so a cell is a [Z] here. *)
Definition zeros (rows cols : nat) : list (list Z) :=
  replicate rows (replicate cols 0).

(** [output[r, c]] and [output[r, c] = v], for indices in range. *)
Definition mget (m : list (list Z)) (r c : nat) : Z :=
  default 0 (row ← m !! r; row !! c).

Definition mset (m : list (list Z)) (r c : nat) (v : Z) : list (list Z) :=
  alter (fun row => <[c := v]> row) r m.

(** [enumerate(l)] *)
Definition enumerate {A} (l : list A) : list (nat * A) :=
  zip (seq 0 (length l)) l.

(** A [for] loop whose body may raise. *)
Fixpoint foldM {S A} (body : S -> A -> result S) (s : S) (l : list A)
  : result S :=
  match l with
  | [] => Ok s
  | a :: l' => s' <- body s a ;; foldM body s' l'
  end.

(** ['{0:08b}'.format(x)[::-1]]: the bits of a byte, least significant
    first ([true] is the character '1'). *)
Definition byte_bits (x : byte) : list bool :=
  map (Z.testbit (byte_val x)) [0; 1; 2; 3; 4; 5; 6; 7].

(** Where the samples start and the pattern that announces an absolute
    value, set by the two [if]s on [file_schema]; no other schema sets
    them. *)
Definition erd_start (schema : Z) : option (nat * list byte) :=
  if schema =? 7 then Some (Z.to_nat 4560, [x80])
  else if (schema =? 8) || (schema =? 9) then Some (Z.to_nat 8656, [xff; xff])
  else None.

(** The loop variables inside one sample: the cursor [i], [output] and
    [absvalue]. *)
Record sample_state := {
  cur : nat;
  out : list (list Z);
  absvalue : list bool
}.

Section ReadErd.
Variable filebytes : list byte.
Variable schema : Z.
Variable n_chan : nat.
Variable n_samples : nat.
Variable abs_delta : list byte.

(** [int(ceil(n_chan / BITS_IN_BYTE))] *)
Definition l_deltamask : nat := (n_chan + 7) / 8.

(** [try: assert eventbite in (b'\x00', b'\x01') ... except: Exception(...)]:
    the handler builds an exception object and drops it, nothing is
    raised. *)
Definition check_eventbite (eventbite : list byte) : result unit :=
  match assert_ (bool_decide (eventbite = [x00])
                 || bool_decide (eventbite = [x01])) with
  | Ok _ => Ok tt
  | Err _ => Ok tt
  end.

(** The delta mask of a sample and the cursor after it. *)
Definition read_deltamask (i : nat) : result (list bool * nat) :=
  if schema =? 7 then Ok (replicate n_chan false, i)
  else if (schema =? 8) || (schema =? 9) then
    byte_deltamask <- unpack_bytes l_deltamask
                        (slice filebytes i (i + l_deltamask)) ;;
    Ok (concat (map byte_bits byte_deltamask), (i + l_deltamask)%nat)
  else Err NameError.

(** [output[i_c, sam - 1]]: at [sam = 0] the index -1 is the last
    column. *)
Definition prev_col (sam : nat) : nat :=
  match sam with
  | O => (n_samples - 1)%nat
  | S s => s
  end.

(** The body of the loop over [enumerate(deltamask[:n_chan])]. *)
Definition read_delta (sam : nat) (st : sample_state) (cm : nat * bool)
  : result sample_state :=
  let '(i_c, m) := cm in
  let width := if m then 2%nat else 1%nat in
  let val := slice filebytes (cur st) (cur st + width) in
  let i := (cur st + width)%nat in
  if bool_decide (val = abs_delta)
  then Ok {| cur := i; out := out st;
             absvalue := <[i_c := true]> (absvalue st) |}
  else
    d <- (if m then unpack_h val else unpack_b val) ;;
    Ok {| cur := i;
          out := mset (out st) i_c sam
                   (mget (out st) i_c (prev_col sam) + d);
          absvalue := absvalue st |}.

(** The body of the loop over [enumerate(absvalue)]. *)
Definition read_absolute (sam : nat) (st : nat * list (list Z))
    (ca : nat * bool) : result (nat * list (list Z)) :=
  let '(i, output) := st in
  let '(i_c, to_read) := ca in
  if to_read
  then v <- unpack_i (slice filebytes i (i + 4)) ;;
       Ok ((i + 4)%nat, mset output i_c sam v)
  else Ok (i, output).

(** One iteration of [for sam in range(n_samples)] after the event byte. *)
Definition read_sample (sam : nat) (i : nat) (output : list (list Z))
  : result (nat * list (list Z)) :=
  mi <- read_deltamask i ;;
  let '(deltamask, i) := mi in
  st <- foldM (read_delta sam)
          {| cur := i; out := output; absvalue := replicate n_chan false |}
          (enumerate (take n_chan deltamask)) ;;
  foldM (read_absolute sam) (cur st, out st) (enumerate (absvalue st)).

(** [for sam in range(n_samples)], with its [break] on an empty event
    byte. *)
Fixpoint read_samples (sams : list nat) (i : nat) (output : list (list Z))
  : result (list (list Z)) :=
  match sams with
  | [] => Ok output
  | sam :: sams' =>
      let eventbite := slice filebytes i (i + 1) in
      let i := (i + 1)%nat in
      if bool_decide (eventbite = []) then Ok output
      else
        _ <- check_eventbite eventbite ;;
        io <- read_sample sam i output ;;
        let '(i, output) := io in
        read_samples sams' i output
  end.
End ReadErd.

(** Lines 243 to 306 of [_read_erd]: from the schema, the channel count and
    the bytes of the file to [output]. With a schema that sets neither [i]
    nor [abs_delta], the first use of [i] raises [NameError]. *)
Definition erd_output (schema n_chan : Z) (filebytes : list byte)
    (n_samples : Z) : result (list (list Z)) :=
  if (n_chan <? 0) || (n_samples <? 0) then Err ValueError
  else
    let n := Z.to_nat n_samples in
    let output := zeros (Z.to_nat n_chan) n in
    match erd_start schema with
    | Some (i, abs_delta) =>
        read_samples filebytes schema (Z.to_nat n_chan) n abs_delta
          (seq 0 n) i output
    | None => if (n =? 0)%nat then Ok output else Err NameError
    end.

(** ** Conversion factors: [_calculate_conversion] *)

Import PrimFloat.
Set Warnings "-inexact-float".

(** A float64 cell that holds the integer [z] (exact below 2^53). *)
Definition float_of_Z (z : Z) : PrimFloat.float :=
  if z <? 0
  then (- PrimFloat.of_uint63 (Uint63.of_Z (- z)))%float
  else PrimFloat.of_uint63 (Uint63.of_Z z).

(** [2 ** discardbits] as the float64 the product with an array uses: exact
    up to 2^1023; a larger power of two has no float64 and the product
    raises [OverflowError]; a negative exponent gives the Python float
    [2.0 ** discardbits]. *)
Definition pow2 (d : Z) : result PrimFloat.float :=
  if 1024 <=? d then Err OverflowError else Ok (FloatOps.Z.ldexp 1%float d).

(** [ones((n)) * c * p] *)
Definition ones_times (n : nat) (c p : PrimFloat.float) : list PrimFloat.float :=
  map (fun one => (one * c * p)%float) (replicate n 1%float).

Definition _calculate_conversion (h : hdr) : result (list PrimFloat.float) :=
  discard <- hdr_get h discardbits ;;
  n_chan <- hdr_get h num_channels ;;
  hb <- hdr_get h headbox_type ;;
  hb0 <- match hb !! 0%nat with Some v => Ok v | None => Err IndexError end ;;
  factor <-
    (if (hb0 =? 1) || (hb0 =? 3) then
       if n_chan <? 0 then Err ValueError
       else p <- pow2 discard ;;
            Ok (ones_times (Z.to_nat n_chan) (8711 / (221 - 0.5)) p)
     else if hb0 =? 4 then
       p <- pow2 discard ;;
       Ok (ones_times 24 (8711 / (221 - 0.5)) p
           ++ ones_times 4 ((5000000 / (210 - 0.5)) / 26) p)
     else if hb0 =? 21 then
       p <- pow2 discard ;;
       Ok (ones_times 128 (8711 / (221 - 0.5)) p
           ++ ones_times 2 (1 / 26) p
           ++ ones_times 126 (8711 / (221 - 0.5)) p)
     else if hb0 =? 22 then
       p <- pow2 discard ;;
       Ok (ones_times 32 (8711 / (221 - 0.5)) p
           ++ ones_times 8 ((10800000 / 65536) / 26) p
           ++ ones_times 2 (1 / 26) p
           ++ ones_times 1 ((10800000 / 65536) / 26) p)
     else Err (UnsupportedHeadbox hb0)) ;;
  Ok (map (fun x => (x * 1e-6)%float) (take (Z.to_nat n_chan) factor)).

(** ** [_read_erd] *)

(** [expand_dims(factor, 1) * output]: row [c] of [output] times
    [factor[c]]; the shapes [(len(factor), 1)] and [(n_chan, n_samples)]
    broadcast when the lengths agree or one of them is 1. *)
Definition scale_rows (factor : list PrimFloat.float) (output : list (list Z))
  : result (list (list PrimFloat.float)) :=
  let scale f row := map (fun v => (f * float_of_Z v)%float) row in
  if (length factor =? length output)%nat
  then Ok (zip_with scale factor output)
  else match factor, output with
       | [f], _ => Ok (map (scale f) output)
       | _, [row] => Ok (map (fun f => scale f row) factor)
       | _, _ => Err ValueError
       end.

Definition _read_erd (erd_file : option (list byte)) (n_samples : Z)
  : result (list (list PrimFloat.float)) :=
  hdr <- _read_hdr_file erd_file ;;
  n_chan <- hdr_get hdr num_channels ;;
  filebytes <- with_open erd_file (f_read (-1)) ;;
  output <- erd_output (file_schema hdr) n_chan filebytes n_samples ;;
  factor <- _calculate_conversion hdr ;;
  scale_rows factor output.

(** ** The segment table of contents: [_read_stc] *)

Record stc_hdr := {
  next_segment : Z;
  final : Z;
  padding : list Z
}.

Record stamp := {
  segment_name : string;
  start_stamp : Z;
  end_stamp : Z;
  sample_num : Z;
  sample_span : Z
}.

(** One pass of the [while True] loop after the test on [f.tell()]. *)
Definition read_stamp : file_io stamp :=
  (name <- read_str 256 ;;
   start <- read_i ;;
   stop <- read_i ;;
   num <- read_i ;;
   span <- read_i ;;
   io_ret {| segment_name := name; start_stamp := start; end_stamp := stop;
             sample_num := num; sample_span := span |})%io.

(** [while True: if f.tell() == endfile: break; ...]. Every pass reads 272
    bytes or raises, so the length of the file is fuel enough
    (see [_read_stc_total]). *)
Fixpoint read_stamps (fuel : nat) (endfile : nat) : file_io (list stamp) :=
  (pos <- f_tell ;;
   if (pos =? endfile)%nat then io_ret []
   else match fuel with
        | O => io_lift (Err OutOfFuel)
        | S fuel' =>
            st <- read_stamp ;;
            rest <- read_stamps fuel' endfile ;;
            io_ret (st :: rest)
        end)%io.

Definition read_stc_body : file_io (stc_hdr * list stamp) :=
  (endfile <- f_end ;;
   _ <- f_seek 352 ;;
   next <- read_i ;;
   fin <- read_i ;;
   pad <- read_many 4 12 ;;
   all_stamp <- read_stamps endfile endfile ;;
   io_ret ({| next_segment := next; final := fin; padding := pad |},
           all_stamp))%io.

Definition _read_stc (stc_file : option (list byte))
  : result (stc_hdr * list stamp) :=
  with_open stc_file read_stc_body.

(** ** Random access: [Ktlx.return_dat] *)

(** The directory of a recording: the [.stc] file and the [.erd] file of
    every segment name. *)
Record Ktlx := {
  stc_file : option (list byte);
  erd_file : string -> option (list byte)
}.

(** [cumsum(l)] *)
Fixpoint cumsum_from (acc : Z) (l : list Z) : list Z :=
  match l with
  | [] => []
  | x :: l' => (acc + x) :: cumsum_from (acc + x) l'
  end.
Definition cumsum := cumsum_from 0.

(** [where(cond)[0][-1]]: the last index that satisfies [cond]. *)
Definition where_last (cond : Z -> bool) (l : list Z) : result nat :=
  match last (filter (fun ix => cond ix.2) (enumerate l)) with
  | Some ix => Ok ix.1
  | None => Err IndexError
  end.

(** [l[ix]] *)
Definition index {A} (l : list A) (ix : nat) : result A :=
  match l !! ix with
  | Some a => Ok a
  | None => Err IndexError
  end.

(** The bounds of the slice [a:b] of an axis of length [len]: a negative
    index counts from the end, and both are clipped to the axis. *)
Definition slice_bound (len x : Z) : Z :=
  if x <? 0 then Z.max (x + len) 0 else Z.min x len.

Definition slice_start (len a b : Z) : nat := Z.to_nat (slice_bound len a).
Definition slice_len (len a b : Z) : nat :=
  Z.to_nat (slice_bound len b - slice_bound len a).

Definition py_slice {A} (l : list A) (a b : Z) : list A :=
  let len := Z.of_nat (length l) in
  take (slice_len len a b) (drop (slice_start len a b) l).

(** [dat_rec[chan, a:b]]: the rows listed in [chan] (a negative index
    counts from the end), each cut to the columns [a:b]. *)
Definition select_rows (dat_rec : list (list float)) (chan : list Z)
    (a b : Z) : result (list (list float)) :=
  let rows := Z.of_nat (length dat_rec) in
  mapM (fun c =>
          if (0 <=? c) && (c <? rows)
          then row <- index dat_rec (Z.to_nat c) ;; Ok (py_slice row a b)
          else if (- rows <=? c) && (c <? 0)
          then row <- index dat_rec (Z.to_nat (c + rows)) ;;
               Ok (py_slice row a b)
          else Err IndexError) chan.

(** [dat[:, d1:d2] = src] where [dat] has [width] columns and [src] has
    [src_width]: the shapes must agree, or [src] has one column which is
    copied to every column of the slice. *)
Definition assign_cols (dat : list (list float)) (width : Z) (d1 d2 : Z)
    (src : list (list float)) (src_width : nat)
  : result (list (list float)) :=
  let s := slice_start width d1 d2 in
  let w := slice_len width d1 d2 in
  let put row new := take s row ++ new ++ drop (s + w) row in
  if (src_width =? w)%nat then Ok (zip_with put dat src)
  else if (src_width =? 1)%nat
  then Ok (zip_with (fun row src_row =>
                       put row (replicate w (default 0%float (head src_row))))
                    dat src)
  else Err ValueError.

Section ReturnDat.
Variable self : Ktlx.
Variable chan : list Z.
Variables begsam endsam : Z.
Variable all_erd : list string.
Variable n_sam_rec : list Z.
Variables begrec endrec : nat.

(** The body of [for rec in range(begrec, endrec + 1)]; the state is
    [dat] and [d1]. *)
Definition return_dat_rec (st : list (list float) * Z) (rec : nat)
  : result (list (list float) * Z) :=
  let '(dat, d1) := st in
  off <- index n_sam_rec rec ;;
  let begpos_rec := if (rec =? begrec)%nat then begsam - off else 0 in
  let endpos_rec := if (rec =? endrec)%nat then endsam - off else off + 1 in
  let d2 := endpos_rec - begpos_rec + d1 in
  name <- index all_erd rec ;;
  dat_rec <- _read_erd (erd_file self name) endpos_rec ;;
  src <- select_rows dat_rec chan begpos_rec endpos_rec ;;
  dat <- assign_cols dat (endsam - begsam) d1 d2 src
           (slice_len endpos_rec begpos_rec endpos_rec) ;;
  Ok (dat, d2).
End ReturnDat.

Definition return_dat (self : Ktlx) (chan : list Z) (begsam endsam : Z)
  : result (list (list float)) :=
  stc <- _read_stc (stc_file self) ;;
  let all_stamp := stc.2 in
  let all_erd := map segment_name all_stamp in
  let all_samples := map sample_span all_stamp in
  let n_sam_rec := 0 :: cumsum all_samples in
  begrec <- where_last (fun x => x <=? begsam) n_sam_rec ;;
  endrec <- where_last (fun x => x <? endsam) n_sam_rec ;;
  if endsam - begsam <? 0 then Err ValueError
  else
    let dat := replicate (length chan)
                 (replicate (Z.to_nat (endsam - begsam)) 0%float) in
    r <- foldM (return_dat_rec self chan begsam endsam all_erd n_sam_rec
                  begrec endrec)
           (dat, 0) (seq begrec (endrec + 1 - begrec)) ;;
    Ok r.1.

(** ** A reference encoder for the sample records

    What the decoder is checked against: the writer of the format as the
    notes of [_read_erd] describe it. A channel of a sample is coded as a
    narrow delta (one byte), a wide delta (two bytes) or an absolute value
    (the escape pattern in the delta slot, then four bytes after the slots
    of all channels). *)

Inductive item :=
  | Narrow (d : Z)
  | Wide (d : Z)
  | Absolute (v : Z).

(** The [n] little-endian bytes of [z] (two's complement). *)
Fixpoint le_bytes (n : nat) (z : Z) : list byte :=
  match n with
  | O => []
  | S n' => byte_of z :: le_bytes n' (z / 256)
  end.

(** What a reader of the format must recover for an item, given the value
    of the channel at the previous sample. *)
Definition item_value (prev : Z) (it : item) : Z :=
  match it with
  | Narrow d => prev + d
  | Wide d => prev + d
  | Absolute v => v
  end.

(** The items a writer can emit: a delta must fit its slot and must not
    collide with the escape pattern of the schema (0x80 in schema 7, 0xffff
    in schemas 8 and 9); schema 7 has no wide slot. *)
Definition valid_item (schema : Z) (it : item) : bool :=
  match it with
  | Narrow d =>
      (-128 <=? d) && (d <=? 127) && negb ((schema =? 7) && (d =? -128))
  | Wide d =>
      negb (schema =? 7) && (-32768 <=? d) && (d <=? 32767) && negb (d =? -1)
  | Absolute v => (- 2 ^ 31 <=? v) && (v <? 2 ^ 31)
  end.

(** The bit of the delta mask: 1 for a two-byte slot. *)
Definition mask_bit (schema : Z) (it : item) : bool :=
  match it with
  | Narrow _ => false
  | Wide _ => true
  | Absolute _ => negb (schema =? 7)
  end.

Definition slot_bytes (schema : Z) (it : item) : list byte :=
  match it with
  | Narrow d => le_bytes 1 d
  | Wide d => le_bytes 2 d
  | Absolute _ => if schema =? 7 then [x80] else [xff; xff]
  end.

Definition absolute_bytes (it : item) : list byte :=
  match it with
  | Absolute v => le_bytes 4 v
  | _ => []
  end.

Fixpoint bits_value (bits : list bool) : Z :=
  match bits with
  | [] => 0
  | b :: bits' => Z.b2z b + 2 * bits_value bits'
  end.

(** The mask bits packed eight to a byte, least significant first; "the
    rest of the byte of the delta mask is filled with 1". *)
Fixpoint mask_bytes (fuel : nat) (bits : list bool) : list byte :=
  match fuel with
  | O => []
  | S fuel' =>
      match bits with
      | [] => []
      | _ => byte_of (bits_value (take 8 (bits ++ replicate 7 true)))
             :: mask_bytes fuel' (drop 8 bits)
      end
  end.

(** A sample: whether the external trigger fired, and one item per
    channel. *)
Record sample := {
  trigger : bool;
  items : list item
}.

Definition encode_sample (schema : Z) (s : sample) : list byte :=
  [if trigger s then x01 else x00]
  ++ (if schema =? 7 then []
      else mask_bytes (length (items s)) (map (mask_bit schema) (items s)))
  ++ concat (map (slot_bytes schema) (items s))
  ++ concat (map absolute_bytes (items s)).

Definition encode_samples (schema : Z) (ss : list sample) : list byte :=
  concat (map (encode_sample schema) ss).

Definition valid_sample (schema : Z) (n_chan : nat) (s : sample) : bool :=
  (length (items s) =? n_chan)%nat && forallb (valid_item schema) (items s).

(** ** Writers of well-formed files, for the examples *)

Definition str_field (n : nat) (s : string) : list byte :=
  take n (map byte_of_ascii (String.list_ascii_of_string s) ++ replicate n x00).

(** The 352 bytes every file starts with. *)
Definition common_header (schema base : Z) : list byte :=
  replicate 16 x00 ++ le_bytes 2 schema ++ le_bytes 2 base
  ++ le_bytes 4 0 ++ le_bytes 4 0 ++ le_bytes 4 0
  ++ replicate 320 x00.

(** The header of an [.erd] file of schema 7, 8 or 9. *)
Definition erd_header (schema n_chan hb_type discard : Z) : list byte :=
  let first := common_header schema 1
               ++ replicate 8 x00 ++ le_bytes 4 n_chan ++ le_bytes 4 0
               ++ concat (map (le_bytes 4) (map Z.of_nat (seq 0 (Z.to_nat n_chan)))) in
  take (Z.to_nat 4464) (first ++ replicate (Z.to_nat 4464) x00)
  ++ le_bytes 4 hb_type ++ replicate 12 x00
  ++ replicate 16 x00
  ++ replicate 60 x00
  ++ le_bytes 4 discard
  ++ (if 8 <=? schema then replicate (Z.to_nat 4096) x00 else []).

Definition stc_record (s : stamp) : list byte :=
  str_field 256 (segment_name s)
  ++ le_bytes 4 (start_stamp s) ++ le_bytes 4 (end_stamp s)
  ++ le_bytes 4 (sample_num s) ++ le_bytes 4 (sample_span s).

Definition stc_bytes (ss : list stamp) : list byte :=
  common_header 1 1 ++ replicate 56 x00 ++ concat (map stc_record ss).

(** ** What the loop computes, sample by sample

    The state of [output] after the samples a stream encodes, written on the
    items: the row of a channel gets, at column [sam], the value of its
    item. Used to state what [read_samples] returns. *)

Definition is_absolute (it : item) : bool :=
  match it with
  | Absolute _ => true
  | _ => false
  end.

(** The row after the loop over the delta slots. *)
Definition delta_row (n_samples sam : nat) (row : list Z) (it : item)
  : list Z :=
  match it with
  | Narrow d | Wide d =>
      <[sam := default 0 (row !! prev_col n_samples sam) + d]> row
  | Absolute _ => row
  end.

(** The row after the loop over the absolute values. *)
Definition absolute_row (sam : nat) (row : list Z) (it : item) : list Z :=
  match it with
  | Absolute v => <[sam := v]> row
  | _ => row
  end.

Definition row_after (n_samples sam : nat) (row : list Z) (it : item)
  : list Z :=
  <[sam := item_value (default 0 (row !! prev_col n_samples sam)) it]> row.

Definition output_after (n_samples sam : nat) (output : list (list Z))
    (s : sample) : list (list Z) :=
  zip_with (row_after n_samples sam) output (items s).

Fixpoint outputs_after (n_samples sam : nat) (output : list (list Z))
    (ss : list sample) : list (list Z) :=
  match ss with
  | [] => output
  | s :: ss' =>
      outputs_after n_samples (S sam) (output_after n_samples sam output s) ss'
  end.

(** [output] has [rows] rows of [cols] cells. *)
Definition shape (output : list (list Z)) (rows cols : nat) : Prop :=
  length output = rows /\ Forall (fun row => length row = cols) output.

(** From column [s0] on, [output] is still as [zeros] made it. *)
Definition blank_from (output : list (list Z)) (s0 : nat) : Prop :=
  forall c s, (s0 <= s)%nat -> mget output c s = 0.

(** ** Example files *)

(** Two channels, schema 7: three samples, the second with an absolute
    value for channel 0. *)
Definition samples_schema7 : list sample :=
  [ {| trigger := false; items := [Narrow 5; Narrow (-3)] |};
    {| trigger := true; items := [Absolute 1000; Narrow 7] |};
    {| trigger := false; items := [Narrow (-127); Narrow 7] |} ].

(** Four channels, schema 8: narrow, wide and absolute items, among them
    the narrow delta -128 (byte 0x80). *)
Definition samples_schema8 : list sample :=
  [ {| trigger := false;
       items := [Absolute 1000; Narrow (-128); Wide 300; Wide (-2)] |};
    {| trigger := true;
       items := [Narrow 5; Narrow 7; Absolute (-70000); Wide 32767] |} ].

Definition erd_schema7 : list byte :=
  erd_header 7 2 1 0 ++ encode_samples 7 samples_schema7.

Definition erd_schema8 : list byte :=
  erd_header 8 4 1 0 ++ encode_samples 8 samples_schema8.

(** The entries [stc_record] writes without loss: a name of at most 256
    characters, none of them null or above 0x7f, and four numbers that fit
    32 bits. *)
Definition valid_name (s : string) : bool :=
  forallb (fun a => let v := byte_val (byte_of_ascii a) in
                    (0 <? v) && (v <? 128))
          (String.list_ascii_of_string s).

Definition int32 (v : Z) : bool := (- 2 ^ 31 <=? v) && (v <? 2 ^ 31).

Definition valid_stamp (s : stamp) : bool :=
  valid_name (segment_name s)
  && (String.length (segment_name s) <=? 256)%nat
  && int32 (start_stamp s) && int32 (end_stamp s)
  && int32 (sample_num s) && int32 (sample_span s).

(** A table of contents whose second entry starts at sample 7 although the
    first one holds the samples 0 to 2. *)
Definition stamps_inconsistent : list stamp :=
  [ {| segment_name := "rec"; start_stamp := 0; end_stamp := 2;
       sample_num := 0; sample_span := 3 |};
    {| segment_name := "rec_001"; start_stamp := 3; end_stamp := 4;
       sample_num := 7; sample_span := 2 |} ].

(** A recording of one channel in two segments: the samples 0 to 2 (raw
    values 10, 20, 30) in the first and the samples 3 and 4 (raw values 40,
    50) in the second. *)
Definition stamps_two_segments : list stamp :=
  [ {| segment_name := "rec"; start_stamp := 0; end_stamp := 2;
       sample_num := 0; sample_span := 3 |};
    {| segment_name := "rec_001"; start_stamp := 3; end_stamp := 4;
       sample_num := 3; sample_span := 2 |} ].

Definition one_channel (deltas : list Z) : list sample :=
  map (fun d => {| trigger := false; items := [Narrow d] |}) deltas.

Definition erd_first : list byte :=
  erd_header 7 1 1 0 ++ encode_samples 7 (one_channel [10; 10; 10]).

Definition erd_second : list byte :=
  erd_header 7 1 1 0 ++ encode_samples 7 (one_channel [40; 10]).

Definition two_segments : Ktlx :=
  {| stc_file := Some (stc_bytes stamps_two_segments);
     erd_file := fun name =>
       if String.eqb name "rec" then Some erd_first
       else if String.eqb name "rec_001" then Some erd_second
       else None |}.

(** The factor of a channel of headbox type 1 without discard bits. *)
Definition factor_headbox1 : float := (1 * (8711 / (221 - 0.5)) * 1 * 1e-6)%float.

(** The physical value of a raw value of such a channel. *)
Definition physical (v : Z) : float := (factor_headbox1 * float_of_Z v)%float.

(** A read of [n] bytes: when it returns, the position has moved by [n]
    inside the file; when it raises, it raises a Python exception. *)
Definition reads (n : nat) {A} (c : file_io A) : Prop :=
  forall f pos,
    match c f pos with
    | Ok (_, pos') => pos' = (pos + n)%nat /\ (pos' <= length f)%nat
    | Err e => e <> OutOfFuel
    end.

(** Proof steps: run the reads of [read_hdr_body] on a file whose first
    bytes are known. *)
Ltac hdr_reduce :=
  cbn [f_tell io_lift assert_ f_read Nat.eqb Z.ltb Z.compare];
  change (Z.to_nat 16) with 16%nat;
  change (Z.to_nat 2) with 2%nat;
  cbn [drop take length Nat.add app unpack_H unpack_unsigned Nat.eqb];
  rewrite ?take_0;
  cbn [length Nat.add unpack_H unpack_unsigned Nat.eqb].

Ltac hdr_start :=
  unfold _read_hdr_file, with_open, read_hdr_body, read_H;
  repeat (unfold io_bind at 1; hdr_reduce).


(** ** Times: [_filetime_to_dt] *)

Definition EPOCH_AS_FILETIME : Z := 116444736000000000.
Definition HUNDREDS_OF_NANOSECONDS : Z := 10000000.

(** A naive [datetime] in UTC, as the whole seconds since the Unix epoch
    and the microseconds within the second. *)
Record datetime := {
  timestamp : Z;
  microsecond : Z
}.

(** [datetime.utcfromtimestamp(s)] exists for the years 1 to 9999; outside
    them it raises ([ValueError], or [OverflowError] or [OSError] by
    platform: one error here). *)
Definition utcfromtimestamp (s : Z) : result datetime :=
  if (-62135596800 <=? s) && (s <=? 253402300799)
  then Ok {| timestamp := s; microsecond := 0 |}
  else Err ValueError.

(** [dt.replace(microsecond=us)] *)
Definition replace_microsecond (dt : datetime) (us : Z) : result datetime :=
  if (0 <=? us) && (us <? 1000000)
  then Ok {| timestamp := timestamp dt; microsecond := us |}
  else Err ValueError.

Definition _filetime_to_dt (ft : Z) : result datetime :=
  let s := (ft - EPOCH_AS_FILETIME) / HUNDREDS_OF_NANOSECONDS in
  let ns100 := (ft - EPOCH_AS_FILETIME) mod HUNDREDS_OF_NANOSECONDS in
  dt <- utcfromtimestamp s ;;
  replace_microsecond dt (ns100 / 10).

(** ** The table of contents of a segment: [_read_etc] *)

Definition read_h : file_io Z :=
  (buf <- f_read 2 ;; io_lift (unpack_h buf))%io.

Definition read_etc_body : file_io (Z * Z * Z * (Z * Z)) :=
  (_ <- f_seek 352 ;;
   v1 <- read_i ;;
   v2 <- read_i ;;
   v3 <- read_i ;;
   v4_a <- read_h ;;
   v4_b <- read_h ;;
   _ <- f_seek 352 ;;
   _ <- f_read 16 ;;                    (* info(hexlify(f.read(16))) *)
   io_ret (v1, v2, v3, (v4_a, v4_b)))%io.

Definition _read_etc (etc_file : option (list byte))
  : result (Z * Z * Z * (Z * Z)) :=
  with_open etc_file read_etc_body.

(** The number of channels the bands of a headbox type cover, [None] for
    the types 1 and 3, whose single band has as many entries as the
    recording has channels. *)
Definition band_channels (hb : Z) : option nat :=
  if hb =? 4 then Some 28%nat
  else if hb =? 21 then Some 256%nat
  else if hb =? 22 then Some 43%nat
  else None.

Definition supported_headbox (hb : Z) : bool :=
  (hb =? 1) || (hb =? 3) || (hb =? 4) || (hb =? 21) || (hb =? 22).

(** The sum of a list of spans. *)
Definition sum_list (l : list Z) : Z := foldr Z.add 0 l.

(** ** The headers the writers produce *)

(** The header [_read_hdr_file] returns for a file that starts with
    [common_header 1 1]. *)
Definition hdr_schema1 : hdr :=
  {| file_guid := replicate 16 x00; file_schema := 1; base_schema := 1;
     creation_time := 0; study_id := 0;
     pat_last_name := ""; pat_first_name := ""; pat_middle_name := "";
     patient_id := ""; schema7 := None; schema8 := None |}.

(** The header [_read_hdr_file] returns for a file that starts with
    [erd_header schema n_chan hb_type discard]. *)
Definition hdr_written (schema n_chan hb_type discard : Z) : hdr :=
  {| file_guid := replicate 16 x00; file_schema := schema; base_schema := 1;
     creation_time := 0; study_id := 0;
     pat_last_name := ""; pat_first_name := ""; pat_middle_name := "";
     patient_id := "";
     schema7 :=
       Some {| sample_freq := 0; num_channels := n_chan; deltabits := 0;
               phys_chan := map Z.of_nat (seq 0 (Z.to_nat n_chan));
               headbox_type := [hb_type; 0; 0; 0];
               headbox_sn := [0; 0; 0; 0];
               headbox_sw_version := ""; dsp_hw_version := "";
               dsp_sw_version := ""; discardbits := discard |};
     schema8 :=
       if 8 <=? schema
       then Some {| shorted := replicate 1024 0;
                    frequency_factor := replicate 1024 0 |}
       else None |}.

(** The factor of a channel whose band has the base constant [c], with
    [d] discard bits: [1 * c * 2 ** d * 1e-6]. *)
Definition scaled (c : float) (d : Z) : float :=
  (1 * c * FloatOps.Z.ldexp 1 d * 1e-6)%float.

(** The base constant of channel [c] for a headbox type, as the comments of
    [_calculate_conversion] give the bands. *)
Definition band_constant (hb : Z) (c : nat) : float :=
  if hb =? 4 then
    if (c <? 24)%nat then (8711 / (221 - 0.5))%float
    else ((5000000 / (210 - 0.5)) / 26)%float
  else if hb =? 21 then
    if (c <? 128)%nat then (8711 / (221 - 0.5))%float
    else if (c <? 130)%nat then (1 / 26)%float
    else (8711 / (221 - 0.5))%float
  else if hb =? 22 then
    if (c <? 32)%nat then (8711 / (221 - 0.5))%float
    else if (c <? 40)%nat then ((10800000 / 65536) / 26)%float
    else if (c <? 42)%nat then (1 / 26)%float
    else ((10800000 / 65536) / 26)%float
  else (8711 / (221 - 0.5))%float.
(** * Properties *)

(** ** Bytes and integers *)

Lemma byte_val_range (b : byte) : 0 <= byte_val b < 256.
Proof.
  unfold byte_val. pose proof (Byte.to_N_bounded b). lia.
Qed.

Lemma byte_val_of (z : Z) : byte_val (byte_of z) = z mod 256.
Proof.
  unfold byte_val, byte_of.
  pose proof (Z.mod_pos_bound z 256 eq_refl) as Hz.
  destruct (Byte.of_N (Z.to_N (z mod 256))) as [b|] eqn:Hb.
  - apply Byte.to_of_N in Hb. rewrite Hb. lia.
  - apply Byte.of_N_None_iff in Hb. lia.
Qed.

Lemma byte_val_inj (a b : byte) : byte_val a = byte_val b -> a = b.
Proof.
  unfold byte_val. intros H.
  assert (Hn : Byte.to_N a = Byte.to_N b) by lia.
  pose proof (Byte.of_to_N a) as Ha. rewrite Hn, Byte.of_to_N in Ha.
  congruence.
Qed.

Lemma byte_of_val (b : byte) : byte_of (byte_val b) = b.
Proof.
  apply byte_val_inj. rewrite byte_val_of.
  apply Z.mod_small, byte_val_range.
Qed.

Lemma length_le_bytes (n : nat) (z : Z) : length (le_bytes n z) = n.
Proof. revert z. induction n as [|n IH]; intros z; simpl; [done | by rewrite IH]. Qed.

Lemma le_unsigned_le_bytes (n : nat) (z : Z) :
  le_unsigned (le_bytes n z) = z mod 256 ^ Z.of_nat n.
Proof.
  revert z. induction n as [|n IH]; intros z.
  - simpl. by rewrite Z.mod_1_r.
  - cbn [le_bytes le_unsigned]. rewrite byte_val_of, IH.
    rewrite Nat2Z.inj_succ, Z.pow_succ_r by lia.
    rewrite Z.rem_mul_r by lia. reflexivity.
Qed.

Lemma signed_mod (w z : Z) :
  0 < w -> - 2 ^ (w - 1) <= z < 2 ^ (w - 1) -> signed w (z mod 2 ^ w) = z.
Proof.
  intros Hw Hz. unfold signed.
  assert (Hp : 2 ^ w = 2 * 2 ^ (w - 1)).
  { rewrite <- Z.pow_succ_r by lia. f_equal. lia. }
  destruct (Z_lt_dec z 0) as [Hneg|Hpos].
  - assert (Hm : z mod 2 ^ w = z + 2 ^ w).
    { symmetry. apply Z.mod_unique with (q := -1); lia. }
    rewrite Hm. destruct (Z.ltb_spec (z + 2 ^ w) (2 ^ (w - 1))); lia.
  - rewrite Z.mod_small by lia.
    destruct (Z.ltb_spec z (2 ^ (w - 1))); lia.
Qed.

Lemma unpack_signed_le_bytes (n : nat) (z : Z) :
  (0 < n)%nat ->
  - 2 ^ (8 * Z.of_nat n - 1) <= z < 2 ^ (8 * Z.of_nat n - 1) ->
  unpack_signed n (le_bytes n z) = Ok z.
Proof.
  intros Hn Hz. unfold unpack_signed.
  rewrite length_le_bytes, Nat.eqb_refl, le_unsigned_le_bytes.
  replace (256 ^ Z.of_nat n) with (2 ^ (8 * Z.of_nat n))
    by (rewrite Z.pow_mul_r by lia; reflexivity).
  rewrite signed_mod by lia. reflexivity.
Qed.

Lemma unpack_b_narrow (d : Z) :
  -128 <= d <= 127 -> unpack_b (le_bytes 1 d) = Ok d.
Proof. intros. apply unpack_signed_le_bytes; simpl; lia. Qed.

Lemma unpack_h_wide (d : Z) :
  -32768 <= d <= 32767 -> unpack_h (le_bytes 2 d) = Ok d.
Proof. intros. apply unpack_signed_le_bytes; simpl; lia. Qed.

Lemma unpack_i_le_bytes (v : Z) :
  - 2 ^ 31 <= v < 2 ^ 31 -> unpack_i (le_bytes 4 v) = Ok v.
Proof. intros. apply unpack_signed_le_bytes; simpl; lia. Qed.

(** A narrow delta is the escape byte 0x80 only when it is -128, a wide
    delta is the escape pattern 0xffff only when it is -1. *)
Lemma narrow_is_escape (d : Z) :
  -128 <= d <= 127 -> le_bytes 1 d = [x80] -> d = -128.
Proof.
  intros Hd H. apply (f_equal le_unsigned) in H.
  rewrite le_unsigned_le_bytes in H.
  change (le_unsigned [x80]) with 128 in H.
  change (256 ^ Z.of_nat 1) with 256 in H.
  destruct (Z_lt_dec d 0).
  - assert (d mod 256 = d + 256)
      by (symmetry; apply Z.mod_unique with (q := -1); lia). lia.
  - rewrite Z.mod_small in H by lia. lia.
Qed.

Lemma wide_is_escape (d : Z) :
  -32768 <= d <= 32767 -> le_bytes 2 d = [xff; xff] -> d = -1.
Proof.
  intros Hd H. apply (f_equal le_unsigned) in H.
  rewrite le_unsigned_le_bytes in H.
  change (le_unsigned [xff; xff]) with 65535 in H.
  change (256 ^ Z.of_nat 2) with 65536 in H.
  destruct (Z_lt_dec d 0).
  - assert (d mod 65536 = d + 65536)
      by (symmetry; apply Z.mod_unique with (q := -1); lia). lia.
  - rewrite Z.mod_small in H by lia. lia.
Qed.

(** ** Slices of a file *)

Lemma slice_app (pre x rest : list byte) (i : nat) :
  length pre = i ->
  slice (pre ++ x ++ rest) i (i + length x) = x.
Proof.
  intros <-. unfold slice.
  rewrite drop_app_length.
  replace (length pre + length x - length pre)%nat with (length x) by lia.
  apply take_app_length.
Qed.

Lemma slice_end (pre : list byte) (i j : nat) :
  length pre = i -> slice pre i j = [].
Proof.
  intros <-. unfold slice. by rewrite drop_all, take_nil.
Qed.

(** ** Cells of [output] *)

Lemma mget_app_here (done todo : list (list Z)) (row : list Z) (c : nat) :
  mget (done ++ row :: todo) (length done) c = default 0 (row !! c).
Proof.
  unfold mget. rewrite list_lookup_middle by done. reflexivity.
Qed.

Lemma mset_app_here (done todo : list (list Z)) (row : list Z) (c : nat) (v : Z) :
  mset (done ++ row :: todo) (length done) c v
  = done ++ <[c := v]> row :: todo.
Proof.
  unfold mset. rewrite alter_app_r_alt by lia.
  by rewrite Nat.sub_diag.
Qed.

(** ** The delta mask *)

Lemma byte_bits_of_bits (b0 b1 b2 b3 b4 b5 b6 b7 : bool) :
  byte_bits (byte_of (bits_value [b0; b1; b2; b3; b4; b5; b6; b7]))
  = [b0; b1; b2; b3; b4; b5; b6; b7].
Proof.
  destruct b0, b1, b2, b3, b4, b5, b6, b7; vm_compute; reflexivity.
Qed.

Lemma byte_bits_chunk (chunk : list bool) :
  length chunk = 8%nat -> byte_bits (byte_of (bits_value chunk)) = chunk.
Proof.
  intros H.
  do 8 (destruct chunk as [|? chunk]; [discriminate H|]).
  destruct chunk; [|discriminate H].
  apply byte_bits_of_bits.
Qed.

Lemma mask_bytes_length (fuel : nat) (bits : list bool) :
  (length bits <= fuel)%nat ->
  length (mask_bytes fuel bits) = ((length bits + 7) / 8)%nat.
Proof.
  revert bits. induction fuel as [|fuel IH]; intros bits Hf.
  - destruct bits; [reflexivity | simpl in Hf; lia].
  - destruct bits as [|b bits]; [reflexivity|].
    cbn [mask_bytes length]. rewrite IH.
    + rewrite length_drop. cbn [length].
      destruct (Nat.le_gt_cases 8 (S (length bits))) as [Hge|Hlt].
      * replace (S (length bits) + 7)%nat
          with ((S (length bits) - 8 + 7) + 1 * 8)%nat by lia.
        rewrite Nat.div_add by lia. lia.
      * replace (S (length bits) - 8 + 7)%nat with 7%nat by lia.
        change ((7 / 8)%nat) with 0%nat.
        apply (Nat.div_unique _ 8 1 (length bits)); lia.
    + rewrite length_drop. simpl in *. lia.
Qed.

Lemma mask_bytes_bits (fuel : nat) (bits : list bool) :
  (length bits <= fuel)%nat ->
  take (length bits) (concat (map byte_bits (mask_bytes fuel bits))) = bits.
Proof.
  revert bits. induction fuel as [|fuel IH]; intros bits Hf.
  - destruct bits; [reflexivity | simpl in Hf; lia].
  - destruct bits as [|b bits]; [reflexivity|].
    cbn [mask_bytes map concat].
    set (l := b :: bits) in *.
    assert (Hl : (1 <= length l)%nat) by (subst l; simpl; lia).
    rewrite byte_bits_chunk
      by (rewrite length_take, length_app, length_replicate; lia).
    destruct (Nat.le_gt_cases (length l) 8) as [Hle|Hgt].
    + rewrite take_app_le by (rewrite length_take, length_app, length_replicate; lia).
      rewrite take_take, Nat.min_l by lia.
      rewrite take_app_le by lia. apply take_ge. lia.
    + rewrite (take_app_le l) by lia.
      rewrite take_app_ge by (rewrite length_take; lia).
      rewrite length_take, Nat.min_l by lia.
      replace (length l - 8)%nat with (length (drop 8 l))
        by (rewrite length_drop; lia).
      rewrite IH by (rewrite length_drop; lia).
      apply take_drop.
Qed.

Lemma mask_bits_schema7 (its : list item) :
  forallb (valid_item 7) its = true ->
  map (mask_bit 7) its = replicate (length its) false.
Proof.
  induction its as [|it its IH]; [reflexivity|].
  cbn [forallb map length replicate]. intros [Hit Hits]%andb_true_iff.
  rewrite IH by done. f_equal.
  destruct it; simpl in *; try reflexivity. discriminate.
Qed.

(** ** One sample of the stream *)

Section Decoder.
Variable filebytes : list byte.
Variable schema : Z.
Variable n_samples : nat.
Variable i0 : nat.
Variable abs_delta : list byte.
Hypothesis Hstart : erd_start schema = Some (i0, abs_delta).

Lemma start_cases :
  (schema = 7 /\ i0 = Z.to_nat 4560 /\ abs_delta = [x80])
  \/ ((schema = 8 \/ schema = 9) /\ i0 = Z.to_nat 8656
      /\ abs_delta = [xff; xff]).
Proof.
  unfold erd_start in Hstart.
  destruct (Z.eqb_spec schema 7) as [->|H7].
  - left. by inversion Hstart.
  - right. destruct (Z.eqb_spec schema 8) as [->|H8].
    + by inversion Hstart; auto.
    + destruct (Z.eqb_spec schema 9) as [->|H9]; [|discriminate].
      by inversion Hstart; auto.
Qed.

Lemma slot_bytes_length (it : item) :
  length (slot_bytes schema it) = if mask_bit schema it then 2%nat else 1%nat.
Proof.
  destruct it; simpl; try reflexivity.
  destruct (schema =? 7); reflexivity.
Qed.

Lemma slot_is_escape (it : item) :
  valid_item schema it = true ->
  bool_decide (slot_bytes schema it = abs_delta) = is_absolute it.
Proof.
  intros Hv.
  destruct start_cases as [(-> & _ & ->)|(Hs & _ & ->)].
  - destruct it as [d|d|v]; simpl in *.
    + apply bool_decide_eq_false. intros Hd.
      apply andb_true_iff in Hv as [Hr Hne].
      apply andb_true_iff in Hr as [Hlo Hhi].
      apply narrow_is_escape in Hd; [|lia]. subst d. discriminate.
    + discriminate.
    + first [reflexivity | by apply bool_decide_eq_true].
  - assert (H7 : (schema =? 7) = false) by (apply Z.eqb_neq; lia).
    destruct it as [d|d|v]; simpl in *; rewrite ?H7 in *.
    + apply bool_decide_eq_false. discriminate.
    + apply bool_decide_eq_false. intros Hd.
      simpl in Hv.
      apply andb_true_iff in Hv as [Hr Hne].
      apply andb_true_iff in Hr as [Hlo Hhi].
      apply wide_is_escape in Hd; [|lia]. subst d. discriminate.
    + first [reflexivity | by apply bool_decide_eq_true].
Qed.

Lemma read_delta_item (sam : nat) (st : sample_state) (i_c : nat)
    (it : item) (pre rest : list byte) :
  filebytes = pre ++ slot_bytes schema it ++ rest ->
  length pre = cur st ->
  valid_item schema it = true ->
  read_delta filebytes n_samples abs_delta sam st (i_c, mask_bit schema it)
  = Ok {| cur := cur st + length (slot_bytes schema it);
          out := match it with
                 | Narrow d | Wide d =>
                     mset (out st) i_c sam
                       (mget (out st) i_c (prev_col n_samples sam) + d)
                 | Absolute _ => out st
                 end;
          absvalue := if is_absolute it then <[i_c := true]> (absvalue st)
                      else absvalue st |}.
Proof.
  intros Hf Hpre Hv. unfold read_delta.
  rewrite <- (slot_bytes_length it).
  rewrite Hf, slice_app by done.
  rewrite slot_is_escape by done.
  destruct it as [d|d|v]; cbn [is_absolute mask_bit slot_bytes].
  - rewrite unpack_b_narrow; [reflexivity|].
    simpl in Hv. lia.
  - rewrite unpack_h_wide; [reflexivity|].
    simpl in Hv. lia.
  - reflexivity.
Qed.

Lemma read_delta_loop (sam : nat) (its : list item) :
  forall (done todo : list (list Z)) (av_done av_todo : list bool)
         (pre rest : list byte) (cur0 : nat),
    filebytes = pre ++ concat (map (slot_bytes schema) its) ++ rest ->
    length pre = cur0 ->
    length todo = length its ->
    length av_todo = length its ->
    length av_done = length done ->
    forallb (valid_item schema) its = true ->
    foldM (read_delta filebytes n_samples abs_delta sam)
      {| cur := cur0; out := done ++ todo; absvalue := av_done ++ av_todo |}
      (zip (seq (length done) (length its)) (map (mask_bit schema) its))
    = Ok {| cur := cur0 + length (concat (map (slot_bytes schema) its));
            out := done ++ zip_with (delta_row n_samples sam) todo its;
            absvalue := av_done
                        ++ zip_with (fun a it => is_absolute it || a)
                             av_todo its |}.
Proof.
  induction its as [|it its IH];
    intros done todo av_done av_todo pre rest cur0 Hf Hpre Htodo Hav Hdone Hv.
  - destruct todo; [|discriminate]. destruct av_todo; [|discriminate].
    simpl. do 2 f_equal. lia.
  - destruct todo as [|row todo]; [discriminate|].
    destruct av_todo as [|a av_todo]; [discriminate|].
    cbn [forallb] in Hv. apply andb_true_iff in Hv as [Hit Hits].
    cbn [map concat] in Hf. rewrite <- app_assoc in Hf.
    cbn [length seq map zip zip_with foldM].
    rewrite (read_delta_item sam
               {| cur := cur0; out := done ++ row :: todo;
                  absvalue := av_done ++ a :: av_todo |}
               (length done) it pre _ Hf Hpre Hit).
    cbn [bind cur out absvalue].
    set (row' := delta_row n_samples sam row it).
    set (a' := is_absolute it || a).
    assert (Hout : match it with
                   | Narrow d | Wide d =>
                       mset (done ++ row :: todo) (length done) sam
                         (mget (done ++ row :: todo) (length done)
                            (prev_col n_samples sam) + d)
                   | Absolute _ => done ++ row :: todo
                   end = (done ++ [row']) ++ todo).
    { subst row'. rewrite <- app_assoc. cbn [app].
      destruct it; cbn [delta_row]; try reflexivity;
        by rewrite mget_app_here, mset_app_here. }
    assert (Hflag : (if is_absolute it
                     then <[length done := true]> (av_done ++ a :: av_todo)
                     else av_done ++ a :: av_todo)
                    = (av_done ++ [a']) ++ av_todo).
    { subst a'. rewrite <- app_assoc. cbn [app].
      destruct (is_absolute it); [|reflexivity].
      rewrite <- Hdone, insert_app_r_alt, Nat.sub_diag by lia.
      reflexivity. }
    rewrite Hout, Hflag.
    replace (S (length done)) with (length (done ++ [row']))
      by (rewrite length_app; simpl; lia).
    rewrite (IH (done ++ [row']) todo (av_done ++ [a']) av_todo
               (pre ++ slot_bytes schema it) rest
               (cur0 + length (slot_bytes schema it))%nat).
    + cbn [map concat zip_with]. rewrite length_app.
      rewrite <- !app_assoc. cbn [app]. do 2 f_equal. lia.
    + by rewrite <- app_assoc.
    + rewrite length_app. lia.
    + simpl in Htodo. lia.
    + simpl in Hav. lia.
    + rewrite !length_app. simpl. lia.
    + done.
Qed.

Lemma read_absolute_loop (sam : nat) (its : list item) :
  forall (done todo : list (list Z)) (pre rest : list byte) (cur0 : nat),
    filebytes = pre ++ concat (map absolute_bytes its) ++ rest ->
    length pre = cur0 ->
    length todo = length its ->
    forallb (valid_item schema) its = true ->
    foldM (read_absolute filebytes sam) (cur0, done ++ todo)
      (zip (seq (length done) (length its)) (map is_absolute its))
    = Ok ((cur0 + length (concat (map absolute_bytes its)))%nat,
          done ++ zip_with (absolute_row sam) todo its).
Proof.
  induction its as [|it its IH];
    intros done todo pre rest cur0 Hf Hpre Htodo Hv.
  - destruct todo; [|discriminate]. simpl. do 2 f_equal. lia.
  - destruct todo as [|row todo]; [discriminate|].
    cbn [forallb] in Hv. apply andb_true_iff in Hv as [Hit Hits].
    cbn [map concat] in Hf. rewrite <- app_assoc in Hf.
    cbn [length seq map zip zip_with foldM].
    set (row' := absolute_row sam row it).
    assert (Hstep : read_absolute filebytes sam (cur0, done ++ row :: todo)
                      (length done, is_absolute it)
                    = Ok ((cur0 + length (absolute_bytes it))%nat,
                          (done ++ [row']) ++ todo)).
    { subst row'. rewrite <- app_assoc. cbn [app].
      destruct it as [d|d|v]; cbn [read_absolute is_absolute absolute_row
                                   absolute_bytes length];
        try (do 2 f_equal; lia).
      replace 4%nat with (length (le_bytes 4 v)) at 1
        by apply length_le_bytes.
      rewrite Hf. cbn [absolute_bytes]. rewrite slice_app by done.
      rewrite unpack_i_le_bytes by (simpl in Hit; lia).
      cbn [bind]. rewrite mset_app_here, length_le_bytes. reflexivity. }
    rewrite Hstep. cbn [bind].
    replace (S (length done)) with (length (done ++ [row']))
      by (rewrite length_app; simpl; lia).
    rewrite (IH (done ++ [row']) todo (pre ++ absolute_bytes it) rest
               (cur0 + length (absolute_bytes it))%nat).
    + cbn [map concat zip_with]. rewrite length_app.
      rewrite <- !app_assoc. cbn [app]. do 2 f_equal. lia.
    + by rewrite <- app_assoc.
    + rewrite length_app. lia.
    + simpl in Htodo. lia.
    + done.
Qed.

Lemma row_after_split (sam : nat) (output : list (list Z)) (its : list item) :
  zip_with (absolute_row sam) (zip_with (delta_row n_samples sam) output its) its
  = zip_with (row_after n_samples sam) output its.
Proof.
  revert its. induction output as [|row output IH]; intros [|it its];
    try reflexivity.
  cbn [zip_with]. rewrite IH. f_equal.
  destruct it; cbn [delta_row absolute_row row_after item_value];
    reflexivity.
Qed.

Lemma read_deltamask_mask (n_chan : nat) (its : list item)
    (pre rest : list byte) (i : nat) :
  let mask := if schema =? 7 then []
              else mask_bytes (length its) (map (mask_bit schema) its) in
  filebytes = pre ++ mask ++ rest ->
  length pre = i ->
  length its = n_chan ->
  forallb (valid_item schema) its = true ->
  exists deltamask,
    read_deltamask filebytes schema n_chan i
    = Ok (deltamask, (i + length mask)%nat)
    /\ take n_chan deltamask = map (mask_bit schema) its.
Proof.
  intros mask Hf Hpre Hlen Hv. unfold read_deltamask.
  destruct start_cases as [(-> & _ & _)|(Hs & _ & _)].
  - cbn [Z.eqb Pos.eqb] in *. subst mask. cbn [length].
    eexists. split; [by rewrite Nat.add_0_r|].
    rewrite mask_bits_schema7, Hlen by done.
    rewrite take_replicate. f_equal. lia.
  - assert (H7 : (schema =? 7) = false) by (apply Z.eqb_neq; lia).
    assert (H89 : (schema =? 8) || (schema =? 9) = true).
    { destruct Hs as [->| ->]; reflexivity. }
    subst mask. rewrite H7 in *. rewrite H89. cbv beta iota in Hf |- *.
    set (bits := map (mask_bit schema) its) in *.
    assert (Hbits : length bits = n_chan)
      by (subst bits; by rewrite length_map).
    assert (Hl : length (mask_bytes (length its) bits) = l_deltamask n_chan).
    { unfold l_deltamask. rewrite mask_bytes_length by lia.
      by rewrite Hbits. }
    rewrite <- Hl, Hf, slice_app by done.
    unfold unpack_bytes. rewrite Nat.eqb_refl. cbn [bind].
    eexists. split; [reflexivity|].
    rewrite <- Hbits. apply mask_bytes_bits. lia.
Qed.

Lemma read_sample_encoded (n_chan sam : nat) (smp : sample)
    (output : list (list Z)) (pre rest : list byte) :
  filebytes = pre ++ encode_sample schema smp ++ rest ->
  valid_sample schema n_chan smp = true ->
  length output = n_chan ->
  read_sample filebytes schema n_chan n_samples abs_delta sam
    (length pre + 1) output
  = Ok ((length pre + length (encode_sample schema smp))%nat,
        output_after n_samples sam output smp).
Proof.
  intros Hf Hv Hout. unfold valid_sample in Hv.
  apply andb_true_iff in Hv as [Hlen Hits].
  apply Nat.eqb_eq in Hlen.
  unfold encode_sample in Hf.
  set (ev := [if trigger smp then x01 else x00]) in *.
  set (mask := if schema =? 7 then []
               else mask_bytes (length (items smp))
                      (map (mask_bit schema) (items smp))) in *.
  set (slots := concat (map (slot_bytes schema) (items smp))) in *.
  set (abss := concat (map absolute_bytes (items smp))) in *.
  assert (Hlen_enc : length (encode_sample schema smp)
                     = (1 + length mask + length slots + length abss)%nat).
  { unfold encode_sample. fold ev mask slots abss.
    rewrite !length_app. subst ev. simpl. lia. }
  unfold read_sample.
  destruct (read_deltamask_mask n_chan (items smp) (pre ++ ev)
              (slots ++ abss ++ rest) (length pre + 1))
    as (deltamask & Hdm & Htake); try done.
  { rewrite Hf. fold mask. by rewrite <- !app_assoc. }
  { rewrite length_app. subst ev. reflexivity. }
  fold mask in Hdm. rewrite Hdm. cbn [bind]. rewrite Htake.
  unfold enumerate. rewrite length_map.
  assert (Hev : length ev = 1%nat) by reflexivity.
  pose proof (read_delta_loop sam (items smp) [] output []
                (replicate n_chan false) (pre ++ ev ++ mask) (abss ++ rest)
                (length pre + 1 + length mask)%nat) as Hloop.
  cbn [app length] in Hloop. rewrite Hloop; clear Hloop; cycle 1.
  { rewrite Hf. fold slots abss. by rewrite <- !app_assoc. }
  { rewrite !length_app. lia. }
  { lia. }
  { by rewrite length_replicate. }
  { reflexivity. }
  { done. }
  cbn [bind cur out absvalue app].
  assert (Hflags : zip_with (fun a it => is_absolute it || a)
                     (replicate n_chan false) (items smp)
                   = map is_absolute (items smp)).
  { rewrite <- Hlen. clear. induction (items smp) as [|it its IH];
      [reflexivity|]. cbn [length replicate zip_with map].
    rewrite IH. by rewrite orb_false_r. }
  rewrite Hflags, length_map. fold slots.
  pose proof (read_absolute_loop sam (items smp) []
                (zip_with (delta_row n_samples sam) output (items smp))
                (pre ++ ev ++ mask ++ slots) rest
                (length pre + 1 + length mask + length slots)%nat) as Hloop.
  cbn [app length] in Hloop. rewrite Hloop; clear Hloop; cycle 1.
  { rewrite Hf. fold abss. by rewrite <- !app_assoc. }
  { rewrite !length_app. lia. }
  { rewrite length_zip_with. lia. }
  { done. }
  cbn [app]. rewrite row_after_split. unfold output_after. do 2 f_equal.
  fold abss. lia.
Qed.

(** The loop over the samples, on a stream that holds the records of [ss]
    and then [tl]: it decodes [k] records, or all of them when the stream
    ends after the last one. *)
Lemma read_samples_encoded (n_chan : nat) (tl : list byte) (k : nat) :
  forall (ss : list sample) (s0 : nat) (pre : list byte)
         (output : list (list Z)),
    filebytes = pre ++ encode_samples schema ss ++ tl ->
    forallb (valid_sample schema n_chan) ss = true ->
    length output = n_chan ->
    (k <= length ss)%nat \/ tl = [] ->
    read_samples filebytes schema n_chan n_samples abs_delta
      (seq s0 k) (length pre) output
    = Ok (outputs_after n_samples s0 output (take k ss)).
Proof.
  induction k as [|k IH]; intros ss s0 pre output Hf Hv Hout Hk.
  - reflexivity.
  - cbn [seq read_samples].
    destruct ss as [|smp ss].
    + destruct Hk as [Hk| ->]; [simpl in Hk; lia|].
      cbn [encode_samples map concat app] in Hf. rewrite app_nil_r in Hf.
      rewrite Hf, slice_end by done. reflexivity.
    + cbn [forallb] in Hv. apply andb_true_iff in Hv as [Hsmp Hss].
      unfold encode_samples in Hf. cbn [map concat] in Hf.
      fold (encode_samples schema ss) in Hf.
      rewrite <- app_assoc in Hf.
      assert (Hev : slice filebytes (length pre) (length pre + 1)
                    = [if trigger smp then x01 else x00]).
      { rewrite Hf. unfold encode_sample. rewrite <- !app_assoc.
        by apply (slice_app pre [_]). }
      rewrite Hev. rewrite bool_decide_eq_false_2 by discriminate.
      assert (Hchk : forall e, check_eventbite e = Ok tt).
      { intros e. unfold check_eventbite. by destruct (assert_ _). }
      rewrite Hchk. cbn [bind].
      rewrite (read_sample_encoded n_chan s0 smp output pre _ Hf Hsmp Hout).
      cbn [bind take outputs_after].
      rewrite <- length_app.
      apply IH.
      * by rewrite <- app_assoc.
      * done.
      * unfold output_after. rewrite length_zip_with.
        unfold valid_sample in Hsmp.
        apply andb_true_iff in Hsmp as [Hlen _].
        apply Nat.eqb_eq in Hlen. lia.
      * destruct Hk as [Hk|Hk]; [left; simpl in Hk; lia | by right].
Qed.
End Decoder.

(** ** The values the loop leaves in [output] *)

Section Accumulated.
Variable n_chan n_samples : nat.

Lemma shape_zeros : shape (zeros n_chan n_samples) n_chan n_samples.
Proof.
  split; [apply length_replicate|].
  apply Forall_replicate, length_replicate.
Qed.

Lemma mget_zeros (c s : nat) : mget (zeros n_chan n_samples) c s = 0.
Proof.
  unfold mget, zeros.
  destruct (replicate n_chan (replicate n_samples 0) !! c) as [row|] eqn:Hr;
    [|reflexivity].
  apply lookup_replicate in Hr as [-> _]. cbn [mbind option_bind].
  destruct (replicate n_samples 0 !! s) as [v|] eqn:Hv; [|reflexivity].
  by apply lookup_replicate in Hv as [-> _].
Qed.

Lemma shape_output_after (sam : nat) (output : list (list Z)) (smp : sample) :
  shape output n_chan n_samples ->
  length (items smp) = n_chan ->
  shape (output_after n_samples sam output smp) n_chan n_samples.
Proof.
  intros [Hrows Hcols] Hlen. unfold output_after. split.
  - rewrite length_zip_with. lia.
  - apply Forall_lookup. intros c row' Hc.
    apply lookup_zip_with_Some in Hc as (row & it & -> & Hrow & _).
    unfold row_after. rewrite length_insert.
    by apply (Forall_lookup_1 _ _ _ _ Hcols Hrow).
Qed.

Lemma mget_output_after_other (sam : nat) (output : list (list Z))
    (smp : sample) (c s : nat) :
  length output = length (items smp) ->
  s <> sam ->
  mget (output_after n_samples sam output smp) c s = mget output c s.
Proof.
  intros Hlen Hs. unfold mget, output_after.
  rewrite lookup_zip_with.
  destruct (output !! c) as [row|] eqn:Hrow; [|reflexivity].
  cbn [mbind option_bind].
  destruct (items smp !! c) as [it|] eqn:Hit.
  - cbn [mbind option_bind]. unfold row_after.
    by rewrite list_lookup_insert_ne.
  - apply lookup_ge_None in Hit. apply lookup_lt_Some in Hrow. lia.
Qed.

Lemma mget_output_after_same (sam : nat) (output : list (list Z))
    (smp : sample) (c : nat) (it : item) :
  shape output n_chan n_samples ->
  length (items smp) = n_chan ->
  (sam < n_samples)%nat ->
  items smp !! c = Some it ->
  mget (output_after n_samples sam output smp) c sam
  = item_value (mget output c (prev_col n_samples sam)) it.
Proof.
  intros [Hrows Hcols] Hlen Hsam Hit. unfold mget, output_after.
  rewrite lookup_zip_with, Hit.
  destruct (output !! c) as [row|] eqn:Hrow.
  - cbn [mbind option_bind]. unfold row_after.
    rewrite list_lookup_insert_eq; [reflexivity|].
    by rewrite (Forall_lookup_1 _ _ _ _ Hcols Hrow).
  - apply lookup_ge_None in Hrow. apply lookup_lt_Some in Hit. lia.
Qed.

Lemma outputs_after_cells (ss : list sample) :
  forall (s0 : nat) (output : list (list Z)),
    shape output n_chan n_samples ->
    Forall (fun smp => length (items smp) = n_chan) ss ->
    (s0 + length ss <= n_samples)%nat ->
    blank_from output s0 ->
    let output' := outputs_after n_samples s0 output ss in
    shape output' n_chan n_samples
    /\ (forall c s, (s < s0)%nat -> mget output' c s = mget output c s)
    /\ (forall j smp c it,
           ss !! j = Some smp -> items smp !! c = Some it ->
           mget output' c (s0 + j)
           = item_value (match (s0 + j)%nat with
                         | O => 0
                         | S p => mget output' c p
                         end) it)
    /\ blank_from output' (s0 + length ss).
Proof.
  induction ss as [|smp ss IH]; intros s0 output Hshape Hlen Hfit Hblank.
  - cbn [outputs_after length]. split; [done|]. split; [done|]. split.
    + intros j smp c it Hj. by rewrite lookup_nil in Hj.
    + intros c s Hs. apply Hblank. lia.
  - apply Forall_cons in Hlen as [Hsmp Hss]. cbn [length] in Hfit.
    cbn [outputs_after].
    set (o1 := output_after n_samples s0 output smp).
    assert (Hshape1 : shape o1 n_chan n_samples)
      by by apply shape_output_after.
    assert (Hother : forall c s, s <> s0 -> mget o1 c s = mget output c s).
    { intros c s Hs. apply mget_output_after_other; [|done].
      destruct Hshape as [-> _]. done. }
    assert (Hblank1 : blank_from o1 (S s0)).
    { intros c s Hs. rewrite Hother by lia. apply Hblank. lia. }
    destruct (IH (S s0) o1 Hshape1 Hss ltac:(lia) Hblank1)
      as (Hshape' & Hkeep & Hvals & Hblank').
    split; [done|]. split; [|split].
    + intros c s Hs. rewrite Hkeep by lia. apply Hother. lia.
    + intros [|j] smp' c it Hj Hit.
      * cbn [lookup list_lookup] in Hj. injection Hj as <-.
        rewrite Nat.add_0_r, Hkeep by lia. subst o1.
        rewrite (mget_output_after_same s0 output smp c it) by (done || lia).
        f_equal. destruct s0 as [|p]; cbn [prev_col].
        -- apply Hblank. lia.
        -- rewrite Hkeep by lia. symmetry. apply Hother. lia.
      * cbn [lookup list_lookup] in Hj.
        replace (s0 + S j)%nat with (S s0 + j)%nat by lia.
        by apply (Hvals j smp').
    + intros c s Hs. cbn [length] in Hs. apply Hblank'. lia.
Qed.
End Accumulated.

(** ** The decoder on an encoded stream *)

Lemma erd_output_encoded (schema : Z) (n_chan n_samples : nat)
    (ss : list sample) (pre tl abs_delta : list byte) :
  erd_start schema = Some (length pre, abs_delta) ->
  forallb (valid_sample schema n_chan) ss = true ->
  (n_samples <= length ss)%nat \/ tl = [] ->
  erd_output schema (Z.of_nat n_chan) (pre ++ encode_samples schema ss ++ tl)
    (Z.of_nat n_samples)
  = Ok (outputs_after n_samples 0 (zeros n_chan n_samples) (take n_samples ss)).
Proof.
  intros Hstart Hv Hk. unfold erd_output.
  replace ((Z.of_nat n_chan <? 0) || (Z.of_nat n_samples <? 0)) with false
    by (symmetry; apply orb_false_iff; split; apply Z.ltb_ge; lia).
  rewrite Hstart, !Nat2Z.id.
  apply (read_samples_encoded _ schema n_samples (length pre) abs_delta Hstart
           n_chan tl n_samples ss 0%nat pre); try done.
  apply length_replicate.
Qed.

Lemma valid_samples_items (schema : Z) (n_chan : nat) (ss : list sample) :
  forallb (valid_sample schema n_chan) ss = true ->
  Forall (fun smp => length (items smp) = n_chan) ss.
Proof.
  intros Hv. apply Forall_forall. intros smp Hin.
  rewrite forallb_forall in Hv. apply list_elem_of_In in Hin.
  specialize (Hv smp Hin). unfold valid_sample in Hv.
  apply andb_true_iff in Hv as [Hlen _]. by apply Nat.eqb_eq.
Qed.

(** C1: for a schema in {7, 8, 9}, any number of channels and any stream
    that the reference encoder builds from per-channel items, decoding as
    many samples as were encoded gives the accumulated values: the cell of
    channel [c] at sample [s] is the cell at [s - 1] (0 before the first
    sample) plus the delta of the item, or the absolute value when the item
    is one. *)
Theorem erd_output_accumulates (schema : Z) (n_chan : nat) (ss : list sample)
    (pre tl abs_delta : list byte) :
  schema = 7 \/ schema = 8 \/ schema = 9 ->
  erd_start schema = Some (length pre, abs_delta) ->
  forallb (valid_sample schema n_chan) ss = true ->
  exists output,
    erd_output schema (Z.of_nat n_chan)
      (pre ++ encode_samples schema ss ++ tl) (Z.of_nat (length ss))
    = Ok output
    /\ shape output n_chan (length ss)
    /\ forall s smp c it,
         ss !! s = Some smp -> items smp !! c = Some it ->
         mget output c s
         = item_value (match s with
                       | O => 0
                       | S p => mget output c p
                       end) it.
Proof.
  intros _ Hstart Hv.
  eexists. split.
  { apply (erd_output_encoded schema n_chan (length ss) ss pre tl abs_delta);
      auto. }
  rewrite firstn_all.
  destruct (outputs_after_cells n_chan (length ss) ss 0
              (zeros n_chan (length ss)))
    as (Hshape & _ & Hvals & _).
  - apply shape_zeros.
  - by apply (valid_samples_items schema).
  - lia.
  - intros c s _. apply mget_zeros.
  - split; [done|]. intros s smp c it Hs Hit.
    apply (Hvals s smp c it Hs Hit).
Qed.

Lemma erd_output_accumulates_witness :
  exists output,
    erd_output 8 (Z.of_nat 4)
      (erd_header 8 4 1 0 ++ encode_samples 8 samples_schema8 ++ [])
      (Z.of_nat (length samples_schema8))
    = Ok output
    /\ shape output 4 (length samples_schema8)
    /\ forall s smp c it,
         samples_schema8 !! s = Some smp -> items smp !! c = Some it ->
         mget output c s
         = item_value (match s with
                       | O => 0
                       | S p => mget output c p
                       end) it.
Proof.
  apply (erd_output_accumulates 8 4 samples_schema8 (erd_header 8 4 1 0) []
           [xff; xff]).
  - right. left. reflexivity.
  - vm_compute. reflexivity.
  - vm_compute. reflexivity.
Defined.

Example erd_output_schema8 :
  erd_output 8 4 erd_schema8 2
  = Ok [[1000; 1005]; [-128; -121]; [300; -70000]; [-2; 32765]].
Proof. vm_compute. reflexivity. Qed.

Example erd_output_schema7 :
  erd_output 7 2 erd_schema7 3 = Ok [[5; 1000; 873]; [-3; 4; 11]].
Proof. vm_compute. reflexivity. Qed.

(** C2 (as the code has it): when the stream holds the records of fewer
    samples than asked for and ends right after the last of them, the loop
    stops at the missing event byte and [output] is returned as allocated,
    with all its [n_samples] columns: the columns of the decoded samples hold
    the accumulated values, every later column is still zero, and nothing in
    the result tells the two apart. *)
Theorem erd_output_stops_at_end_of_stream (schema : Z) (n_chan n_samples : nat)
    (ss : list sample) (pre abs_delta : list byte) :
  erd_start schema = Some (length pre, abs_delta) ->
  forallb (valid_sample schema n_chan) ss = true ->
  (length ss <= n_samples)%nat ->
  exists output,
    erd_output schema (Z.of_nat n_chan) (pre ++ encode_samples schema ss)
      (Z.of_nat n_samples)
    = Ok output
    /\ shape output n_chan n_samples
    /\ (forall s smp c it,
          ss !! s = Some smp -> items smp !! c = Some it ->
          mget output c s
          = item_value (match s with
                        | O => 0
                        | S p => mget output c p
                        end) it)
    /\ blank_from output (length ss).
Proof.
  intros Hstart Hv Hn.
  eexists. split.
  { rewrite <- (app_nil_r (encode_samples schema ss)).
    apply (erd_output_encoded schema n_chan n_samples ss pre [] abs_delta);
      auto. }
  rewrite take_ge by lia.
  destruct (outputs_after_cells n_chan n_samples ss 0 (zeros n_chan n_samples))
    as (Hshape & _ & Hvals & Hblank).
  - apply shape_zeros.
  - by apply (valid_samples_items schema).
  - lia.
  - intros c s _. apply mget_zeros.
  - split; [done|]. split; [|done]. intros s smp c it Hs Hit.
    apply (Hvals s smp c it Hs Hit).
Qed.

Lemma erd_output_stops_at_end_of_stream_witness :
  exists output,
    erd_output 7 (Z.of_nat 2)
      (erd_header 7 2 1 0 ++ encode_samples 7 samples_schema7)
      (Z.of_nat 5)
    = Ok output
    /\ shape output 2 5
    /\ (forall s smp c it,
          samples_schema7 !! s = Some smp -> items smp !! c = Some it ->
          mget output c s
          = item_value (match s with
                        | O => 0
                        | S p => mget output c p
                        end) it)
    /\ blank_from output (length samples_schema7).
Proof.
  apply (erd_output_stops_at_end_of_stream 7 2 5 samples_schema7
           (erd_header 7 2 1 0) [x80]).
  - vm_compute. reflexivity.
  - vm_compute. reflexivity.
  - vm_compute. lia.
Defined.

(** C2 as stated fails twice. A stream cut inside the second sample makes
    [unpack] raise instead of giving the one sample decoded; a stream that
    ends after the third of five samples gives a matrix of five columns, the
    last two zero, with nothing that marks them as missing. *)
Lemma erd_output_truncated_stream :
  erd_output 7 2
    (erd_header 7 2 1 0 ++ take 4 (encode_samples 7 samples_schema7)) 3
  = Err StructError
  /\ erd_output 7 2 erd_schema7 5
     = Ok [[5; 1000; 873; 0; 0]; [-3; 4; 11; 0; 0]].
Proof. split; vm_compute; reflexivity. Qed.

(** C3: an event byte other than 0 and 1 raises nothing. The stream below
    has the event byte 2 and then the narrow delta 5: it is decoded as if
    the byte were valid. *)
Theorem bad_eventbite_is_not_raised :
  check_eventbite [x02] = Ok tt
  /\ erd_output 7 1 (erd_header 7 1 1 0 ++ [x02; x05]) 1 = Ok [[5]]
  /\ is_ok (_read_erd (Some (erd_header 7 1 1 0 ++ [x02; x05])) 1) = true.
Proof. repeat split; vm_compute; reflexivity. Qed.

(** C10: with schema 8 or 9 a narrow slot (mask bit 0) never marks its
    channel for an absolute value and its byte is always the signed 8-bit
    delta, 0x80 being -128; a wide slot marks the channel exactly when its
    two bytes are 0xffff. *)
Theorem narrow_slot_is_never_escape (filebytes : list byte) (schema : Z)
    (n_samples i0 : nat) (abs_delta : list byte) (sam : nat)
    (st : sample_state) (i_c : nat) :
  schema = 8 \/ schema = 9 ->
  erd_start schema = Some (i0, abs_delta) ->
  (forall st',
      read_delta filebytes n_samples abs_delta sam st (i_c, false) = Ok st' ->
      absvalue st' = absvalue st)
  /\ (forall b,
         slice filebytes (cur st) (cur st + 1) = [b] ->
         read_delta filebytes n_samples abs_delta sam st (i_c, false)
         = Ok {| cur := cur st + 1;
                 out := mset (out st) i_c sam
                          (mget (out st) i_c (prev_col n_samples sam)
                           + signed 8 (byte_val b));
                 absvalue := absvalue st |})
  /\ signed 8 (byte_val x80) = -128
  /\ (forall b0 b1,
         slice filebytes (cur st) (cur st + 2) = [b0; b1] ->
         read_delta filebytes n_samples abs_delta sam st (i_c, true)
         = if bool_decide (b0 = xff /\ b1 = xff)
           then Ok {| cur := cur st + 2; out := out st;
                      absvalue := <[i_c := true]> (absvalue st) |}
           else Ok {| cur := cur st + 2;
                      out := mset (out st) i_c sam
                               (mget (out st) i_c (prev_col n_samples sam)
                                + signed 16 (le_unsigned [b0; b1]));
                      absvalue := absvalue st |}).
Proof.
  intros Hs Hstart.
  destruct (start_cases schema i0 abs_delta Hstart)
    as [(-> & _)|(_ & _ & ->)]; [lia|].
  split; [|split; [|split]].
  - intros st'. unfold read_delta.
    set (val := slice filebytes (cur st) (cur st + 1)).
    assert (Hlen : (length val <= 1)%nat).
    { subst val. unfold slice. rewrite length_take. lia. }
    rewrite bool_decide_eq_false_2.
    + destruct (unpack_b val); cbn [bind]; [|discriminate].
      by intros [= <-].
    + intros Hval. rewrite Hval in Hlen. simpl in Hlen. lia.
  - intros b Hb. unfold read_delta. rewrite Hb.
    rewrite bool_decide_eq_false_2 by discriminate.
    unfold unpack_b, unpack_signed. cbn [length Nat.eqb le_unsigned bind].
    by rewrite Z.mul_0_r, Z.add_0_r.
  - reflexivity.
  - intros b0 b1 Hb. unfold read_delta. rewrite Hb.
    destruct (bool_decide (b0 = xff /\ b1 = xff)) eqn:Hff.
    + apply bool_decide_eq_true in Hff as [-> ->].
      by rewrite bool_decide_eq_true_2.
    + apply bool_decide_eq_false in Hff.
      rewrite bool_decide_eq_false_2; [reflexivity|].
      intros [= -> ->]. by apply Hff.
Qed.

Lemma narrow_slot_is_never_escape_witness :
  let filebytes := erd_header 8 1 1 0 ++ [x00; xfe; x80] in
  let st := {| cur := Z.to_nat 8658; out := zeros 1 1; absvalue := [false] |} in
  (8 = 8 \/ 8 = 9)
  /\ erd_start 8 = Some (Z.to_nat 8656, [xff; xff])
  /\ slice filebytes (cur st) (cur st + 1) = [x80]
  /\ read_delta filebytes 1 [xff; xff] 0 st (0%nat, false)
     = Ok {| cur := cur st + 1;
             out := mset (out st) 0 0
                      (mget (out st) 0 (prev_col 1 0)
                       + signed 8 (byte_val x80));
             absvalue := absvalue st |}.
Proof.
  intros filebytes st.
  assert (H8 : 8 = 8 \/ 8 = 9) by (left; reflexivity).
  assert (Hstart : erd_start 8 = Some (Z.to_nat 8656, [xff; xff]))
    by reflexivity.
  assert (Hb : slice filebytes (cur st) (cur st + 1) = [x80])
    by (vm_compute; reflexivity).
  split; [exact H8|]. split; [exact Hstart|]. split; [exact Hb|].
  exact (proj1 (proj2 (narrow_slot_is_never_escape filebytes 8 1
                         (Z.to_nat 8656) [xff; xff] 0 st 0 H8 Hstart))
           x80 Hb).
Defined.

Example narrow_0x80_schema8 :
  erd_output 8 1 (erd_header 8 1 1 0 ++ [x00; xfe; x80]) 1 = Ok [[-128]].
Proof. vm_compute. reflexivity. Qed.

(** ** The header *)

(** C7: a file whose schema field is not 1, 7, 8 or 9 is refused with the
    error on [file_schema] (so is one with schema 5), a file with a supported
    schema whose base schema is not 1 is refused with the error on
    [base_schema], and in both cases no header is returned. *)
Theorem read_hdr_file_refuses (guid tail : list byte) (s0 s1 : byte) :
  length guid = 16%nat ->
  let schema := le_unsigned [s0; s1] in
  let ktlx_file := Some (guid ++ [s0; s1] ++ tail) in
  (supported_schema schema = false ->
   _read_hdr_file ktlx_file = Err (UnsupportedSchema schema))
  /\ (forall b0 b1 rest,
         tail = [b0; b1] ++ rest ->
         supported_schema schema = true ->
         le_unsigned [b0; b1] <> 1 ->
         _read_hdr_file ktlx_file
         = Err (UnsupportedBaseSchema (le_unsigned [b0; b1])))
  /\ (forall b0 b1 rest,
         tail = [b0; b1] ++ rest ->
         supported_schema schema = false \/ le_unsigned [b0; b1] <> 1 ->
         forall h, _read_hdr_file ktlx_file <> Ok h).
Proof.
  intros Hg schema ktlx_file.
  do 16 (destruct guid as [|? guid]; [discriminate Hg|]).
  destruct guid; [clear Hg|discriminate Hg].
  assert (Hschema : supported_schema schema = false ->
                    _read_hdr_file ktlx_file = Err (UnsupportedSchema schema)).
  { intros Hs. subst ktlx_file. hdr_start. fold schema. by rewrite Hs. }
  assert (Hbase : forall b0 b1 rest,
             tail = [b0; b1] ++ rest ->
             supported_schema schema = true ->
             le_unsigned [b0; b1] <> 1 ->
             _read_hdr_file ktlx_file
             = Err (UnsupportedBaseSchema (le_unsigned [b0; b1]))).
  { intros c0 c1 rest -> Hs Hb. subst ktlx_file. hdr_start. fold schema.
    rewrite Hs. do 2 hdr_reduce.
    apply Z.eqb_neq in Hb.
    change (byte_val c0 + 256 * (byte_val c1 + 256 * 0))
      with (le_unsigned [c0; c1]).
    by rewrite Hb. }
  split; [done|]. split; [done|].
  intros c0 c1 rest Htail Hbad h.
  destruct (supported_schema schema) eqn:Hs.
  - destruct Hbad as [?|Hb]; [done|]. by rewrite (Hbase c0 c1 rest).
  - by rewrite Hschema.
Qed.

Lemma read_hdr_file_refuses_witness :
  let guid := replicate 16 x00 in
  let tail := [x01; x00] ++ replicate 332 x00 in
  length guid = 16%nat
  /\ supported_schema (le_unsigned [x05; x00]) = false
  /\ _read_hdr_file (Some (guid ++ [x05; x00] ++ tail))
     = Err (UnsupportedSchema (le_unsigned [x05; x00])).
Proof.
  intros guid tail.
  assert (Hg : length guid = 16%nat) by reflexivity.
  assert (Hs : supported_schema (le_unsigned [x05; x00]) = false)
    by reflexivity.
  split; [exact Hg|]. split; [exact Hs|].
  exact (proj1 (read_hdr_file_refuses guid tail x05 x00 Hg) Hs).
Defined.

Example read_hdr_file_schema5 :
  _read_hdr_file (Some (common_header 5 1)) = Err (UnsupportedSchema 5)
  /\ _read_hdr_file (Some (common_header 7 0)) = Err (UnsupportedBaseSchema 0).
Proof. split; vm_compute; reflexivity. Qed.

(** ** Conversion factors *)

Lemma map_replicate {A B} (f : A -> B) (n : nat) (x : A) :
  map f (replicate n x) = replicate n (f x).
Proof. induction n as [|n IH]; [reflexivity|]. simpl. by rewrite IH. Qed.

(** C9 (as the code has it): with headbox type 1 and no discard bits every
    channel has the same factor, 8711 / (221 - 0.5) * 2^0 * 1e-6, which is
    3.9505...e-5 (3.95e-5 at three digits, not 3.94e-5). *)
Theorem conversion_headbox1 (h : hdr) (h7 : hdr_schema7) :
  schema7 h = Some h7 ->
  headbox_type h7 !! 0%nat = Some 1 ->
  discardbits h7 = 0 ->
  0 <= num_channels h7 ->
  _calculate_conversion h
  = Ok (replicate (Z.to_nat (num_channels h7))
          (1 * (8711 / (221 - 0.5)) * 1 * 1e-6)%float)
  /\ (3.9505e-5 <? 1 * (8711 / (221 - 0.5)) * 1 * 1e-6)%float = true
  /\ (1 * (8711 / (221 - 0.5)) * 1 * 1e-6 <? 3.9506e-5)%float = true.
Proof.
  intros H7 Hhb Hd Hn. split; [|split; vm_compute; reflexivity].
  unfold _calculate_conversion, hdr_get. rewrite H7. cbn [bind].
  rewrite Hhb, Hd. cbn [bind Z.eqb Pos.eqb orb].
  replace (num_channels h7 <? 0) with false by (symmetry; apply Z.ltb_ge; lia).
  unfold pow2. cbn [Z.leb Z.compare bind]. unfold ones_times.
  rewrite map_replicate, take_replicate, Nat.min_id, map_replicate.
  do 2 f_equal.
Qed.

Lemma conversion_headbox1_witness :
  let h7 := {| sample_freq := 0; num_channels := 4; deltabits := 0;
               phys_chan := [0; 1; 2; 3]; headbox_type := [1; 0; 0; 0];
               headbox_sn := [0; 0; 0; 0]; headbox_sw_version := "";
               dsp_hw_version := ""; dsp_sw_version := "";
               discardbits := 0 |} in
  let h := {| file_guid := replicate 16 x00; file_schema := 8;
              base_schema := 1; creation_time := 0; study_id := 0;
              pat_last_name := ""; pat_first_name := "";
              pat_middle_name := ""; patient_id := "";
              schema7 := Some h7; schema8 := None |} in
  schema7 h = Some h7
  /\ headbox_type h7 !! 0%nat = Some 1
  /\ discardbits h7 = 0
  /\ 0 <= num_channels h7
  /\ _calculate_conversion h
     = Ok (replicate (Z.to_nat (num_channels h7))
             (1 * (8711 / (221 - 0.5)) * 1 * 1e-6)%float).
Proof.
  intros h7 h.
  assert (Hn : 0 <= num_channels h7) by (vm_compute; discriminate).
  repeat (split; [first [reflexivity | exact Hn]|]).
  exact (proj1 (conversion_headbox1 h h7 eq_refl eq_refl eq_refl Hn)).
Defined.

(** C9 as stated fails: the factor of a one-channel recording with headbox
    type 1 and no discard bits is above 3.945e-5, so it is not 3.94e-5 to
    the three digits given. *)
Lemma headbox1_factor_is_not_3_94 :
  (h <- _read_hdr_file (Some (erd_header 7 1 1 0)) ;; _calculate_conversion h)
  = Ok [3.9505668934240359e-05%float]
  /\ (3.945e-5 <? 3.9505668934240359e-05)%float = true.
Proof. split; vm_compute; reflexivity. Qed.

(** ** Reading a file field by field

    What is left of the file at the position is [drop pos f]; a read of a
    field that is there returns it and moves past it. *)

Lemma io_bind_ok {A B} (c : file_io A) (k : A -> file_io B) (f : list byte)
    (pos pos' : nat) (a : A) :
  c f pos = Ok (a, pos') -> io_bind c k f pos = k a f pos'.
Proof. intros H. unfold io_bind. by rewrite H. Qed.

Lemma drop_past (f buf rest : list byte) (pos : nat) :
  drop pos f = buf ++ rest -> drop (pos + length buf) f = rest.
Proof.
  intros H. rewrite <- drop_drop, H. apply drop_app_length.
Qed.

Lemma f_read_field (f buf rest : list byte) (pos : nat) (n : Z) :
  drop pos f = buf ++ rest ->
  n = Z.of_nat (length buf) ->
  f_read n f pos = Ok (buf, (pos + length buf)%nat).
Proof.
  intros Hf ->. unfold f_read.
  replace (Z.of_nat (length buf) <? 0) with false
    by (symmetry; apply Z.ltb_ge; lia).
  by rewrite Nat2Z.id, Hf, take_app_length.
Qed.

Lemma read_i_field (f rest : list byte) (pos : nat) (v : Z) :
  drop pos f = le_bytes 4 v ++ rest ->
  int32 v = true ->
  read_i f pos = Ok (v, (pos + 4)%nat).
Proof.
  intros Hf Hv. unfold read_i.
  rewrite (io_bind_ok _ _ f pos (pos + 4) (le_bytes 4 v)).
  - unfold io_lift. rewrite unpack_i_le_bytes; [reflexivity|].
    unfold int32 in Hv. lia.
  - rewrite (f_read_field f (le_bytes 4 v) rest); [|done|reflexivity].
    by rewrite length_le_bytes.
Qed.

Lemma make_str_zeros (n : nat) : _make_str (replicate n x00) = Ok EmptyString.
Proof. destruct n; reflexivity. Qed.

Lemma make_str_name (s : string) (n : nat) :
  valid_name s = true ->
  _make_str (map byte_of_ascii (String.list_ascii_of_string s)
             ++ replicate n x00)
  = Ok s.
Proof.
  unfold valid_name. induction s as [|a s IH]; intros Hv.
  - apply make_str_zeros.
  - cbn [String.list_ascii_of_string forallb map app _make_str] in *.
    apply andb_true_iff in Hv as [Ha Hs].
    apply andb_true_iff in Ha as [Hpos Hlt].
    destruct (Byte.eqb (byte_of_ascii a) x00) eqn:Heq.
    + apply Byte.byte_dec_bl in Heq. rewrite Heq in Hpos. discriminate.
    + rewrite Hlt, IH by done. cbn [bind].
      by rewrite ascii_of_byte_of_ascii.
Qed.

Lemma length_list_ascii (s : string) :
  length (String.list_ascii_of_string s) = String.length s.
Proof. induction s as [|a s IH]; [reflexivity|]. simpl. by rewrite IH. Qed.

Lemma str_field_length (n : nat) (s : string) : length (str_field n s) = n.
Proof.
  unfold str_field. rewrite length_take, length_app, length_replicate. lia.
Qed.

Lemma read_str_field (f rest : list byte) (pos n : nat) (s : string) :
  drop pos f = str_field n s ++ rest ->
  valid_name s = true ->
  (String.length s <= n)%nat ->
  read_str n f pos = Ok (s, (pos + n)%nat).
Proof.
  intros Hf Hv Hn. unfold read_str.
  rewrite (io_bind_ok _ _ f pos (pos + n) (str_field n s)).
  - unfold io_bind, io_lift, unpack_bytes.
    rewrite str_field_length, Nat.eqb_refl.
    unfold str_field.
    rewrite take_app_ge
      by (rewrite length_map, length_list_ascii; lia).
    rewrite take_replicate, make_str_name by done. reflexivity.
  - rewrite (f_read_field f (str_field n s) rest); [|done|].
    + by rewrite str_field_length.
    + by rewrite str_field_length.
Qed.

Lemma stc_record_length (s : stamp) : length (stc_record s) = 272%nat.
Proof.
  unfold stc_record. by rewrite !length_app, str_field_length, !length_le_bytes.
Qed.

Lemma read_stamp_record (f rest : list byte) (pos : nat) (s : stamp) :
  drop pos f = stc_record s ++ rest ->
  valid_stamp s = true ->
  read_stamp f pos = Ok (s, (pos + 272)%nat).
Proof.
  intros Hf Hv. unfold valid_stamp in Hv.
  repeat (apply andb_true_iff in Hv as [Hv ?]).
  apply Nat.leb_le in H3.
  unfold stc_record in Hf. rewrite <- !app_assoc in Hf.
  unfold read_stamp.
  rewrite (io_bind_ok _ _ f pos (pos + 256) (segment_name s))
    by (by eapply read_str_field).
  apply drop_past in Hf. rewrite str_field_length in Hf.
  rewrite (io_bind_ok _ _ f _ (pos + 256 + 4) (start_stamp s))
    by (by eapply read_i_field).
  apply drop_past in Hf. rewrite length_le_bytes in Hf.
  rewrite (io_bind_ok _ _ f _ (pos + 256 + 4 + 4) (end_stamp s))
    by (by eapply read_i_field).
  apply drop_past in Hf. rewrite length_le_bytes in Hf.
  rewrite (io_bind_ok _ _ f _ (pos + 256 + 4 + 4 + 4) (sample_num s))
    by (by eapply read_i_field).
  apply drop_past in Hf. rewrite length_le_bytes in Hf.
  rewrite (io_bind_ok _ _ f _ (pos + 256 + 4 + 4 + 4 + 4) (sample_span s))
    by (by eapply read_i_field).
  unfold io_ret. destruct s. cbn. do 2 f_equal. lia.
Qed.

Lemma read_stamps_records (ss : list stamp) :
  forall (f : list byte) (pos fuel : nat),
    drop pos f = concat (map stc_record ss) ->
    (pos <= length f)%nat ->
    (length ss <= fuel)%nat ->
    forallb valid_stamp ss = true ->
    read_stamps fuel (length f) f pos = Ok (ss, length f).
Proof.
  induction ss as [|s ss IH]; intros f pos fuel Hf Hpos Hfuel Hv.
  - assert (pos = length f) as ->.
    { apply (f_equal length) in Hf. rewrite length_drop in Hf.
      simpl in Hf. lia. }
    destruct fuel; cbn [read_stamps]; unfold io_bind, f_tell;
      by rewrite Nat.eqb_refl.
  - cbn [forallb] in Hv. apply andb_true_iff in Hv as [Hs Hss].
    cbn [map concat] in Hf.
    assert (Hlen : (pos + 272 <= length f)%nat).
    { apply (f_equal length) in Hf.
      rewrite length_drop, length_app, stc_record_length in Hf. lia. }
    destruct fuel as [|fuel]; [simpl in Hfuel; lia|].
    cbn [read_stamps]. unfold io_bind at 1. cbn [f_tell].
    replace (pos =? length f)%nat with false
      by (symmetry; apply Nat.eqb_neq; lia).
    rewrite (io_bind_ok _ _ f pos (pos + 272) s)
      by (by eapply read_stamp_record).
    rewrite (io_bind_ok _ _ f _ (length f) ss).
    + reflexivity.
    + apply IH; try done.
      * apply drop_past in Hf. by rewrite stc_record_length in Hf.
      * simpl in Hfuel. lia.
Qed.

Lemma read_many_field (f buf rest : list byte) (pos k : nat) (n : Z) :
  drop pos f = buf ++ rest ->
  0 <= n ->
  length buf = (Z.to_nat n * k)%nat ->
  read_many k n f pos
  = Ok (map (fun c => signed (8 * Z.of_nat k) (le_unsigned c))
            (chunks (Z.to_nat n) k buf),
        (pos + length buf)%nat).
Proof.
  intros Hf Hn Hlen. unfold read_many.
  rewrite (io_bind_ok _ _ f pos (pos + length buf) buf).
  - unfold io_lift, unpack_many_signed. by rewrite Hlen, Nat.eqb_refl.
  - apply (f_read_field f buf rest); [done|]. rewrite Hlen. lia.
Qed.

(** C5 (as the code has it): the table of contents is read without any
    check across its entries. Whatever offsets ([sample_num]) and spans
    ([sample_span]) the entries of a file have, [_read_stc] returns all of
    them as they are stored. *)
Theorem read_stc_returns_every_entry (ss : list stamp) :
  forallb valid_stamp ss = true ->
  _read_stc (Some (stc_bytes ss))
  = Ok ({| next_segment := 0; final := 0; padding := replicate 12 0 |}, ss).
Proof.
  intros Hv. unfold _read_stc, with_open, read_stc_body.
  set (f := stc_bytes ss).
  assert (Hf : drop 352 f
               = le_bytes 4 0 ++ le_bytes 4 0 ++ replicate 48 x00
                 ++ concat (map stc_record ss)).
  { subst f. unfold stc_bytes.
    change 352%nat with (length (common_header 1 1)) at 1.
    by rewrite drop_app_length. }
  assert (Hlen : (length f = 408 + length (concat (map stc_record ss)))%nat).
  { subst f. unfold stc_bytes. rewrite !length_app.
    change (length (common_header 1 1)) with 352%nat.
    rewrite length_replicate. lia. }
  unfold io_bind at 1. cbn [f_end]. unfold io_bind at 1. cbn [f_seek].
  rewrite (io_bind_ok _ _ f 352 (352 + 4) 0)
    by (by eapply read_i_field).
  apply drop_past in Hf. rewrite length_le_bytes in Hf.
  rewrite (io_bind_ok _ _ f _ (352 + 4 + 4) 0)
    by (by eapply read_i_field).
  apply drop_past in Hf. rewrite length_le_bytes in Hf.
  rewrite (io_bind_ok _ _ f _ (352 + 4 + 4 + length (replicate 48 x00))
             (replicate 12 0)).
  2:{ erewrite read_many_field; [|exact Hf|lia|reflexivity].
      reflexivity. }
  apply drop_past in Hf.
  rewrite (io_bind_ok _ _ f _ (length f) ss).
  - reflexivity.
  - apply read_stamps_records; try done.
    + rewrite length_replicate, Hlen. lia.
    + assert (length (concat (map stc_record ss)) = 272 * length ss)%nat.
      { clear. induction ss as [|s ss IH]; [reflexivity|].
        cbn [map concat length]. rewrite length_app, stc_record_length, IH.
        lia. }
      lia.
Qed.

(** ** Random access *)

Lemma bind_ok_inv {A B} (r : result A) (k : A -> result B) (b : B) :
  bind r k = Ok b -> exists a, r = Ok a /\ k a = Ok b.
Proof. destruct r as [a|e]; [by exists a | discriminate]. Qed.

Lemma where_last_cond (cond : Z -> bool) (l : list Z) (i : nat) :
  where_last cond l = Ok i -> exists x, l !! i = Some x /\ cond x = true.
Proof.
  unfold where_last.
  destruct (last (filter _ (enumerate l))) as [[j x]|] eqn:Hlast;
    [|discriminate].
  intros [= <-]. exists x.
  apply last_Some_elem_of in Hlast.
  apply list_elem_of_filter in Hlast as [Hc Hin]. cbn in Hc.
  unfold enumerate in Hin. apply list_elem_of_lookup in Hin as [k Hk].
  apply lookup_zip_with_Some in Hk as (j' & x' & [= -> ->] & Hj & Hx).
  apply lookup_seq in Hj as [-> _]. split; [done|].
  by destruct (cond x').
Qed.

Lemma mapM_length {A B} (f : A -> result B) (l : list A) (l' : list B) :
  mapM f l = Ok l' -> length l' = length l.
Proof.
  revert l'. induction l as [|a l IH]; intros l'; cbn [mapM].
  - by intros [= <-].
  - destruct (f a) as [b|]; [|discriminate]. cbn [bind].
    destruct (mapM f l) as [bs|]; [|discriminate]. cbn [bind].
    intros [= <-]. cbn [length]. by rewrite (IH bs).
Qed.

Lemma select_rows_length (dat_rec : list (list float)) (chan : list Z)
    (a b : Z) (src : list (list float)) :
  select_rows dat_rec chan a b = Ok src -> length src = length chan.
Proof. apply mapM_length. Qed.

Lemma zip_with_put_whole (w : nat) (dat src : list (list float)) :
  length src = length dat ->
  Forall (fun row => length row = w) dat ->
  zip_with (fun row new => take 0 row ++ new ++ drop (0 + w) row) dat src
  = src.
Proof.
  revert src. induction dat as [|row dat IH]; intros [|new src] Hlen Hw;
    try done.
  apply Forall_cons in Hw as [Hrow Hdat].
  cbn [zip_with]. rewrite IH by (simpl in Hlen; lia || done).
  cbn [take app Nat.add]. rewrite drop_ge by lia.
  by rewrite app_nil_r.
Qed.

(** A read inside one segment: the rows and columns asked for, cut out of
    what [_read_erd] returns for that segment. *)
Lemma return_dat_single_segment (self : Ktlx) (chan : list Z)
    (begsam endsam : Z) (stc : stc_hdr) (all_stamp : list stamp)
    (rec : nat) (st : stamp) (off : Z) :
  _read_stc (stc_file self) = Ok (stc, all_stamp) ->
  let n_sam_rec := 0 :: cumsum (map sample_span all_stamp) in
  where_last (fun x => x <=? begsam) n_sam_rec = Ok rec ->
  where_last (fun x => x <? endsam) n_sam_rec = Ok rec ->
  begsam <= endsam ->
  all_stamp !! rec = Some st ->
  n_sam_rec !! rec = Some off ->
  return_dat self chan begsam endsam
  = (dat_rec <- _read_erd (erd_file self (segment_name st)) (endsam - off) ;;
     select_rows dat_rec chan (begsam - off) (endsam - off)).
Proof.
  intros Hstc n_sam_rec Hbeg Hend Hle Hst Hoff.
  unfold return_dat. rewrite Hstc. cbn [bind snd].
  fold n_sam_rec. rewrite Hbeg, Hend. cbn [bind].
  replace (endsam - begsam <? 0) with false
    by (symmetry; apply Z.ltb_ge; lia).
  replace (rec + 1 - rec)%nat with 1%nat by lia.
  cbn [seq foldM]. unfold return_dat_rec.
  unfold index at 1. rewrite Hoff. cbn [bind]. rewrite Nat.eqb_refl.
  unfold index at 1. rewrite list_lookup_fmap, Hst. cbn [fmap option_fmap option_map bind].
  destruct (_read_erd _ _) as [dat_rec|e]; [|reflexivity]. cbn [bind].
  destruct (select_rows dat_rec chan _ _) as [src|e] eqn:Hsrc; [|reflexivity].
  cbn [bind].
  apply where_last_cond in Hbeg as (off' & Hoff' & Hcond).
  rewrite Hoff in Hoff'. injection Hoff' as <-. apply Z.leb_le in Hcond.
  unfold assign_cols.
  assert (Hstart : slice_start (endsam - begsam) 0
                     (endsam - off - (begsam - off) + 0) = 0%nat).
  { unfold slice_start, slice_bound. cbn [Z.ltb Z.compare].
    rewrite Z.min_l by lia. reflexivity. }
  assert (Hw : slice_len (endsam - begsam) 0
                 (endsam - off - (begsam - off) + 0)
               = Z.to_nat (endsam - begsam)).
  { unfold slice_len, slice_bound. cbn [Z.ltb Z.compare].
    replace (endsam - off - (begsam - off) + 0 <? 0) with false
      by (symmetry; apply Z.ltb_ge; lia).
    rewrite !Z.min_l by lia. f_equal. lia. }
  assert (Hsw : slice_len (endsam - off) (begsam - off) (endsam - off)
                = Z.to_nat (endsam - begsam)).
  { unfold slice_len, slice_bound.
    replace (begsam - off <? 0) with false
      by (symmetry; apply Z.ltb_ge; lia).
    replace (endsam - off <? 0) with false
      by (symmetry; apply Z.ltb_ge; lia).
    rewrite Z.min_id, Z.min_l by lia. f_equal. lia. }
  rewrite Hstart, Hw, Hsw, Nat.eqb_refl. cbn [bind fst].
  rewrite zip_with_put_whole; [reflexivity| |].
  - rewrite length_replicate. by apply select_rows_length in Hsrc.
  - apply Forall_replicate, length_replicate.
Qed.

Lemma read_erd_inv (erd_file : option (list byte)) (n_samples : Z)
    (dat : list (list float)) :
  _read_erd erd_file n_samples = Ok dat ->
  exists hdr n_chan filebytes output factor,
    _read_hdr_file erd_file = Ok hdr
    /\ hdr_get hdr num_channels = Ok n_chan
    /\ erd_file = Some filebytes
    /\ erd_output (file_schema hdr) n_chan filebytes n_samples = Ok output
    /\ _calculate_conversion hdr = Ok factor
    /\ scale_rows factor output = Ok dat.
Proof.
  unfold _read_erd. intros H.
  apply bind_ok_inv in H as (hdr & Hhdr & H).
  apply bind_ok_inv in H as (n_chan & Hn & H).
  apply bind_ok_inv in H as (filebytes & Hf & H).
  apply bind_ok_inv in H as (output & Hout & H).
  apply bind_ok_inv in H as (factor & Hfac & H).
  exists hdr, n_chan, filebytes, output, factor.
  repeat (split; [done|]). split; [|done].
  destruct erd_file as [f|]; [|discriminate].
  unfold with_open, f_read in Hf. cbn in Hf. by injection Hf as <-.
Qed.

Lemma scale_rows_same_length (factor : list float) (output : list (list Z)) :
  length factor = length output ->
  scale_rows factor output
  = Ok (zip_with (fun f row => map (fun v => (f * float_of_Z v)%float) row)
          factor output).
Proof. intros H. unfold scale_rows. by rewrite H, Nat.eqb_refl. Qed.

(** C4 (as the code has it): the conversion is part of the decoder.
    Whenever [_read_erd] returns, it returns the raw matrix of the loop with
    every row multiplied by the factor of its channel; [return_dat], its
    caller, only cuts rows and columns out of that result. *)
Theorem read_erd_converts :
  (forall erd_file n_samples dat,
      _read_erd erd_file n_samples = Ok dat ->
      exists hdr n_chan filebytes output factor,
        _read_hdr_file erd_file = Ok hdr
        /\ hdr_get hdr num_channels = Ok n_chan
        /\ erd_file = Some filebytes
        /\ erd_output (file_schema hdr) n_chan filebytes n_samples = Ok output
        /\ _calculate_conversion hdr = Ok factor
        /\ scale_rows factor output = Ok dat)
  /\ (forall factor output,
         length factor = length output ->
         scale_rows factor output
         = Ok (zip_with
                 (fun f row => map (fun v => (f * float_of_Z v)%float) row)
                 factor output))
  /\ (forall self chan begsam endsam stc all_stamp rec st off,
         _read_stc (stc_file self) = Ok (stc, all_stamp) ->
         let n_sam_rec := 0 :: cumsum (map sample_span all_stamp) in
         where_last (fun x => x <=? begsam) n_sam_rec = Ok rec ->
         where_last (fun x => x <? endsam) n_sam_rec = Ok rec ->
         begsam <= endsam ->
         all_stamp !! rec = Some st ->
         n_sam_rec !! rec = Some off ->
         return_dat self chan begsam endsam
         = (dat_rec <- _read_erd (erd_file self (segment_name st))
                         (endsam - off) ;;
            select_rows dat_rec chan (begsam - off) (endsam - off))).
Proof.
  split; [exact read_erd_inv|]. split; [exact scale_rows_same_length|].
  exact return_dat_single_segment.
Qed.

Lemma read_erd_converts_witness :
  _read_erd (Some erd_schema8) 2
  = Ok (map (map physical)
          [[1000; 1005]; [-128; -121]; [300; -70000]; [-2; 32765]])
  /\ exists hdr n_chan filebytes output factor,
       _read_hdr_file (Some erd_schema8) = Ok hdr
       /\ hdr_get hdr num_channels = Ok n_chan
       /\ Some erd_schema8 = Some filebytes
       /\ erd_output (file_schema hdr) n_chan filebytes 2 = Ok output
       /\ _calculate_conversion hdr = Ok factor
       /\ scale_rows factor output
          = Ok (map (map physical)
                  [[1000; 1005]; [-128; -121]; [300; -70000]; [-2; 32765]]).
Proof.
  assert (H : _read_erd (Some erd_schema8) 2
              = Ok (map (map physical)
                      [[1000; 1005]; [-128; -121]; [300; -70000];
                       [-2; 32765]]))
    by (vm_compute; reflexivity).
  split; [exact H|].
  exact (proj1 read_erd_converts (Some erd_schema8) 2 _ H).
Defined.

Lemma result_neq {A} (test : result A -> bool) (r1 r2 : result A) :
  test r1 = true -> test r2 = false -> r1 <> r2.
Proof. intros H1 H2 ->. congruence. Qed.

(** C4 as stated fails: what [_read_erd] returns for the schema 8 example
    is the raw matrix times 3.95e-5, not the raw matrix, and [return_dat]
    hands on what [_read_erd] returned without converting it. *)
Lemma read_erd_output_is_scaled :
  erd_output 8 4 erd_schema8 2
  = Ok [[1000; 1005]; [-128; -121]; [300; -70000]; [-2; 32765]]
  /\ _read_erd (Some erd_schema8) 2
     = Ok (map (map physical)
             [[1000; 1005]; [-128; -121]; [300; -70000]; [-2; 32765]])
  /\ _read_erd (Some erd_schema8) 2
     <> Ok (map (map float_of_Z)
              [[1000; 1005]; [-128; -121]; [300; -70000]; [-2; 32765]])
  /\ return_dat two_segments [0] 0 3 = _read_erd (Some erd_first) 3.
Proof.
  split; [vm_compute; reflexivity|].
  split; [vm_compute; reflexivity|].
  split; [|vm_compute; reflexivity].
  apply (result_neq
           (fun r => match r with
                     | Ok ((x :: _) :: _) => (x <? 1)%float
                     | _ => false
                     end)); vm_compute; reflexivity.
Qed.

(** C5 as stated fails: the second entry of this table starts at sample 7,
    not at 0 + 3, and the table is returned all the same. *)
Lemma read_stc_accepts_inconsistent_index :
  (r <- _read_stc (Some (stc_bytes stamps_inconsistent)) ;; Ok r.2)
  = Ok stamps_inconsistent
  /\ map sample_num stamps_inconsistent = [0; 7]
  /\ map sample_span stamps_inconsistent = [3; 2]
  /\ 7 <> 0 + 3.
Proof.
  split; [vm_compute; reflexivity|]. split; [reflexivity|].
  split; [reflexivity | discriminate].
Qed.

Lemma read_stc_returns_every_entry_witness :
  forallb valid_stamp stamps_two_segments = true
  /\ _read_stc (Some (stc_bytes stamps_two_segments))
     = Ok ({| next_segment := 0; final := 0; padding := replicate 12 0 |},
           stamps_two_segments).
Proof.
  assert (H : forallb valid_stamp stamps_two_segments = true)
    by (vm_compute; reflexivity).
  split; [exact H|].
  exact (read_stc_returns_every_entry stamps_two_segments H).
Defined.

(** C6: on the recording in two segments, the read of the samples 0 to 3
    takes one sample of the first segment where it should take three, and
    leaves the last two columns at zero; the reads of 0 to 2 and of 3 alone
    are right, so the read across the boundary is not their
    concatenation. *)
Theorem return_dat_across_segments :
  return_dat two_segments [0] 0 4
  = Ok [[physical 10; physical 40; 0%float; 0%float]]
  /\ return_dat two_segments [0] 0 3
     = Ok [[physical 10; physical 20; physical 30]]
  /\ return_dat two_segments [0] 3 4 = Ok [[physical 40]]
  /\ return_dat two_segments [0] 0 4
     <> (a <- return_dat two_segments [0] 0 3 ;;
         b <- return_dat two_segments [0] 3 4 ;;
         Ok (zip_with app a b)).
Proof.
  repeat (split; [vm_compute; reflexivity|]).
  apply (result_neq
           (fun r => match r with
                     | Ok ((_ :: x :: _) :: _) => (0.001 <? x)%float
                     | _ => false
                     end)); vm_compute; reflexivity.
Qed.

(** C8: on the same recording, the read of the samples 2 and 3 raises
    [ValueError], and the read of the samples 1 to 3 returns the sample 3
    followed by two zeros. *)
Theorem return_dat_wrong_samples :
  return_dat two_segments [0] 2 4 = Err ValueError
  /\ return_dat two_segments [0] 1 4
     = Ok [[physical 40; 0%float; 0%float]]
  /\ return_dat two_segments [0] 1 3 = Ok [[physical 20; physical 30]].
Proof. repeat split; vm_compute; reflexivity. Qed.

(** ** The loop of [_read_stc] ends *)

Lemma reads_bind {A B} (n m : nat) (c : file_io A) (k : A -> file_io B) :
  reads n c -> (forall a, reads m (k a)) -> reads (n + m) (io_bind c k).
Proof.
  intros Hc Hk f pos. unfold io_bind. specialize (Hc f pos).
  destruct (c f pos) as [[a pos']|e]; [|done].
  destruct Hc as [-> Hle]. specialize (Hk a f (pos + n)%nat).
  destruct (k a f (pos + n)%nat) as [[b pos'']|e]; [|done].
  destruct Hk as [-> Hle']. split; [lia|done].
Qed.

Lemma reads_bind_ret {A B} (n : nat) (c : file_io A) (g : A -> B) :
  reads n c -> reads n (io_bind c (fun a => io_ret (g a))).
Proof.
  intros Hc f pos. unfold io_bind, io_ret. specialize (Hc f pos).
  by destruct (c f pos) as [[a pos']|e].
Qed.

Lemma reads_unpack {A} (n : nat) (unpack : list byte -> result A) :
  (0 < n)%nat ->
  (forall buf, match unpack buf with
               | Ok _ => length buf = n
               | Err e => e <> OutOfFuel
               end) ->
  reads n (io_bind (f_read (Z.of_nat n)) (fun buf => io_lift (unpack buf))).
Proof.
  intros Hn Hu f pos. unfold io_bind, f_read, io_lift.
  replace (Z.of_nat n <? 0) with false by (symmetry; apply Z.ltb_ge; lia).
  rewrite Nat2Z.id. specialize (Hu (take n (drop pos f))).
  destruct (unpack (take n (drop pos f))) as [a|e]; [|done].
  rewrite Hu. split; [done|].
  rewrite length_take, length_drop in Hu. lia.
Qed.

Lemma reads_read_i : reads 4 read_i.
Proof.
  apply (reads_unpack 4 unpack_i); [lia|]. intros buf.
  unfold unpack_i, unpack_signed.
  destruct (Nat.eqb_spec (length buf) 4); done.
Qed.

Lemma make_str_raises (t_in : list byte) (e : exn) :
  _make_str t_in = Err e -> e = UnicodeDecodeError.
Proof.
  induction t_in as [|t rest IH]; cbn [_make_str]; [discriminate|].
  destruct (Byte.eqb t x00); [discriminate|].
  destruct (byte_val t <? 128); [|by intros [= <-]].
  destruct (_make_str rest); [discriminate|].
  cbn [bind]. intros [= <-]. by apply IH.
Qed.

Lemma reads_read_str (n : nat) : (0 < n)%nat -> reads n (read_str n).
Proof.
  intros Hn f pos. unfold read_str.
  pose proof (reads_unpack n
                (fun buf => cs <- unpack_bytes n buf ;; _make_str cs)) as H.
  assert (Hu : forall buf, match cs <- unpack_bytes n buf ;; _make_str cs with
                           | Ok _ => length buf = n
                           | Err e => e <> OutOfFuel
                           end).
  { intros buf. unfold unpack_bytes.
    destruct (Nat.eqb_spec (length buf) n); cbn [bind]; [|done].
    destruct (_make_str buf) eqn:Hs; [done|].
    apply make_str_raises in Hs. by subst. }
  specialize (H Hn Hu f pos). unfold io_bind, io_lift, f_read in *.
  destruct (unpack_bytes n _) as [cs|e]; cbn [bind] in H; [|done].
  by destruct (_make_str cs).
Qed.

Lemma reads_read_stamp : reads 272 read_stamp.
Proof.
  unfold read_stamp.
  apply (reads_bind 256 16); [apply reads_read_str; lia|]. intros name.
  apply (reads_bind 4 12); [apply reads_read_i|]. intros start.
  apply (reads_bind 4 8); [apply reads_read_i|]. intros stop.
  apply (reads_bind 4 4); [apply reads_read_i|]. intros num.
  apply (reads_bind_ret 4 read_i), reads_read_i.
Qed.

Lemma read_stamps_total (fuel : nat) :
  forall (f : list byte) (pos : nat),
    (pos <= length f)%nat ->
    (length f <= pos + 272 * fuel)%nat ->
    read_stamps fuel (length f) f pos <> Err OutOfFuel.
Proof.
  induction fuel as [|fuel IH]; intros f pos Hpos Hfuel.
  - assert (pos = length f) as -> by lia.
    cbn [read_stamps]. unfold io_bind, f_tell. by rewrite Nat.eqb_refl.
  - cbn [read_stamps]. unfold io_bind at 1. cbn [f_tell].
    destruct (Nat.eqb_spec pos (length f)) as [Heq|Hne]; [done|].
    unfold io_bind at 1. pose proof (reads_read_stamp f pos) as Hst.
    destruct (read_stamp f pos) as [[st pos']|e];
      [|intros [= ->]; by apply Hst].
    destruct Hst as [-> Hle]. unfold io_bind.
    specialize (IH f (pos + 272)%nat Hle ltac:(lia)).
    destruct (read_stamps fuel (length f) f (pos + 272)%nat) as [[rest p]|e];
      [done|]. intros [= ->]. by apply IH.
Qed.

(** The fuel of the model never runs out: [_read_stc] returns or raises a
    Python exception on every file. *)
Lemma _read_stc_total (stc_file : option (list byte)) :
  _read_stc stc_file <> Err OutOfFuel.
Proof.
  destruct stc_file as [f|]; [|done].
  unfold _read_stc, with_open, read_stc_body.
  unfold io_bind at 1. cbn [f_end]. unfold io_bind at 1. cbn [f_seek].
  unfold io_bind at 1. pose proof (reads_read_i f 352%nat) as H1.
  destruct (read_i f 352%nat) as [[next p1]|e]; [|intros [= ->]; by apply H1].
  destruct H1 as [-> Hle1].
  unfold io_bind at 1. pose proof (reads_read_i f (352 + 4)%nat) as H2.
  destruct (read_i f (352 + 4)%nat) as [[fin p2]|e];
    [|intros [= ->]; by apply H2].
  destruct H2 as [-> Hle2].
  unfold io_bind at 1.
  assert (H3 : reads 48 (read_many 4 12)).
  { apply (reads_unpack 48 (unpack_many_signed 4 12)); [lia|]. intros buf.
    unfold unpack_many_signed.
    by destruct (Nat.eqb_spec (length buf) (Z.to_nat 12 * 4)). }
  specialize (H3 f (352 + 4 + 4)%nat).
  destruct (read_many 4 12 f (352 + 4 + 4)%nat) as [[pad p3]|e];
    [|intros [= ->]; by apply H3].
  destruct H3 as [-> Hle3].
  unfold io_bind, io_ret.
  pose proof (read_stamps_total (length f) f (352 + 4 + 4 + 48)%nat Hle3
                ltac:(lia)) as H4.
  by destruct (read_stamps (length f) (length f) f (352 + 4 + 4 + 48)%nat)
    as [[ss p4]|e]; [|intros [= ->]].
Qed.

(** * Further properties of the module *)

(** ** [_make_str] *)

Lemma make_str_prefix (s : string) (tail : list byte) (r : result string) :
  valid_name s = true ->
  _make_str tail = r ->
  _make_str (map byte_of_ascii (String.list_ascii_of_string s) ++ tail)
  = (t <- r ;; Ok (String.append s t)).
Proof.
  unfold valid_name. intros Hv <-. induction s as [|a s IH].
  - cbn. by destruct (_make_str tail).
  - cbn [String.list_ascii_of_string forallb map app _make_str] in *.
    apply andb_true_iff in Hv as [Ha Hs].
    apply andb_true_iff in Ha as [Hpos Hlt].
    destruct (Byte.eqb (byte_of_ascii a) x00) eqn:Heq.
    + apply Byte.byte_dec_bl in Heq. rewrite Heq in Hpos. discriminate.
    + rewrite Hlt, IH by done.
      destruct (_make_str tail) as [t|e]; cbn [bind]; [|done].
      by rewrite ascii_of_byte_of_ascii.
Qed.

Lemma append_empty (s : string) : String.append s EmptyString = s.
Proof.
  induction s as [|a s IH]; [reflexivity|].
  change (String a (String.append s EmptyString) = String a s).
  by rewrite IH.
Qed.

(** X1: a text field is decoded up to its first null byte and what follows
    the null is ignored; a field without a null byte is decoded whole. *)
Theorem make_str_stops_at_null (s : string) (tail : list byte) :
  valid_name s = true ->
  _make_str (map byte_of_ascii (String.list_ascii_of_string s) ++ x00 :: tail)
  = Ok s
  /\ _make_str (map byte_of_ascii (String.list_ascii_of_string s)) = Ok s.
Proof.
  intros Hv. split.
  - rewrite (make_str_prefix s (x00 :: tail) (Ok EmptyString)) by done.
    cbn [bind]. by rewrite append_empty.
  - rewrite <- (app_nil_r (map _ _)).
    rewrite (make_str_prefix s [] (Ok EmptyString)) by done.
    cbn [bind]. by rewrite append_empty.
Qed.

Lemma make_str_stops_at_null_witness :
  valid_name "Doe" = true
  /\ _make_str (map byte_of_ascii (String.list_ascii_of_string "Doe")
                ++ x00 :: [x4a; xff; x00])
     = Ok "Doe"
  /\ _make_str (map byte_of_ascii (String.list_ascii_of_string "Doe"))
     = Ok "Doe".
Proof.
  assert (Hv : valid_name "Doe" = true) by reflexivity.
  split; [exact Hv|].
  exact (make_str_stops_at_null "Doe" [x4a; xff; x00] Hv).
Defined.

(** X2: a byte above 0x7f before the first null byte makes [_make_str]
    raise [UnicodeDecodeError], whatever follows; the same byte after the
    null is never looked at. *)
Theorem make_str_non_ascii (s : string) (b : byte) (tail : list byte) :
  valid_name s = true ->
  128 <= byte_val b ->
  _make_str (map byte_of_ascii (String.list_ascii_of_string s) ++ b :: tail)
  = Err UnicodeDecodeError
  /\ _make_str (map byte_of_ascii (String.list_ascii_of_string s)
                ++ x00 :: b :: tail)
     = Ok s.
Proof.
  intros Hv Hb. split.
  - rewrite (make_str_prefix s (b :: tail) (Err UnicodeDecodeError));
      [reflexivity|done|].
    cbn [_make_str].
    destruct (Byte.eqb b x00) eqn:Heq.
    + apply Byte.byte_dec_bl in Heq. subst b. vm_compute in Hb. done.
    + by replace (byte_val b <? 128) with false
        by (symmetry; apply Z.ltb_ge; lia).
  - rewrite (make_str_prefix s (x00 :: b :: tail) (Ok EmptyString)) by done.
    cbn [bind]. by rewrite append_empty.
Qed.

Lemma make_str_non_ascii_witness :
  valid_name "Mu" = true
  /\ 128 <= byte_val xfc
  /\ _make_str (map byte_of_ascii (String.list_ascii_of_string "Mu")
                ++ xfc :: [x6c; x00])
     = Err UnicodeDecodeError
  /\ _make_str (map byte_of_ascii (String.list_ascii_of_string "Mu")
                ++ x00 :: xfc :: [x6c; x00])
     = Ok "Mu".
Proof.
  assert (Hv : valid_name "Mu" = true) by reflexivity.
  assert (Hb : 128 <= byte_val xfc) by (vm_compute; discriminate).
  split; [exact Hv|]. split; [exact Hb|].
  exact (make_str_non_ascii "Mu" xfc [x6c; x00] Hv Hb).
Defined.

(** ** [_filetime_to_dt] *)

(** X3: for a file time inside the years [datetime] has, the conversion
    returns; the microsecond it passes to [replace] is always between 0 and
    999999, so [replace] never raises; and the result is the file time
    rounded down to the microsecond: less than ten units of 100 ns are
    lost. *)
Theorem filetime_to_dt_rounds_down (ft : Z) :
  EPOCH_AS_FILETIME - 62135596800 * HUNDREDS_OF_NANOSECONDS <= ft ->
  ft < EPOCH_AS_FILETIME + 253402300800 * HUNDREDS_OF_NANOSECONDS ->
  exists dt,
    _filetime_to_dt ft = Ok dt
    /\ 0 <= microsecond dt < 1000000
    /\ let back := EPOCH_AS_FILETIME
                   + timestamp dt * HUNDREDS_OF_NANOSECONDS
                   + microsecond dt * 10 in
       back <= ft < back + 10.
Proof.
  unfold _filetime_to_dt, utcfromtimestamp, replace_microsecond,
    EPOCH_AS_FILETIME, HUNDREDS_OF_NANOSECONDS.
  intros Hlo Hhi.
  set (d := ft - 116444736000000000).
  pose proof (Z.div_mod d 10000000 ltac:(lia)) as Hdm.
  pose proof (Z.mod_pos_bound d 10000000 ltac:(lia)) as Hm.
  pose proof (Z.div_mod (d mod 10000000) 10 ltac:(lia)) as Hdm'.
  pose proof (Z.mod_pos_bound (d mod 10000000) 10 ltac:(lia)) as Hm'.
  assert (Hs : -62135596800 <= d / 10000000 <= 253402300799).
  { split.
    - apply Z.div_le_lower_bound; lia.
    - apply Z.lt_succ_r, Z.div_lt_upper_bound; lia. }
  assert (Hus : 0 <= d mod 10000000 / 10 < 1000000).
  { split.
    - apply Z.div_pos; lia.
    - apply Z.div_lt_upper_bound; lia. }
  replace ((-62135596800 <=? d / 10000000)
           && (d / 10000000 <=? 253402300799)) with true
    by (symmetry; apply andb_true_iff; split; apply Z.leb_le; lia).
  cbn [bind timestamp].
  replace ((0 <=? d mod 10000000 / 10) && (d mod 10000000 / 10 <? 1000000))
    with true
    by (symmetry; apply andb_true_iff; split;
        [apply Z.leb_le | apply Z.ltb_lt]; lia).
  eexists. split; [reflexivity|]. cbn [timestamp microsecond].
  split; [done|]. subst d. lia.
Qed.

Lemma filetime_to_dt_rounds_down_witness :
  EPOCH_AS_FILETIME - 62135596800 * HUNDREDS_OF_NANOSECONDS
  <= 130000000012345678
  /\ 130000000012345678
     < EPOCH_AS_FILETIME + 253402300800 * HUNDREDS_OF_NANOSECONDS
  /\ exists dt,
       _filetime_to_dt 130000000012345678 = Ok dt
       /\ 0 <= microsecond dt < 1000000
       /\ let back := EPOCH_AS_FILETIME
                      + timestamp dt * HUNDREDS_OF_NANOSECONDS
                      + microsecond dt * 10 in
          back <= 130000000012345678 < back + 10.
Proof.
  assert (Hlo : EPOCH_AS_FILETIME - 62135596800 * HUNDREDS_OF_NANOSECONDS
                <= 130000000012345678) by (vm_compute; discriminate).
  assert (Hhi : 130000000012345678
                < EPOCH_AS_FILETIME + 253402300800 * HUNDREDS_OF_NANOSECONDS)
    by (vm_compute; reflexivity).
  split; [exact Hlo|]. split; [exact Hhi|].
  exact (filetime_to_dt_rounds_down 130000000012345678 Hlo Hhi).
Defined.

(** ** What a returned header guarantees *)

Lemma io_bind_inv {A B} (c : file_io A) (k : A -> file_io B) (f : list byte)
    (pos p : nat) (b : B) :
  io_bind c k f pos = Ok (b, p) ->
  exists a p', c f pos = Ok (a, p') /\ k a f p' = Ok (b, p).
Proof.
  unfold io_bind. destruct (c f pos) as [[a p']|e]; [|discriminate].
  intros H. by exists a, p'.
Qed.

Lemma reads_ok {A} (n : nat) (c : file_io A) (f : list byte) (pos p : nat)
    (a : A) :
  reads n c -> c f pos = Ok (a, p) -> p = (pos + n)%nat /\ (p <= length f)%nat.
Proof. intros Hc H. specialize (Hc f pos). by rewrite H in Hc. Qed.

Lemma reads_read_H : reads 2 read_H.
Proof.
  apply (reads_unpack 2 unpack_H); [lia|]. intros buf.
  unfold unpack_H, unpack_unsigned.
  destruct (Nat.eqb_spec (length buf) 2); done.
Qed.

Lemma reads_read_h : reads 2 read_h.
Proof.
  apply (reads_unpack 2 unpack_h); [lia|]. intros buf.
  unfold unpack_h, unpack_signed.
  destruct (Nat.eqb_spec (length buf) 2); done.
Qed.

Lemma chunks_length (n k : nat) :
  forall buf : list byte,
    (0 < k)%nat -> length buf = (n * k)%nat -> length (chunks n k buf) = n.
Proof.
  induction n as [|n IH]; intros buf Hk Hlen; [reflexivity|].
  cbn [chunks]. destruct buf as [|b buf]; [simpl in Hlen; lia|].
  cbn [length]. f_equal. apply IH; [done|].
  rewrite length_drop, Hlen. lia.
Qed.

(** A successful [unpack(c * n, f.read(n * k))]: with [n >= 0] it has read
    [n] values; with [n < 0] the read took the rest of the file, which was
    empty. *)
Lemma read_many_ok (k : nat) (n : Z) (f : list byte) (pos p : nat)
    (l : list Z) :
  (0 < k)%nat ->
  read_many k n f pos = Ok (l, p) ->
  (0 <= n ->
   p = (pos + Z.to_nat n * k)%nat /\ length l = Z.to_nat n
   /\ ((pos <= length f)%nat -> (p <= length f)%nat))
  /\ (n < 0 -> p = pos /\ (length f <= pos)%nat).
Proof.
  intros Hk H. unfold read_many in H.
  apply io_bind_inv in H as (buf & p' & Hread & H).
  unfold io_lift in H.
  destruct (unpack_many_signed k n buf) as [l'|] eqn:Hu; [|discriminate].
  injection H as <- <-.
  unfold unpack_many_signed in Hu.
  destruct (Nat.eqb_spec (length buf) (Z.to_nat n * k)) as [Hlen|];
    [|discriminate].
  injection Hu as <-.
  unfold f_read in Hread.
  split.
  - intros Hn.
    replace (n * Z.of_nat k <? 0) with false in Hread
      by (symmetry; apply Z.ltb_ge; lia).
    injection Hread as <- <-. rewrite Hlen.
    split; [done|]. split.
    + rewrite length_map. by apply chunks_length.
    + intros Hpos. rewrite length_take, length_drop in Hlen. lia.
  - intros Hn.
    replace (n * Z.of_nat k <? 0) with true in Hread
      by (symmetry; apply Z.ltb_lt; lia).
    injection Hread as <- <-.
    replace (Z.to_nat n) with 0%nat in Hlen by lia.
    rewrite length_drop in Hlen. rewrite length_drop. lia.
Qed.

Ltac io_inv H a p Ha :=
  apply io_bind_inv in H as (a & p & Ha & H).

Lemma read_schema7_ok (f : list byte) (pos p : nat) (h7 : hdr_schema7) :
  pos = 352%nat ->
  read_schema7 f pos = Ok (h7, p) ->
  p = Z.to_nat 4560 /\ (Z.to_nat 4560 <= length f)%nat
  /\ 0 <= num_channels h7
  /\ (pos + 16 + 4 * Z.to_nat (num_channels h7) <= length f)%nat
  /\ length (phys_chan h7) = Z.to_nat (num_channels h7)
  /\ length (headbox_type h7) = 4%nat.
Proof.
  intros Hpos H. unfold read_schema7 in H.
  io_inv H d p1 Hd. io_inv H freq p1' Hfreq.
  io_inv H n_chan p2 Hn. io_inv H dbits p3 Hdb.
  io_inv H phys p4 Hphys. io_inv H u p5 Hseek.
  io_inv H hb_type p6 Hhb. io_inv H hb_sn p7 Hsn.
  io_inv H hb_sw p8 Hsw. io_inv H dsp_hw p9 Hhw.
  io_inv H dsp_sw p10 Hdsw. io_inv H discard p11 Hdis.
  unfold io_ret in H. injection H as <- <-.
  cbn [num_channels phys_chan headbox_type].
  assert (Hp1 : p1' = (pos + 8)%nat /\ (p1' <= length f)%nat).
  { unfold f_read in Hd. cbn [Z.ltb Z.compare] in Hd. injection Hd as <- <-.
    unfold io_lift in Hfreq.
    destruct (unpack_unsigned 8 _) eqn:Hu; [|discriminate].
    injection Hfreq as _ <-. unfold unpack_unsigned in Hu.
    destruct (Nat.eqb_spec (length (take (Z.to_nat 8) (drop pos f))) 8)
      as [Hlen|]; [|discriminate].
    rewrite Hlen. split; [done|].
    rewrite length_take, length_drop in Hlen. lia. }
  destruct Hp1 as [-> Hle1].
  apply (reads_ok 4 _ _ _ _ _ reads_read_i) in Hn as [-> Hle2].
  apply (reads_ok 4 _ _ _ _ _ reads_read_i) in Hdb as [-> Hle3].
  unfold f_seek in Hseek. injection Hseek as _ <-.
  apply read_many_ok in Hhb as [Hhb _]; [|lia].
  destruct (Hhb ltac:(lia)) as (-> & Hlen_hb & _).
  apply read_many_ok in Hsn as [Hsn _]; [|lia].
  destruct (Hsn ltac:(lia)) as (-> & _ & _).
  apply (reads_ok 40 _ _ _ _ _ (reads_read_str 40 ltac:(lia))) in Hsw
    as [-> _].
  apply (reads_ok 10 _ _ _ _ _ (reads_read_str 10 ltac:(lia))) in Hhw
    as [-> _].
  apply (reads_ok 10 _ _ _ _ _ (reads_read_str 10 ltac:(lia))) in Hdsw
    as [-> _].
  apply (reads_ok 4 _ _ _ _ _ reads_read_i) in Hdis as [-> Hle].
  assert (Hend : (Z.to_nat 4560 <= length f)%nat) by lia.
  apply read_many_ok in Hphys as [Hnonneg Hneg]; [|lia].
  destruct (Z_lt_dec n_chan 0) as [Hlt|Hge].
  { destruct (Hneg Hlt) as [_ Hshort]. lia. }
  destruct (Hnonneg ltac:(lia)) as (-> & Hlen & Hle4).
  repeat split; done || lia.
Qed.

Lemma read_schema8_ok (f : list byte) (pos p : nat) (h8 : hdr_schema8) :
  (pos <= length f)%nat ->
  read_schema8 f pos = Ok (h8, p) ->
  p = (pos + 4096)%nat /\ (p <= length f)%nat
  /\ length (shorted h8) = 1024%nat
  /\ length (frequency_factor h8) = 1024%nat.
Proof.
  intros Hpos H. unfold read_schema8 in H.
  io_inv H sh p1 Hsh. io_inv H ff p2 Hff.
  unfold io_ret in H. injection H as <- <-.
  apply read_many_ok in Hsh as [Hsh _]; [|lia].
  destruct (Hsh ltac:(lia)) as (-> & Hlen1 & Hle1).
  apply read_many_ok in Hff as [Hff _]; [|lia].
  destruct (Hff ltac:(lia)) as (-> & Hlen2 & Hle2).
  cbn [shorted frequency_factor].
  split; [lia|]. split; [by apply Hle2, Hle1|]. done.
Qed.

Lemma hdr_file_body (ktlx_file : option (list byte)) (h : hdr) :
  _read_hdr_file ktlx_file = Ok h ->
  exists f p, ktlx_file = Some f /\ read_hdr_body f 0%nat = Ok (h, p).
Proof.
  unfold _read_hdr_file, with_open. intros H.
  destruct ktlx_file as [f|]; [|discriminate].
  destruct (read_hdr_body f 0%nat) as [[h' p]|] eqn:Hbody; [|discriminate].
  injection H as ->. by exists f, p.
Qed.

Lemma read_hdr_body_ok (f : list byte) (h : hdr) (p : nat) :
  read_hdr_body f 0%nat = Ok (h, p) ->
  (352 <= length f)%nat
  /\ supported_schema (file_schema h) = true
  /\ base_schema h = 1
  /\ match schema7 h with
     | Some h7 =>
         7 <= file_schema h
         /\ (Z.to_nat 4560 <= length f)%nat
         /\ 0 <= num_channels h7
         /\ (368 + 4 * Z.to_nat (num_channels h7) <= length f)%nat
         /\ length (phys_chan h7) = Z.to_nat (num_channels h7)
         /\ length (headbox_type h7) = 4%nat
     | None => file_schema h = 1
     end
  /\ match schema8 h with
     | Some h8 =>
         8 <= file_schema h
         /\ (Z.to_nat 8656 <= length f)%nat
         /\ length (shorted h8) = 1024%nat
         /\ length (frequency_factor h8) = 1024%nat
     | None => file_schema h < 8
     end.
Proof.
  intros H. unfold read_hdr_body in H.
  io_inv H pos0 p0 Htell. unfold f_tell in Htell. injection Htell as <- <-.
  io_inv H u0 p0 Hassert. unfold io_lift in Hassert. cbn in Hassert.
  injection Hassert as _ <-.
  io_inv H guid p1 Hguid. io_inv H schema p2 Hschema.
  io_inv H u1 p3 Hsup. io_inv H base p4 Hbase. io_inv H u2 p5 Hb1.
  io_inv H ctime p6 Hctime. io_inv H pidn p7 Hpidn. io_inv H study p8 Hstudy.
  io_inv H last_name p9 Hlast. io_inv H first_name p10 Hfirst.
  io_inv H middle p11 Hmiddle. io_inv H pid p12 Hpid.
  io_inv H pos p13 Hpos. io_inv H u3 p14 H352.
  io_inv H s7 p15 Hs7. io_inv H s8 p16 Hs8.
  unfold io_ret in H. injection H as <- <-.
  cbn [file_schema base_schema schema7 schema8].
  unfold io_lift in Hsup.
  destruct (supported_schema schema) eqn:Hsupported; [|discriminate].
  injection Hsup as _ <-.
  unfold io_lift in Hb1.
  destruct (Z.eqb_spec base 1) as [->|]; [|discriminate].
  injection Hb1 as _ <-.
  apply (reads_ok 80 _ _ _ _ _ (reads_read_str 80 ltac:(lia))) in Hpid
    as [-> Hle].
  unfold f_tell in Hpos. injection Hpos as <- <-.
  unfold io_lift, assert_ in H352.
  destruct (Nat.eqb_spec (p11 + 80) 352) as [H352'|]; [|discriminate].
  injection H352 as _ <-.
  assert (Hlen : (352 <= length f)%nat) by lia.
  split; [done|]. split; [done|]. split; [done|].
  assert (Hcases : schema = 1 \/ schema = 7 \/ schema = 8 \/ schema = 9).
  { unfold supported_schema in Hsupported.
    destruct (Z.eqb_spec schema 1); [by left|].
    destruct (Z.eqb_spec schema 7); [by right; left|].
    destruct (Z.eqb_spec schema 8); [by right; right; left|].
    destruct (Z.eqb_spec schema 9); [by right; right; right|].
    discriminate. }
  assert (H7 : match s7 with
               | Some h7 =>
                   7 <= schema /\ p15 = Z.to_nat 4560
                   /\ (Z.to_nat 4560 <= length f)%nat
                   /\ 0 <= num_channels h7
                   /\ (368 + 4 * Z.to_nat (num_channels h7) <= length f)%nat
                   /\ length (phys_chan h7) = Z.to_nat (num_channels h7)
                   /\ length (headbox_type h7) = 4%nat
               | None => schema = 1 /\ p15 = (p11 + 80)%nat
               end).
  { destruct (Z.leb_spec 7 schema) as [Hge|Hlt].
    - io_inv Hs7 h7 p' Hh7. unfold io_ret in Hs7. injection Hs7 as <- <-.
      apply read_schema7_ok in Hh7 as (-> & ? & ? & ? & ? & ?); [|done].
      repeat split; try done; lia.
    - unfold io_ret in Hs7. injection Hs7 as <- <-. split; [lia|done]. }
  split.
  { destruct s7 as [h7|]; [|by destruct H7].
    destruct H7 as (? & _ & ? & ? & ? & ? & ?). done. }
  destruct (Z.leb_spec 8 schema) as [Hge|Hlt].
  - io_inv Hs8 h8 p' Hh8. unfold io_ret in Hs8. injection Hs8 as <- <-.
    destruct s7 as [h7|]; [|lia].
    destruct H7 as (_ & -> & Hle7 & _).
    apply read_schema8_ok in Hh8 as (-> & ? & ? & ?); [|lia].
    repeat split; done || lia.
  - unfold io_ret in Hs8. by injection Hs8 as <- <-.
Qed.


(** X4: what every header that [_read_hdr_file] returns guarantees. The
    file has the 352 bytes of the common block, its schema is 1, 7, 8 or 9
    and its base schema is 1. The keys of schema 7 are there exactly when
    the schema is at least 7: then the file has at least 4560 bytes, the
    channel count is not negative, there is one physical channel number per
    channel and four headbox types. The keys of schema 8 are there exactly
    when the schema is at least 8: then the file has at least 8656 bytes and
    both tables have 1024 entries. *)
Theorem read_hdr_file_invariants (ktlx_file : option (list byte)) (h : hdr) :
  _read_hdr_file ktlx_file = Ok h ->
  exists f,
    ktlx_file = Some f
    /\ (352 <= length f)%nat
    /\ supported_schema (file_schema h) = true
    /\ base_schema h = 1
    /\ match schema7 h with
       | Some h7 =>
           7 <= file_schema h
           /\ (Z.to_nat 4560 <= length f)%nat
           /\ 0 <= num_channels h7
           /\ (368 + 4 * Z.to_nat (num_channels h7) <= length f)%nat
           /\ length (phys_chan h7) = Z.to_nat (num_channels h7)
           /\ length (headbox_type h7) = 4%nat
       | None => file_schema h = 1
       end
    /\ match schema8 h with
       | Some h8 =>
           8 <= file_schema h
           /\ (Z.to_nat 8656 <= length f)%nat
           /\ length (shorted h8) = 1024%nat
           /\ length (frequency_factor h8) = 1024%nat
       | None => file_schema h < 8
       end.
Proof.
  intros H. apply hdr_file_body in H as (f & p & -> & H).
  exists f. split; [reflexivity|]. by apply (read_hdr_body_ok f h p).
Qed.

Lemma read_hdr_file_invariants_witness :
  _read_hdr_file (Some (erd_header 8 4 1 0)) = Ok (hdr_written 8 4 1 0)
  /\ exists f,
       Some (erd_header 8 4 1 0) = Some f
       /\ (352 <= length f)%nat
       /\ supported_schema (file_schema (hdr_written 8 4 1 0)) = true
       /\ base_schema (hdr_written 8 4 1 0) = 1
       /\ match schema7 (hdr_written 8 4 1 0) with
          | Some h7 =>
              7 <= file_schema (hdr_written 8 4 1 0)
              /\ (Z.to_nat 4560 <= length f)%nat
              /\ 0 <= num_channels h7
              /\ (368 + 4 * Z.to_nat (num_channels h7) <= length f)%nat
              /\ length (phys_chan h7) = Z.to_nat (num_channels h7)
              /\ length (headbox_type h7) = 4%nat
          | None => file_schema (hdr_written 8 4 1 0) = 1
          end
       /\ match schema8 (hdr_written 8 4 1 0) with
          | Some h8 =>
              8 <= file_schema (hdr_written 8 4 1 0)
              /\ (Z.to_nat 8656 <= length f)%nat
              /\ length (shorted h8) = 1024%nat
              /\ length (frequency_factor h8) = 1024%nat
          | None => file_schema (hdr_written 8 4 1 0) < 8
          end.
Proof.
  assert (H : _read_hdr_file (Some (erd_header 8 4 1 0))
              = Ok (hdr_written 8 4 1 0)) by (vm_compute; reflexivity).
  split; [exact H|].
  exact (read_hdr_file_invariants _ _ H).
Defined.

(** X5: a file of schema 1 has a header that [_read_hdr_file] accepts, but
    it has none of the keys of schema 7: [_read_erd] and
    [_calculate_conversion] raise [KeyError] on it, whatever else the file
    holds. *)
Theorem schema1_has_no_channels (erd_file : option (list byte)) (h : hdr)
    (n_samples : Z) :
  _read_hdr_file erd_file = Ok h ->
  file_schema h = 1 ->
  _read_erd erd_file n_samples = Err KeyError
  /\ _calculate_conversion h = Err KeyError.
Proof.
  intros Hh H1.
  destruct (hdr_file_body _ _ Hh) as (f & p & _ & Hbody).
  destruct (read_hdr_body_ok f h p Hbody) as (_ & _ & _ & H7 & _).
  assert (Hnone : schema7 h = None).
  { destruct (schema7 h); [|done]. destruct H7 as [? _]. lia. }
  split.
  - unfold _read_erd. rewrite Hh. cbn [bind]. unfold hdr_get.
    by rewrite Hnone.
  - unfold _calculate_conversion, hdr_get. by rewrite Hnone.
Qed.

Lemma schema1_has_no_channels_witness :
  _read_hdr_file (Some (common_header 1 1 ++ [x00; x05])) = Ok hdr_schema1
  /\ file_schema hdr_schema1 = 1
  /\ _read_erd (Some (common_header 1 1 ++ [x00; x05])) 1 = Err KeyError
  /\ _calculate_conversion hdr_schema1 = Err KeyError.
Proof.
  assert (H : _read_hdr_file (Some (common_header 1 1 ++ [x00; x05]))
              = Ok hdr_schema1) by (vm_compute; reflexivity).
  split; [exact H|]. split; [reflexivity|].
  exact (schema1_has_no_channels _ _ 1 H eq_refl).
Defined.

(** ** The loop of [_read_erd] on any bytes *)

Lemma foldM_preserves {S A} (P : S -> Prop) (E : exn -> Prop)
    (body : S -> A -> result S) :
  (forall s a, P s -> match body s a with
                      | Ok s' => P s'
                      | Err e => E e
                      end) ->
  forall l s, P s -> match foldM body s l with
                     | Ok s' => P s'
                     | Err e => E e
                     end.
Proof.
  intros Hbody l. induction l as [|a l IH]; intros s Hs; [done|].
  cbn [foldM]. specialize (Hbody s a Hs).
  destruct (body s a) as [s'|e]; cbn [bind]; [|done]. by apply IH.
Qed.

Lemma shape_mset (m : list (list Z)) (rows cols r c : nat) (v : Z) :
  shape m rows cols -> shape (mset m r c v) rows cols.
Proof.
  intros [Hrows Hcols]. unfold mset. split.
  - by rewrite length_alter.
  - apply Forall_lookup. intros i row Hi.
    rewrite list_lookup_alter in Hi.
    destruct (decide (r = i)) as [->|Hne].
    + apply fmap_Some in Hi as (row0 & Hr & ->). rewrite length_insert.
      by apply (Forall_lookup_1 _ _ _ _ Hcols Hr).
    + by apply (Forall_lookup_1 _ _ _ _ Hcols Hi).
Qed.

Lemma unpack_signed_raises (n : nat) (buf : list byte) (e : exn) :
  unpack_signed n buf = Err e -> e = StructError.
Proof.
  unfold unpack_signed. destruct (length buf =? n)%nat; [discriminate|].
  by intros [= <-].
Qed.

Section AnyBytes.
Variable filebytes : list byte.
Variable schema : Z.
Variable n_chan n_samples : nat.
Variable abs_delta : list byte.
Hypothesis Hschema : schema = 7 \/ schema = 8 \/ schema = 9.

Lemma read_delta_keeps_shape (sam : nat) (st : sample_state)
    (cm : nat * bool) :
  shape (out st) n_chan n_samples ->
  match read_delta filebytes n_samples abs_delta sam st cm with
  | Ok st' => shape (out st') n_chan n_samples
  | Err e => e = StructError
  end.
Proof.
  intros Hshape. destruct cm as [i_c m]. unfold read_delta.
  destruct (bool_decide _); [done|].
  destruct m.
  - destruct (unpack_h _) as [d|e] eqn:Hu; cbn [bind out].
    + by apply shape_mset.
    + by apply unpack_signed_raises in Hu.
  - destruct (unpack_b _) as [d|e] eqn:Hu; cbn [bind out].
    + by apply shape_mset.
    + by apply unpack_signed_raises in Hu.
Qed.

Lemma read_absolute_keeps_shape (sam : nat) (st : nat * list (list Z))
    (ca : nat * bool) :
  shape st.2 n_chan n_samples ->
  match read_absolute filebytes sam st ca with
  | Ok st' => shape st'.2 n_chan n_samples
  | Err e => e = StructError
  end.
Proof.
  destruct st as [i output], ca as [i_c to_read]. cbn [snd].
  intros Hshape. unfold read_absolute. destruct to_read; [|done].
  destruct (unpack_i _) as [v|e] eqn:Hu; cbn [bind snd].
  - by apply shape_mset.
  - by apply unpack_signed_raises in Hu.
Qed.

Lemma read_sample_keeps_shape (sam i : nat) (output : list (list Z)) :
  shape output n_chan n_samples ->
  match read_sample filebytes schema n_chan n_samples abs_delta sam i
          output with
  | Ok io => shape io.2 n_chan n_samples
  | Err e => e = StructError
  end.
Proof.
  intros Hshape. unfold read_sample.
  assert (Hmask : match read_deltamask filebytes schema n_chan i with
                  | Ok _ => True
                  | Err e => e = StructError
                  end).
  { unfold read_deltamask.
    destruct (Z.eqb_spec schema 7) as [|H7]; [done|].
    replace ((schema =? 8) || (schema =? 9)) with true
      by (destruct Hschema as [->|[->| ->]]; done).
    unfold unpack_bytes. by destruct (_ =? _)%nat. }
  destruct (read_deltamask filebytes schema n_chan i) as [[deltamask i']|e];
    cbn [bind]; [|done].
  pose proof (foldM_preserves
                (fun st => shape (out st) n_chan n_samples)
                (fun e => e = StructError)
                (read_delta filebytes n_samples abs_delta sam)
                (read_delta_keeps_shape sam)
                (enumerate (take n_chan deltamask))
                {| cur := i'; out := output;
                   absvalue := replicate n_chan false |} Hshape) as Hd.
  destruct (foldM (read_delta _ _ _ _) _ _) as [st|e]; cbn [bind]; [|done].
  apply (foldM_preserves
           (fun st => shape st.2 n_chan n_samples)
           (fun e => e = StructError)
           (read_absolute filebytes sam)
           (read_absolute_keeps_shape sam)
           (enumerate (absvalue st)) (cur st, out st) Hd).
Qed.

Lemma read_samples_keeps_shape (sams : list nat) :
  forall (i : nat) (output : list (list Z)),
    shape output n_chan n_samples ->
    match read_samples filebytes schema n_chan n_samples abs_delta sams i
            output with
    | Ok output' => shape output' n_chan n_samples
    | Err e => e = StructError
    end.
Proof.
  induction sams as [|sam sams IH]; intros i output Hshape; [done|].
  cbn [read_samples]. destruct (bool_decide _); [done|].
  replace (check_eventbite _) with (Ok tt)
    by (unfold check_eventbite; by destruct (assert_ _)).
  cbn [bind].
  pose proof (read_sample_keeps_shape sam (i + 1) output Hshape) as Hs.
  destruct (read_sample _ _ _ _ _ _ _ _) as [[i' output']|e];
    cbn [bind]; [|done].
  by apply IH.
Qed.
End AnyBytes.

(** X6: on any bytes at all, with a schema of 7, 8 or 9, the loop of
    [_read_erd] either returns a matrix of exactly [n_chan] rows and
    [n_samples] columns or raises [struct.error]; it raises nothing
    else. *)
Theorem erd_output_shape_or_struct_error (schema n_chan : Z)
    (filebytes : list byte) (n_samples : Z) :
  schema = 7 \/ schema = 8 \/ schema = 9 ->
  0 <= n_chan ->
  0 <= n_samples ->
  match erd_output schema n_chan filebytes n_samples with
  | Ok output => shape output (Z.to_nat n_chan) (Z.to_nat n_samples)
  | Err e => e = StructError
  end.
Proof.
  intros Hschema Hn Hs. unfold erd_output.
  replace ((n_chan <? 0) || (n_samples <? 0)) with false
    by (symmetry; apply orb_false_iff; split; apply Z.ltb_ge; lia).
  assert (Hstart : exists i abs_delta, erd_start schema = Some (i, abs_delta)).
  { destruct Hschema as [->|[->| ->]]; by eexists _, _. }
  destruct Hstart as (i & abs_delta & ->).
  apply read_samples_keeps_shape; [done|]. apply shape_zeros.
Qed.

Lemma erd_output_shape_or_struct_error_witness :
  (8 = 7 \/ 8 = 8 \/ 8 = 9)
  /\ 0 <= 4
  /\ 0 <= 2
  /\ match erd_output 8 4 (take (Z.to_nat 8660) erd_schema8) 2 with
     | Ok output => shape output (Z.to_nat 4) (Z.to_nat 2)
     | Err e => e = StructError
     end.
Proof.
  assert (H8 : 8 = 7 \/ 8 = 8 \/ 8 = 9) by (right; left; reflexivity).
  assert (H4 : 0 <= 4) by discriminate.
  assert (H2 : 0 <= 2) by discriminate.
  split; [exact H8|]. split; [exact H4|]. split; [exact H2|].
  exact (erd_output_shape_or_struct_error 8 4 (take (Z.to_nat 8660) erd_schema8) 2
           H8 H4 H2).
Defined.

(** ** Reading back a written header *)

Lemma chunks_le_bytes (k : nat) (vals : list Z) :
  (0 < k)%nat ->
  chunks (length vals) k (concat (map (le_bytes k) vals))
  = map (le_bytes k) vals.
Proof.
  intros Hk. induction vals as [|v vals IH]; [reflexivity|].
  cbn [length map concat chunks].
  destruct (le_bytes k v ++ concat (map (le_bytes k) vals)) as [|b l] eqn:Hl.
  { apply (f_equal length) in Hl.
    rewrite length_app, length_le_bytes in Hl. simpl in Hl. lia. }
  rewrite <- Hl. clear Hl.
  set (rest := concat (map (le_bytes k) vals)) in *.
  assert (Ht : take k (le_bytes k v ++ rest) = le_bytes k v).
  { rewrite <- (length_le_bytes k v) at 1. apply take_app_length. }
  assert (Hd : drop k (le_bytes k v ++ rest) = rest).
  { rewrite <- (length_le_bytes k v) at 1. apply drop_app_length. }
  by rewrite Ht, Hd, IH.
Qed.

Lemma length_concat_le_bytes (k : nat) (vals : list Z) :
  length (concat (map (le_bytes k) vals)) = (length vals * k)%nat.
Proof.
  induction vals as [|v vals IH]; [reflexivity|].
  cbn [map concat length]. rewrite length_app, length_le_bytes, IH. lia.
Qed.

Lemma read_many_values (f rest : list byte) (pos k : nat) (vals : list Z) :
  (0 < k)%nat ->
  drop pos f = concat (map (le_bytes k) vals) ++ rest ->
  Forall (fun v => - 2 ^ (8 * Z.of_nat k - 1) <= v
                   < 2 ^ (8 * Z.of_nat k - 1)) vals ->
  read_many k (Z.of_nat (length vals)) f pos
  = Ok (vals, (pos + length vals * k)%nat).
Proof.
  intros Hk Hf Hvals.
  assert (Hlen : length (concat (map (le_bytes k) vals))
                 = (Z.to_nat (Z.of_nat (length vals)) * k)%nat)
    by (by rewrite Nat2Z.id, length_concat_le_bytes).
  rewrite (read_many_field f _ rest pos k _ Hf (Nat2Z.is_nonneg _) Hlen).
  rewrite Nat2Z.id, chunks_le_bytes, length_concat_le_bytes by done.
  assert (Hm : map (fun c => signed (8 * Z.of_nat k) (le_unsigned c))
                 (map (le_bytes k) vals) = vals).
  { rewrite map_map. clear Hf Hlen.
    induction Hvals as [|v vals Hv _ IH]; [reflexivity|].
    cbn [map]. rewrite IH. f_equal.
    pose proof (unpack_signed_le_bytes k v Hk Hv) as Hu.
    unfold unpack_signed in Hu.
    rewrite length_le_bytes, Nat.eqb_refl in Hu. by injection Hu. }
  by rewrite Hm.
Qed.

Lemma read_H_field (f rest : list byte) (pos : nat) (v : Z) :
  drop pos f = le_bytes 2 v ++ rest ->
  0 <= v < 65536 ->
  read_H f pos = Ok (v, (pos + 2)%nat).
Proof.
  intros Hf Hv. unfold read_H.
  rewrite (io_bind_ok _ _ f pos (pos + 2) (le_bytes 2 v)).
  - unfold io_lift, unpack_H, unpack_unsigned.
    rewrite length_le_bytes, Nat.eqb_refl, le_unsigned_le_bytes.
    change (256 ^ Z.of_nat 2) with 65536. by rewrite Z.mod_small.
  - rewrite (f_read_field f (le_bytes 2 v) rest); [|done|reflexivity].
    by rewrite length_le_bytes.
Qed.

(** The two parts of a written header: the fields up to the padding that
    ends at byte 4464, and the fields from there on. *)
Lemma erd_header_layout (schema n_chan hb_type discard : Z) :
  0 <= n_chan <= 1024 ->
  let phys := concat (map (le_bytes 4)
                        (map Z.of_nat (seq 0 (Z.to_nat n_chan)))) in
  let first :=
    replicate 16 x00 ++ le_bytes 2 schema ++ le_bytes 2 1
    ++ le_bytes 4 0 ++ le_bytes 4 0 ++ le_bytes 4 0
    ++ str_field 80 "" ++ str_field 80 "" ++ str_field 80 ""
    ++ str_field 80 ""
    ++ replicate 8 x00 ++ le_bytes 4 n_chan ++ le_bytes 4 0
    ++ phys ++ replicate (4096 - 4 * Z.to_nat n_chan) x00 in
  let second :=
    le_bytes 4 hb_type ++ le_bytes 4 0 ++ le_bytes 4 0 ++ le_bytes 4 0
    ++ le_bytes 4 0 ++ le_bytes 4 0 ++ le_bytes 4 0 ++ le_bytes 4 0
    ++ str_field 40 "" ++ str_field 10 "" ++ str_field 10 ""
    ++ le_bytes 4 discard
    ++ (if 8 <=? schema then replicate (Z.to_nat 4096) x00 else []) in
  erd_header schema n_chan hb_type discard = first ++ second
  /\ length first = Z.to_nat 4464.
Proof.
  intros Hn phys first second.
  assert (Hphys : length phys = (4 * Z.to_nat n_chan)%nat).
  { subst phys. rewrite length_concat_le_bytes, length_map, length_seq. lia. }
  split.
  - unfold erd_header, common_header. fold phys.
    rewrite take_app_ge
      by (rewrite !length_app, !length_replicate, !length_le_bytes, Hphys;
          lia).
    rewrite take_replicate.
    rewrite !length_app, !length_replicate, !length_le_bytes, Hphys.
    assert (H320 : replicate 320 x00
                   = str_field 80 "" ++ str_field 80 "" ++ str_field 80 ""
                     ++ str_field 80 "") by reflexivity.
    assert (H12 : replicate 12 x00
                  = le_bytes 4 0 ++ le_bytes 4 0 ++ le_bytes 4 0)
      by reflexivity.
    assert (H16 : replicate 16 x00
                  = le_bytes 4 0 ++ le_bytes 4 0 ++ le_bytes 4 0
                    ++ le_bytes 4 0) by reflexivity.
    assert (H60 : replicate 60 x00
                  = str_field 40 "" ++ str_field 10 "" ++ str_field 10 "")
      by reflexivity.
    subst first second.
    rewrite H320, H12, H60. rewrite <- !app_assoc.
    do 14 (apply (f_equal2 app); [reflexivity|]).
    apply (f_equal2 app); [f_equal; lia|].
    do 4 (apply (f_equal2 app); [reflexivity|]).
    rewrite H16, <- !app_assoc. reflexivity.
  - subst first.
    rewrite !length_app, !length_replicate, !length_le_bytes,
      !str_field_length, Hphys. lia.
Qed.

Lemma f_read_bytes (f buf rest : list byte) (pos : nat) (n : Z) (p : nat) :
  drop pos f = buf ++ rest ->
  n = Z.of_nat (length buf) ->
  p = (pos + length buf)%nat ->
  f_read n f pos = Ok (buf, p).
Proof. intros Hf Hn ->. by apply (f_read_field f buf rest). Qed.

Lemma valid_name_empty : valid_name "" = true.
Proof. reflexivity. Qed.

Lemma read_schema7_written (f rest rest2 : list byte)
    (n_chan hb_type discard : Z) :
  0 <= n_chan <= 1024 ->
  int32 hb_type = true ->
  int32 discard = true ->
  drop 352 f
  = replicate 8 x00 ++ le_bytes 4 n_chan ++ le_bytes 4 0
    ++ concat (map (le_bytes 4) (map Z.of_nat (seq 0 (Z.to_nat n_chan))))
    ++ rest ->
  drop (Z.to_nat 4464) f
  = le_bytes 4 hb_type ++ le_bytes 4 0 ++ le_bytes 4 0 ++ le_bytes 4 0
    ++ le_bytes 4 0 ++ le_bytes 4 0 ++ le_bytes 4 0 ++ le_bytes 4 0
    ++ str_field 40 "" ++ str_field 10 "" ++ str_field 10 ""
    ++ le_bytes 4 discard ++ rest2 ->
  exists p,
    read_schema7 f 352%nat
    = Ok ({| sample_freq := 0; num_channels := n_chan; deltabits := 0;
             phys_chan := map Z.of_nat (seq 0 (Z.to_nat n_chan));
             headbox_type := [hb_type; 0; 0; 0];
             headbox_sn := [0; 0; 0; 0];
             headbox_sw_version := ""; dsp_hw_version := "";
             dsp_sw_version := ""; discardbits := discard |}, p)
    /\ drop p f = rest2.
Proof.
  intros Hn Hhb Hd Hf Hf2. unfold read_schema7.
  erewrite io_bind_ok
    by (by eapply (f_read_bytes f (replicate 8 x00))).
  apply drop_past in Hf.
  unfold io_bind at 1. cbn [io_lift unpack_unsigned length replicate Nat.eqb].
  change (le_unsigned (replicate 8 x00)) with 0.
  erewrite io_bind_ok
    by (eapply read_i_field; [exact Hf | unfold int32; lia]).
  apply drop_past in Hf. rewrite length_le_bytes in Hf.
  erewrite io_bind_ok by (by eapply read_i_field; [exact Hf |]).
  apply drop_past in Hf. rewrite length_le_bytes in Hf.
  set (vals := map Z.of_nat (seq 0 (Z.to_nat n_chan))) in *.
  assert (Hlen : n_chan = Z.of_nat (length vals))
    by (subst vals; rewrite length_map, length_seq; lia).
  replace (read_many 4 n_chan)
    with (read_many 4 (Z.of_nat (length vals))) by (by rewrite <- Hlen).
  erewrite io_bind_ok.
  2:{ eapply read_many_values; [lia | exact Hf |].
      subst vals. apply Forall_forall. intros v Hv.
      apply list_elem_of_fmap in Hv as (i & -> & Hi).
      apply elem_of_seq in Hi.
      change (2 ^ (8 * Z.of_nat 4 - 1)) with 2147483648. lia. }
  unfold io_bind at 1. cbn [f_seek].
  assert (Hf2a : drop (Z.to_nat 4464) f
                 = concat (map (le_bytes 4) [hb_type; 0; 0; 0])
                   ++ le_bytes 4 0 ++ le_bytes 4 0 ++ le_bytes 4 0
                   ++ le_bytes 4 0
                   ++ str_field 40 "" ++ str_field 10 "" ++ str_field 10 ""
                   ++ le_bytes 4 discard ++ rest2).
  { rewrite Hf2. cbn [map concat]. by rewrite <- !app_assoc. }
  clear Hf2.
  assert (Hrange : forall v, int32 v = true ->
                     - 2 ^ (8 * Z.of_nat 4 - 1) <= v < 2 ^ (8 * Z.of_nat 4 - 1)).
  { intros v Hv. unfold int32 in Hv.
    change (2 ^ (8 * Z.of_nat 4 - 1)) with (2 ^ 31). lia. }
  change 4 with (Z.of_nat (length [hb_type; 0; 0; 0])) at 1.
  erewrite io_bind_ok.
  2:{ eapply read_many_values; [lia | exact Hf2a |].
      repeat (apply Forall_cons; split; [by apply Hrange|]).
      apply Forall_nil_2. }
  apply drop_past in Hf2a. rewrite length_concat_le_bytes in Hf2a.
  assert (Hf2b : drop (Z.to_nat 4464 + length [hb_type; 0; 0; 0] * 4) f
                 = concat (map (le_bytes 4) [0; 0; 0; 0])
                   ++ str_field 40 "" ++ str_field 10 "" ++ str_field 10 ""
                   ++ le_bytes 4 discard ++ rest2).
  { rewrite Hf2a. cbn [map concat]. by rewrite <- !app_assoc. }
  clear Hf2a.
  change (read_many 4 4) with (read_many 4 (Z.of_nat (length [0; 0; 0; 0]))).
  erewrite io_bind_ok.
  2:{ eapply read_many_values; [lia | exact Hf2b |].
      repeat (apply Forall_cons; split; [by apply Hrange|]).
      apply Forall_nil_2. }
  apply drop_past in Hf2b. rewrite length_concat_le_bytes in Hf2b.
  erewrite io_bind_ok
    by (eapply read_str_field; [exact Hf2b | reflexivity | simpl; lia]).
  apply drop_past in Hf2b. rewrite str_field_length in Hf2b.
  erewrite io_bind_ok
    by (eapply read_str_field; [exact Hf2b | reflexivity | simpl; lia]).
  apply drop_past in Hf2b. rewrite str_field_length in Hf2b.
  erewrite io_bind_ok
    by (eapply read_str_field; [exact Hf2b | reflexivity | simpl; lia]).
  apply drop_past in Hf2b. rewrite str_field_length in Hf2b.
  erewrite io_bind_ok by (by eapply read_i_field; [exact Hf2b |]).
  apply drop_past in Hf2b. rewrite length_le_bytes in Hf2b.
  eexists. split; [reflexivity | exact Hf2b].
Qed.

Lemma read_schema8_written (f rest : list byte) (p : nat) :
  drop p f = replicate (Z.to_nat 4096) x00 ++ rest ->
  exists p',
    read_schema8 f p
    = Ok ({| shorted := replicate 1024 0;
             frequency_factor := replicate 1024 0 |}, p').
Proof.
  intros Hf. unfold read_schema8.
  assert (Hzeros : replicate (Z.to_nat 4096) x00
                   = concat (map (le_bytes 2) (replicate 1024 0))
                     ++ concat (map (le_bytes 2) (replicate 1024 0)))
    by (vm_compute; reflexivity).
  rewrite Hzeros, <- app_assoc in Hf.
  assert (Hrange : Forall (fun v => - 2 ^ (8 * Z.of_nat 2 - 1) <= v
                                    < 2 ^ (8 * Z.of_nat 2 - 1))
                     (replicate 1024 0)).
  { apply Forall_replicate. vm_compute. split; [discriminate|reflexivity]. }
  change (read_many 2 1024)
    with (read_many 2 (Z.of_nat (length (replicate 1024 0)))).
  erewrite io_bind_ok by (eapply read_many_values; [lia | exact Hf | done]).
  apply drop_past in Hf.
  erewrite io_bind_ok by (eapply read_many_values; [lia | exact Hf | done]).
  eexists. reflexivity.
Qed.

Lemma read_hdr_body_written (schema n_chan hb_type discard : Z)
    (data : list byte) :
  schema = 7 \/ schema = 8 \/ schema = 9 ->
  0 <= n_chan <= 1024 ->
  int32 hb_type = true ->
  int32 discard = true ->
  exists p,
    read_hdr_body (erd_header schema n_chan hb_type discard ++ data) 0%nat
    = Ok (hdr_written schema n_chan hb_type discard, p).
Proof.
  intros Hschema Hn Hhb Hd.
  destruct (erd_header_layout schema n_chan hb_type discard Hn)
    as [Hlayout Hfirst].
  cbv zeta in Hlayout, Hfirst.
  set (f := erd_header schema n_chan hb_type discard ++ data).
  assert (Hf2 : drop (Z.to_nat 4464) f
                = le_bytes 4 hb_type ++ le_bytes 4 0 ++ le_bytes 4 0
                  ++ le_bytes 4 0 ++ le_bytes 4 0 ++ le_bytes 4 0
                  ++ le_bytes 4 0 ++ le_bytes 4 0
                  ++ str_field 40 "" ++ str_field 10 "" ++ str_field 10 ""
                  ++ le_bytes 4 discard
                  ++ (if 8 <=? schema then replicate (Z.to_nat 4096) x00
                      else []) ++ data).
  { subst f. rewrite Hlayout, <- Hfirst, <- app_assoc, drop_app_length.
    by rewrite <- !app_assoc. }
  assert (Hf : drop 0 f
               = replicate 16 x00 ++ le_bytes 2 schema ++ le_bytes 2 1
                 ++ le_bytes 4 0 ++ le_bytes 4 0 ++ le_bytes 4 0
                 ++ str_field 80 "" ++ str_field 80 "" ++ str_field 80 ""
                 ++ str_field 80 ""
                 ++ replicate 8 x00 ++ le_bytes 4 n_chan ++ le_bytes 4 0
                 ++ concat (map (le_bytes 4)
                              (map Z.of_nat (seq 0 (Z.to_nat n_chan))))
                 ++ replicate (4096 - 4 * Z.to_nat n_chan) x00
                 ++ drop (Z.to_nat 4464) f).
  { rewrite Hf2. subst f. rewrite Hlayout. cbn [drop].
    by rewrite <- !app_assoc. }
  clearbody f. clear Hlayout Hfirst.
  assert (Hsup : supported_schema schema = true)
    by (destruct Hschema as [->|[->| ->]]; reflexivity).
  assert (H7 : (7 <=? schema) = true)
    by (destruct Hschema as [->|[->| ->]]; reflexivity).
  unfold read_hdr_body.
  unfold io_bind at 1. cbn [f_tell].
  unfold io_bind at 1. cbn [io_lift assert_ Nat.eqb].
  erewrite io_bind_ok
    by (by eapply (f_read_bytes f (replicate 16 x00))).
  apply drop_past in Hf. cbn [length replicate Nat.add] in Hf.
  erewrite io_bind_ok
    by (eapply read_H_field; [exact Hf |];
        destruct Hschema as [->|[->| ->]]; lia).
  apply drop_past in Hf. rewrite length_le_bytes in Hf.
  unfold io_bind at 1. rewrite Hsup. cbn [io_lift].
  erewrite io_bind_ok by (eapply read_H_field; [exact Hf | lia]).
  apply drop_past in Hf. rewrite length_le_bytes in Hf.
  unfold io_bind at 1. cbn [io_lift Z.eqb Pos.eqb].
  do 3 (erewrite io_bind_ok by (by eapply read_i_field; [exact Hf |]);
        apply drop_past in Hf; rewrite length_le_bytes in Hf).
  do 4 (erewrite io_bind_ok
          by (eapply read_str_field; [exact Hf | reflexivity | simpl; lia]);
        apply drop_past in Hf; rewrite str_field_length in Hf).
  unfold io_bind at 1. cbn [f_tell].
  unfold io_bind at 1.
  cbn [io_lift assert_ length replicate Nat.add Nat.eqb].
  rewrite H7.
  cbn [Nat.add] in Hf.
  destruct (read_schema7_written f _ _ n_chan hb_type discard Hn Hhb Hd
              Hf Hf2) as (p7 & Hread7 & Hrest).
  erewrite io_bind_ok by (erewrite io_bind_ok by exact Hread7; reflexivity).
  unfold hdr_written.
  destruct (Z.leb_spec 8 schema) as [H8|H8].
  - destruct (read_schema8_written f data p7 Hrest) as (p8 & Hread8).
    erewrite io_bind_ok by (erewrite io_bind_ok by exact Hread8; reflexivity).
    eexists. reflexivity.
  - unfold io_bind, io_ret. eexists. reflexivity.
Qed.

Lemma read_hdr_file_written (schema n_chan hb_type discard : Z)
    (data : list byte) :
  schema = 7 \/ schema = 8 \/ schema = 9 ->
  0 <= n_chan <= 1024 ->
  int32 hb_type = true ->
  int32 discard = true ->
  _read_hdr_file (Some (erd_header schema n_chan hb_type discard ++ data))
  = Ok (hdr_written schema n_chan hb_type discard).
Proof.
  intros Hschema Hn Hhb Hd.
  destruct (read_hdr_body_written schema n_chan hb_type discard data
              Hschema Hn Hhb Hd) as (p & Hbody).
  unfold _read_hdr_file, with_open. by rewrite Hbody.
Qed.

Lemma erd_header_start (schema n_chan hb_type discard : Z) :
  schema = 7 \/ schema = 8 \/ schema = 9 ->
  0 <= n_chan <= 1024 ->
  exists abs_delta,
    erd_start schema
    = Some (length (erd_header schema n_chan hb_type discard), abs_delta).
Proof.
  intros Hschema Hn.
  destruct (erd_header_layout schema n_chan hb_type discard Hn)
    as [Hlayout Hfirst].
  cbv zeta in Hlayout, Hfirst.
  rewrite Hlayout, length_app, Hfirst.
  rewrite !length_app, !length_le_bytes, !str_field_length.
  destruct Hschema as [->|[->| ->]]; cbn [Z.leb Z.compare Pos.compare
                                          Pos.compare_cont];
    rewrite ?length_replicate; unfold erd_start; cbn [Z.eqb Pos.eqb orb];
    eexists; do 2 f_equal; lia.
Qed.

(** ** The factors of the channels *)

Lemma ones_times_replicate (n : nat) (c p : float) :
  ones_times n c p = replicate n (1 * c * p)%float.
Proof. unfold ones_times. by rewrite map_replicate. Qed.

Lemma lookup_band (n : nat) (x : float) (rest : list float) (c : nat) :
  (replicate n x ++ rest) !! c
  = if (c <? n)%nat then Some x else rest !! (c - n)%nat.
Proof.
  destruct (Nat.ltb_spec c n).
  - rewrite lookup_app_l by (rewrite length_replicate; lia).
    by apply lookup_replicate_2.
  - rewrite lookup_app_r by (rewrite length_replicate; lia).
    by rewrite length_replicate.
Qed.

Lemma lookup_last_band (n : nat) (x : float) (c : nat) :
  (c < n)%nat -> replicate n x !! c = Some x.
Proof. apply lookup_replicate_2. Qed.

(** The factors [_calculate_conversion] computes, by headbox type. *)
Lemma calculate_conversion_bands (h : hdr) (h7 : hdr_schema7) (hb : Z) :
  schema7 h = Some h7 ->
  headbox_type h7 !! 0%nat = Some hb ->
  supported_headbox hb = true ->
  0 <= num_channels h7 ->
  discardbits h7 < 1024 ->
  exists factor,
    _calculate_conversion h = Ok factor
    /\ length factor
       = match band_channels hb with
         | Some bands => Nat.min (Z.to_nat (num_channels h7)) bands
         | None => Z.to_nat (num_channels h7)
         end
    /\ forall c, (c < length factor)%nat ->
                 factor !! c
                 = Some (scaled (band_constant hb c) (discardbits h7)).
Proof.
  intros H7 Hhb Hsup Hn Hd.
  unfold _calculate_conversion, hdr_get. rewrite H7. cbn [bind].
  rewrite Hhb. cbn [bind].
  replace (num_channels h7 <? 0) with false by (symmetry; apply Z.ltb_ge; lia).
  unfold pow2.
  replace (1024 <=? discardbits h7) with false
    by (symmetry; apply Z.leb_gt; lia).
  cbn [bind]. rewrite !ones_times_replicate.
  set (n := Z.to_nat (num_channels h7)).
  set (p := FloatOps.Z.ldexp 1 (discardbits h7)).
  unfold supported_headbox in Hsup. unfold band_channels, band_constant, scaled.
  fold p.
  destruct (Z.eqb_spec hb 1) as [->|H1];
    [|destruct (Z.eqb_spec hb 3) as [->|H3]].
  1,2: cbn [orb Z.eqb Pos.eqb bind];
       eexists; split; [reflexivity|];
       rewrite take_replicate, Nat.min_id, map_replicate, length_replicate;
       split; [reflexivity|]; intros c Hc; by apply lookup_replicate_2.
  cbn [orb].
  destruct (Z.eqb_spec hb 4) as [->|H4];
    [|destruct (Z.eqb_spec hb 21) as [->|H21];
      [|destruct (Z.eqb_spec hb 22) as [->|H22]; [|discriminate]]];
    cbn [bind]; eexists; (split; [reflexivity|]);
    rewrite length_map, length_take, !length_app, !length_replicate;
    (split; [reflexivity|]); intros c Hc;
    rewrite list_lookup_fmap, lookup_take_lt by lia;
    rewrite !lookup_band;
    repeat (match goal with
            | |- context [(?a <? ?b)%nat] => destruct (Nat.ltb_spec a b)
            end);
    try lia; rewrite ?lookup_last_band by lia; reflexivity.
Qed.

(** X7: the factor of every channel, by headbox type. For a header that
    [_read_hdr_file] returned, with fewer than 1024 discard bits: a
    supported headbox type gives one factor per channel up to the number of
    channels its bands cover (the vector is cut to the channel count, never
    padded), and channel [c] has the factor [1 * base * 2 ** discardbits *
    1e-6] with the base constant of its band; any other type raises the
    error on the headbox. *)
Theorem conversion_factor_by_band (ktlx_file : option (list byte)) (h : hdr)
    (h7 : hdr_schema7) (hb : Z) :
  _read_hdr_file ktlx_file = Ok h ->
  schema7 h = Some h7 ->
  headbox_type h7 !! 0%nat = Some hb ->
  discardbits h7 < 1024 ->
  if supported_headbox hb
  then exists factor,
         _calculate_conversion h = Ok factor
         /\ length factor
            = match band_channels hb with
              | Some bands => Nat.min (Z.to_nat (num_channels h7)) bands
              | None => Z.to_nat (num_channels h7)
              end
         /\ forall c, (c < length factor)%nat ->
                      factor !! c
                      = Some (scaled (band_constant hb c) (discardbits h7))
  else _calculate_conversion h = Err (UnsupportedHeadbox hb).
Proof.
  intros Hh H7 Hhb Hd.
  destruct (hdr_file_body _ _ Hh) as (f & p & _ & Hbody).
  destruct (read_hdr_body_ok f h p Hbody) as (_ & _ & _ & Hs7 & _).
  rewrite H7 in Hs7. destruct Hs7 as (_ & _ & Hn & _).
  destruct (supported_headbox hb) eqn:Hsup.
  - by apply calculate_conversion_bands.
  - unfold _calculate_conversion, hdr_get. rewrite H7. cbn [bind].
    rewrite Hhb. cbn [bind]. unfold supported_headbox in Hsup.
    repeat (apply orb_false_iff in Hsup as [Hsup ?]).
    replace ((hb =? 1) || (hb =? 3)) with false
      by (symmetry; by apply orb_false_iff).
    by repeat match goal with H : (_ =? _) = false |- _ => rewrite H; clear H
              end.
Qed.

Lemma conversion_factor_by_band_witness :
  _read_hdr_file (Some (erd_header 8 200 21 2)) = Ok (hdr_written 8 200 21 2)
  /\ (exists factor,
         _calculate_conversion (hdr_written 8 200 21 2) = Ok factor
         /\ length factor = Nat.min (Z.to_nat 200) 256
         /\ forall c, (c < length factor)%nat ->
                      factor !! c = Some (scaled (band_constant 21 c) 2)).
Proof.
  assert (H : _read_hdr_file (Some (erd_header 8 200 21 2))
              = Ok (hdr_written 8 200 21 2)) by (vm_compute; reflexivity).
  split; [exact H|].
  exact (conversion_factor_by_band _ (hdr_written 8 200 21 2) _ 21 H
           eq_refl eq_refl eq_refl).
Defined.

(** ** Reading back a written segment *)

Lemma scale_rows_one_factor (n : nat) (f : float) (output : list (list Z)) :
  length output = n ->
  scale_rows (replicate n f) output
  = Ok (map (map (fun v => (f * float_of_Z v)%float)) output).
Proof.
  intros <-. rewrite scale_rows_same_length by apply length_replicate.
  f_equal. induction output as [|row output IH]; [reflexivity|].
  cbn [length replicate zip_with map]. by rewrite IH.
Qed.

Lemma scale_rows_mismatch (factor : list float) (output : list (list Z)) :
  (2 <= length factor)%nat ->
  (length factor < length output)%nat ->
  scale_rows factor output = Err ValueError.
Proof.
  intros Hf Ho. unfold scale_rows.
  replace (length factor =? length output)%nat with false
    by (symmetry; apply Nat.eqb_neq; lia).
  destruct factor as [|f1 [|f2 factor]]; [simpl in Hf; lia..|].
  destruct output as [|o1 [|o2 output]]; [simpl in *; lia..|].
  reflexivity.
Qed.

(** What [_read_erd] does with a file that [erd_header] and
    [encode_samples] wrote: header, schema, channel count and samples are
    read back, and what is left is the conversion. *)
Lemma read_erd_written (schema : Z) (n_chan : nat) (hb_type discard : Z)
    (ss : list sample) (tl : list byte) (k : nat) :
  schema = 7 \/ schema = 8 \/ schema = 9 ->
  (n_chan <= 1024)%nat ->
  int32 hb_type = true ->
  int32 discard = true ->
  forallb (valid_sample schema n_chan) ss = true ->
  (k <= length ss)%nat \/ tl = [] ->
  _read_erd
    (Some (erd_header schema (Z.of_nat n_chan) hb_type discard
           ++ encode_samples schema ss ++ tl)) (Z.of_nat k)
  = (factor <- _calculate_conversion
                 (hdr_written schema (Z.of_nat n_chan) hb_type discard) ;;
     scale_rows factor
       (outputs_after k 0 (zeros n_chan k) (take k ss))).
Proof.
  intros Hschema Hn Hhb Hd Hv Hk. unfold _read_erd.
  rewrite read_hdr_file_written by (done || lia).
  cbn [bind]. unfold hdr_get at 1. cbn [hdr_written schema7 num_channels bind].
  unfold with_open, f_read. cbn [Z.ltb Z.compare drop bind].
  cbn [hdr_written file_schema].
  destruct (erd_header_start schema (Z.of_nat n_chan) hb_type discard Hschema
              ltac:(lia)) as (abs_delta & Hstart).
  rewrite drop_0.
  rewrite (erd_output_encoded schema n_chan k ss _ tl abs_delta Hstart Hv Hk).
  reflexivity.
Qed.

Lemma outputs_after_written (schema : Z) (n_chan k : nat) (ss : list sample) :
  forallb (valid_sample schema n_chan) ss = true ->
  (k <= length ss)%nat ->
  let raw := outputs_after k 0 (zeros n_chan k) (take k ss) in
  shape raw n_chan k
  /\ forall s smp c it,
       (s < k)%nat -> ss !! s = Some smp -> items smp !! c = Some it ->
       mget raw c s
       = item_value (match s with
                     | O => 0
                     | S p => mget raw c p
                     end) it.
Proof.
  intros Hv Hk raw.
  destruct (outputs_after_cells n_chan k (take k ss) 0 (zeros n_chan k))
    as (Hshape & _ & Hvals & _).
  - apply shape_zeros.
  - apply Forall_take. by apply (valid_samples_items schema).
  - rewrite length_take. lia.
  - intros c s _. apply mget_zeros.
  - split; [done|]. intros s smp c it Hs Hsmp Hit.
    apply (Hvals s smp c it); [|done]. by rewrite lookup_take_lt.
Qed.

(** The same for a headbox of type 1 or 3: every cell of the accumulated
    values times the one factor. *)
Lemma read_erd_written_scaled (schema : Z) (n_chan : nat)
    (hb_type discard : Z) (ss : list sample) (tl : list byte) (k : nat) :
  schema = 7 \/ schema = 8 \/ schema = 9 ->
  (n_chan <= 1024)%nat ->
  hb_type = 1 \/ hb_type = 3 ->
  - 2 ^ 31 <= discard < 1024 ->
  forallb (valid_sample schema n_chan) ss = true ->
  (k <= length ss)%nat ->
  _read_erd
    (Some (erd_header schema (Z.of_nat n_chan) hb_type discard
           ++ encode_samples schema ss ++ tl)) (Z.of_nat k)
  = Ok (map (map (fun v => (scaled (8711 / (221 - 0.5)) discard
                            * float_of_Z v)%float))
          (outputs_after k 0 (zeros n_chan k) (take k ss))).
Proof.
  intros Hschema Hn Hhb Hd Hv Hk.
  destruct (outputs_after_written schema n_chan k ss Hv Hk) as [Hshape _].
  cbv zeta in Hshape.
  rewrite read_erd_written; try done; try by left.
  2:{ destruct Hhb as [->| ->]; reflexivity. }
  2:{ unfold int32. apply andb_true_iff. split; [apply Z.leb_le|apply Z.ltb_lt];
      lia. }
  destruct (calculate_conversion_bands
              (hdr_written schema (Z.of_nat n_chan) hb_type discard) _ hb_type
              eq_refl eq_refl) as (factor & Hfac & Hlen & Hcells).
  { destruct Hhb as [->| ->]; reflexivity. }
  { cbn [num_channels]. lia. }
  { cbn [discardbits]. lia. }
  cbn [num_channels discardbits] in Hlen, Hcells. rewrite Hfac. cbn [bind].
  assert (Hband : band_channels hb_type = None)
    by (destruct Hhb as [->| ->]; reflexivity).
  rewrite Hband, Nat2Z.id in Hlen.
  assert (Hfactor : factor
                    = replicate n_chan (scaled (8711 / (221 - 0.5)) discard)).
  { apply list_eq. intros c. destruct (decide (c < n_chan)%nat) as [Hc|Hc].
    - rewrite Hcells by lia. rewrite lookup_replicate_2 by done.
      destruct Hhb as [->| ->]; reflexivity.
    - rewrite !lookup_ge_None_2; [done| |]; rewrite ?length_replicate; lia. }
  rewrite Hfactor. apply scale_rows_one_factor. by destruct Hshape.
Qed.

(** X8: a segment file written for a headbox of type 1 or 3 is read back in
    physical units. For a schema of 7, 8 or 9, up to 1024 channels, fewer
    than 1024 discard bits and any [k] of the encoded samples, [_read_erd]
    returns the matrix of the accumulated values (each cell the previous
    one plus the delta, or the absolute value), every cell multiplied by
    [1 * (8711 / (221 - 0.5)) * 2 ** discardbits * 1e-6]. *)
Theorem read_erd_physical_values (schema : Z) (n_chan : nat)
    (hb_type discard : Z) (ss : list sample) (tl : list byte) (k : nat) :
  schema = 7 \/ schema = 8 \/ schema = 9 ->
  (n_chan <= 1024)%nat ->
  hb_type = 1 \/ hb_type = 3 ->
  - 2 ^ 31 <= discard < 1024 ->
  forallb (valid_sample schema n_chan) ss = true ->
  (k <= length ss)%nat ->
  exists raw,
    _read_erd
      (Some (erd_header schema (Z.of_nat n_chan) hb_type discard
             ++ encode_samples schema ss ++ tl)) (Z.of_nat k)
    = Ok (map (map (fun v => (scaled (8711 / (221 - 0.5)) discard
                              * float_of_Z v)%float)) raw)
    /\ shape raw n_chan k
    /\ forall s smp c it,
         (s < k)%nat -> ss !! s = Some smp -> items smp !! c = Some it ->
         mget raw c s
         = item_value (match s with
                       | O => 0
                       | S p => mget raw c p
                       end) it.
Proof.
  intros Hschema Hn Hhb Hd Hv Hk.
  exists (outputs_after k 0 (zeros n_chan k) (take k ss)). split.
  - by apply read_erd_written_scaled.
  - by apply (outputs_after_written schema).
Qed.

Lemma read_erd_physical_values_witness :
  exists raw,
    _read_erd
      (Some (erd_header 8 (Z.of_nat 4) 1 0
             ++ encode_samples 8 samples_schema8 ++ [])) (Z.of_nat 2)
    = Ok (map (map (fun v => (scaled (8711 / (221 - 0.5)) 0
                              * float_of_Z v)%float)) raw)
    /\ shape raw 4 2
    /\ forall s smp c it,
         (s < 2)%nat -> samples_schema8 !! s = Some smp ->
         items smp !! c = Some it ->
         mget raw c s
         = item_value (match s with
                       | O => 0
                       | S p => mget raw c p
                       end) it.
Proof.
  apply (read_erd_physical_values 8 4 1 0 samples_schema8 [] 2).
  - right; left; reflexivity.
  - lia.
  - left; reflexivity.
  - lia.
  - reflexivity.
  - simpl; lia.
Defined.

Lemma erd_output_ok_shape (schema n_chan : Z) (filebytes : list byte)
    (n_samples : Z) (output : list (list Z)) :
  erd_output schema n_chan filebytes n_samples = Ok output ->
  shape output (Z.to_nat n_chan) (Z.to_nat n_samples).
Proof.
  unfold erd_output. destruct ((n_chan <? 0) || (n_samples <? 0)); [done|].
  destruct (erd_start schema) as [[i abs_delta]|] eqn:Hstart.
  - intros H.
    assert (Hschema : schema = 7 \/ schema = 8 \/ schema = 9).
    { unfold erd_start in Hstart. destruct (Z.eqb_spec schema 7); [by left|].
      destruct (Z.eqb_spec schema 8); [right; by left|].
      destruct (Z.eqb_spec schema 9); [right; by right|done]. }
    pose proof (read_samples_keeps_shape filebytes schema (Z.to_nat n_chan)
                  (Z.to_nat n_samples) abs_delta Hschema
                  (seq 0 (Z.to_nat n_samples))
                  i (zeros (Z.to_nat n_chan) (Z.to_nat n_samples))
                  (shape_zeros _ _)) as Hs.
    by rewrite H in Hs.
  - destruct (Z.to_nat n_samples =? 0)%nat; [|done].
    intros [= <-]. apply shape_zeros.
Qed.

Lemma read_erd_steps (f : list byte) (h : hdr) (h7 : hdr_schema7) (k : Z) :
  _read_hdr_file (Some f) = Ok h ->
  schema7 h = Some h7 ->
  _read_erd (Some f) k
  = (output <- erd_output (file_schema h) (num_channels h7) f k ;;
     factor <- _calculate_conversion h ;;
     scale_rows factor output).
Proof.
  intros Hh H7. unfold _read_erd. rewrite Hh. cbn [bind].
  unfold hdr_get at 1. rewrite H7. cbn [bind].
  unfold with_open, f_read. cbn [Z.ltb Z.compare drop bind].
  by rewrite drop_0.
Qed.

(** X9: no data for a headbox the module cannot convert. When the header of
    a segment file names a headbox type other than 1, 3, 4, 21 and 22,
    [_read_erd] never returns a matrix: the samples are decoded first, and
    if that succeeds the error on the headbox is raised. *)
Theorem read_erd_unsupported_headbox (f : list byte) (h : hdr)
    (h7 : hdr_schema7) (hb : Z) (n_samples : Z) :
  _read_hdr_file (Some f) = Ok h ->
  schema7 h = Some h7 ->
  headbox_type h7 !! 0%nat = Some hb ->
  supported_headbox hb = false ->
  _read_erd (Some f) n_samples
  = (_ <- erd_output (file_schema h) (num_channels h7) f n_samples ;;
     Err (UnsupportedHeadbox hb)).
Proof.
  intros Hh H7 Hhb Hsup. rewrite (read_erd_steps f h h7) by done.
  destruct (erd_output _ _ _ _) as [output|e]; [|done]. cbn [bind].
  unfold _calculate_conversion, hdr_get. rewrite H7. cbn [bind].
  rewrite Hhb. cbn [bind]. unfold supported_headbox in Hsup.
  repeat (apply orb_false_iff in Hsup as [Hsup ?]).
  replace ((hb =? 1) || (hb =? 3)) with false
    by (symmetry; by apply orb_false_iff).
  by repeat match goal with H : (_ =? _) = false |- _ => rewrite H; clear H
            end.
Qed.

Lemma read_erd_unsupported_headbox_witness :
  _read_erd (Some (erd_header 8 4 20 0 ++ encode_samples 8 samples_schema8)) 2
  = (_ <- erd_output 8 4
            (erd_header 8 4 20 0 ++ encode_samples 8 samples_schema8) 2 ;;
     Err (UnsupportedHeadbox 20)).
Proof.
  assert (H : _read_hdr_file
                (Some (erd_header 8 4 20 0 ++ encode_samples 8 samples_schema8))
              = Ok (hdr_written 8 4 20 0)) by (vm_compute; reflexivity).
  exact (read_erd_unsupported_headbox _ (hdr_written 8 4 20 0) _ 20 2 H
           eq_refl eq_refl eq_refl).
Defined.

(** X10: more channels than the headbox has. When the header names headbox
    type 4, 21 or 22 with more channels than the 28, 256 or 43 the type
    covers (and fewer than 1024 discard bits), the factor vector is shorter
    than the matrix has rows, and [_read_erd] never returns a matrix: once
    the samples are decoded the product raises [ValueError]. *)
Theorem read_erd_too_many_channels (f : list byte) (h : hdr)
    (h7 : hdr_schema7) (hb : Z) (bands : nat) (n_samples : Z) :
  _read_hdr_file (Some f) = Ok h ->
  schema7 h = Some h7 ->
  headbox_type h7 !! 0%nat = Some hb ->
  band_channels hb = Some bands ->
  Z.of_nat bands < num_channels h7 ->
  discardbits h7 < 1024 ->
  _read_erd (Some f) n_samples
  = (_ <- erd_output (file_schema h) (num_channels h7) f n_samples ;;
     Err ValueError).
Proof.
  intros Hh H7 Hhb Hbands Hn Hd. rewrite (read_erd_steps f h h7) by done.
  destruct (erd_output _ _ _ _) as [output|e] eqn:Hout; [|done]. cbn [bind].
  apply erd_output_ok_shape in Hout as [Hrows _].
  assert (Hsup : supported_headbox hb = true).
  { unfold band_channels in Hbands. unfold supported_headbox.
    destruct (hb =? 4), (hb =? 21), (hb =? 22); try done;
      by rewrite ?orb_true_r. }
  destruct (calculate_conversion_bands h h7 hb H7 Hhb Hsup ltac:(lia) Hd)
    as (factor & -> & Hlen & _).
  cbn [bind]. rewrite Hbands in Hlen.
  assert (28 <= bands)%nat.
  { unfold band_channels in Hbands.
    destruct (hb =? 4), (hb =? 21), (hb =? 22); simplify_eq; lia. }
  apply scale_rows_mismatch; lia.
Qed.

Lemma read_erd_too_many_channels_witness :
  _read_erd (Some (erd_header 8 30 4 0)) 0
  = (_ <- erd_output 8 30 (erd_header 8 30 4 0) 0 ;; Err ValueError).
Proof.
  assert (H : _read_hdr_file (Some (erd_header 8 30 4 0))
              = Ok (hdr_written 8 30 4 0)) by (vm_compute; reflexivity).
  exact (read_erd_too_many_channels _ (hdr_written 8 30 4 0) _ 4 28 0 H
           eq_refl eq_refl eq_refl eq_refl eq_refl).
Defined.

(** ** The table of contents and the file of a segment *)

Lemma read_stamps_ok (fuel : nat) :
  forall (f : list byte) (pos p : nat) (ss : list stamp),
    read_stamps fuel (length f) f pos = Ok (ss, p) ->
    length f = (pos + 272 * length ss)%nat.
Proof.
  induction fuel as [|fuel IH]; intros f pos p ss H; cbn [read_stamps] in H;
    unfold io_bind at 1 in H; cbn [f_tell] in H;
    destruct (Nat.eqb_spec pos (length f)) as [Heq|Hne].
  - injection H as <- <-. simpl. lia.
  - discriminate.
  - injection H as <- <-. simpl. lia.
  - io_inv H st p1 Hst. io_inv H rest p2 Hrest. injection H as <- <-.
    apply (reads_ok 272) in Hst as [-> _]; [|apply reads_read_stamp].
    apply IH in Hrest. cbn [length]. lia.
Qed.

(** X11: the length of a table of contents that can be read. [_read_stc]
    returns only for a file of 408 bytes (the header of 352 bytes, two
    numbers and twelve padding numbers) plus 272 bytes for every entry it
    returns; a file that ends inside an entry is never returned as a
    shorter table. *)
Theorem read_stc_file_length (f : list byte) (h : stc_hdr)
    (all_stamp : list stamp) :
  _read_stc (Some f) = Ok (h, all_stamp) ->
  length f = (408 + 272 * length all_stamp)%nat
  /\ length (padding h) = 12%nat.
Proof.
  unfold _read_stc, with_open.
  destruct (read_stc_body f 0%nat) as [[[h' ss] p]|e] eqn:H; [|discriminate].
  intros [= -> ->]. unfold read_stc_body in H.
  unfold io_bind at 1 in H. cbn [f_end] in H.
  unfold io_bind at 1 in H. cbn [f_seek] in H.
  io_inv H next p1 Hnext. io_inv H fin p2 Hfin. io_inv H pad p3 Hpad.
  io_inv H ss' p4 Hss. injection H as <- <- <-.
  apply (reads_ok 4) in Hnext as [-> _]; [|apply reads_read_i].
  apply (reads_ok 4) in Hfin as [-> _]; [|apply reads_read_i].
  apply read_many_ok in Hpad as [Hpad _]; [|lia].
  destruct Hpad as (-> & Hlen & _); [lia|].
  apply read_stamps_ok in Hss. cbn [padding]. split; [lia|done].
Qed.

Lemma read_stc_file_length_witness :
  length (stc_bytes stamps_two_segments)
  = (408 + 272 * length stamps_two_segments)%nat
  /\ length (replicate 12 0) = 12%nat.
Proof.
  exact (read_stc_file_length (stc_bytes stamps_two_segments)
           {| next_segment := 0; final := 0; padding := replicate 12 0 |}
           stamps_two_segments ltac:(vm_compute; reflexivity)).
Defined.

Lemma read_signed_at (n : Z) (k : nat) (f : list byte) (pos : nat) :
  n = Z.of_nat k ->
  (0 < k)%nat ->
  io_bind (f_read n) (fun buf => io_lift (unpack_signed k buf)) f pos
  = if decide (pos + k <= length f)%nat
    then Ok (signed (8 * Z.of_nat k) (le_unsigned (take k (drop pos f))),
             (pos + k)%nat)
    else Err StructError.
Proof.
  intros -> Hk. unfold io_bind, f_read, io_lift, unpack_signed.
  replace (Z.of_nat k <? 0) with false by (symmetry; apply Z.ltb_ge; lia).
  rewrite Nat2Z.id.
  assert (Hlen : length (take k (drop pos f)) = (k `min` (length f - pos))%nat)
    by (by rewrite length_take, length_drop).
  destruct (decide (pos + k <= length f)%nat);
    destruct (Nat.eqb_spec (length (take k (drop pos f))) k); try lia.
  - do 2 f_equal. lia.
  - reflexivity.
Qed.

(** X12: [_read_etc] needs the 16 bytes after the header. For a file of at
    least 368 bytes it returns the numbers stored little-endian at the
    offsets 352, 356 and 360 (four bytes each) and 364 and 366 (two bytes
    each), whatever follows; a shorter file raises the error of [unpack]. *)
Theorem read_etc_fields (f : list byte) :
  let int_at (k pos : nat) :=
    signed (8 * Z.of_nat k) (le_unsigned (take k (drop pos f))) in
  _read_etc (Some f)
  = if decide (368 <= length f)%nat
    then Ok (int_at 4 352, int_at 4 356, int_at 4 360,
             (int_at 2 364, int_at 2 366))%nat
    else Err StructError.
Proof.
  intros int_at. unfold _read_etc, with_open, read_etc_body.
  unfold io_bind at 1. cbn [f_seek].
  unfold read_i, unpack_i, read_h, unpack_h.
  unfold io_bind at 1.
  rewrite (read_signed_at 4 4 f 352) by (done || lia).
  destruct (decide (352 + 4 <= length f)%nat);
    [|destruct (decide (368 <= length f)%nat); [lia|done]].
  unfold io_bind at 1.
  rewrite (read_signed_at 4 4 f (352 + 4)) by (done || lia).
  destruct (decide (352 + 4 + 4 <= length f)%nat);
    [|destruct (decide (368 <= length f)%nat); [lia|done]].
  unfold io_bind at 1.
  rewrite (read_signed_at 4 4 f (352 + 4 + 4)) by (done || lia).
  destruct (decide (352 + 4 + 4 + 4 <= length f)%nat);
    [|destruct (decide (368 <= length f)%nat); [lia|done]].
  unfold io_bind at 1.
  rewrite (read_signed_at 2 2 f (352 + 4 + 4 + 4)) by (done || lia).
  destruct (decide (352 + 4 + 4 + 4 + 2 <= length f)%nat);
    [|destruct (decide (368 <= length f)%nat); [lia|done]].
  unfold io_bind at 1.
  rewrite (read_signed_at 2 2 f (352 + 4 + 4 + 4 + 2)) by (done || lia).
  destruct (decide (352 + 4 + 4 + 4 + 2 + 2 <= length f)%nat);
    [|destruct (decide (368 <= length f)%nat); [lia|done]].
  destruct (decide (368 <= length f)%nat); [|lia].
  reflexivity.
Qed.

(** ** Random access to a recording *)

Lemma cumsum_from_lookup (l : list Z) :
  forall (acc : Z) (i : nat),
    (i < length l)%nat ->
    cumsum_from acc l !! i = Some (acc + sum_list (take (S i) l)).
Proof.
  induction l as [|x l IH]; intros acc i Hi; [simpl in Hi; lia|].
  destruct i as [|i]; cbn [cumsum_from].
  - cbn. rewrite take_0. cbn. f_equal. lia.
  - cbn [length] in Hi. change ((?a :: ?t) !! S i) with (t !! i).
    rewrite IH by lia. cbn [take sum_list foldr]. f_equal.
    unfold sum_list. lia.
Qed.

Lemma offsets_lookup (l : list Z) (i : nat) :
  (i <= length l)%nat ->
  (0 :: cumsum l) !! i = Some (sum_list (take i l)).
Proof.
  intros Hi. destruct i as [|i]; [by rewrite take_0|].
  change ((?a :: ?t) !! S i) with (t !! i). unfold cumsum.
  rewrite cumsum_from_lookup by lia. f_equal; lia.
Qed.

Lemma offsets_length (l : list Z) : length (0 :: cumsum l) = S (length l).
Proof.
  cbn [length]. f_equal. unfold cumsum. generalize 0.
  induction l as [|x l IH]; intros acc; [reflexivity|].
  cbn [cumsum_from length]. by rewrite IH.
Qed.

Lemma sum_list_app (l1 l2 : list Z) :
  sum_list (l1 ++ l2) = sum_list l1 + sum_list l2.
Proof.
  unfold sum_list. induction l1 as [|x l1 IH]; cbn [app foldr]; lia.
Qed.

Lemma sum_list_nonneg (l : list Z) :
  Forall (fun x => 0 <= x) l -> 0 <= sum_list l.
Proof.
  unfold sum_list. induction 1 as [|x l Hx _ IH]; cbn [foldr]; lia.
Qed.

Lemma sum_list_take_le (l : list Z) (i j : nat) :
  Forall (fun x => 0 <= x) l -> (i <= j)%nat ->
  sum_list (take i l) <= sum_list (take j l).
Proof.
  intros Hl. revert i j. induction Hl as [|x l Hx Hl IH]; intros i j Hij.
  - by rewrite !take_nil.
  - destruct i as [|i], j as [|j]; try lia.
    + rewrite take_0. cbn [take]. unfold sum_list. cbn [foldr].
      pose proof (sum_list_nonneg (take j l) ltac:(by apply Forall_take)) as H.
      unfold sum_list in H. lia.
    + cbn [take]. unfold sum_list. cbn [foldr].
      specialize (IH i j ltac:(lia)). unfold sum_list in IH. lia.
Qed.

Lemma last_filter_intro {A} (P : A -> bool) (pre post : list A) (y : A) :
  P y = true ->
  Forall (fun z => P z = false) post ->
  last (filter (fun z => P z) (pre ++ y :: post)) = Some y.
Proof.
  intros Hy Hpost. rewrite filter_app.
  rewrite filter_cons_True by (cbn; rewrite Hy; exact I).
  assert (Hnil : filter (fun z => P z) post = []).
  { induction Hpost as [|z post Hz _ IH]; [reflexivity|].
    rewrite filter_cons_False by (cbn; rewrite Hz; exact id). exact IH. }
  rewrite Hnil. apply last_snoc.
Qed.

Lemma where_last_intro (cond : Z -> bool) (l : list Z) (i : nat) (x : Z) :
  l !! i = Some x ->
  cond x = true ->
  (forall j y, (i < j)%nat -> l !! j = Some y -> cond y = false) ->
  where_last cond l = Ok i.
Proof.
  intros Hi Hx Hlater. unfold where_last, enumerate.
  assert (Hsplit : l = take i l ++ x :: drop (S i) l)
    by (by rewrite <- (take_drop_middle l i x Hi) at 1).
  assert (Hlen : length (take i l) = i).
  { rewrite length_take. apply lookup_lt_Some in Hi. lia. }
  rewrite Hsplit at 2. rewrite Hsplit at 1.
  rewrite length_app, Hlen. cbn [length].
  rewrite seq_app. cbn [seq Nat.add].
  rewrite zip_with_app by (by rewrite length_seq).
  cbn [zip_with].
  rewrite (last_filter_intro (fun ix : nat * Z => cond ix.2)); [done..|].
  apply Forall_forall. intros [j y] Hin.
  apply list_elem_of_lookup in Hin as [k Hk].
  apply lookup_zip_with_Some in Hk as (j' & y' & [= -> ->] & Hj & Hy).
  apply lookup_seq in Hj as [-> _]. cbn [snd].
  apply (Hlater (S i + k)%nat); [lia|].
  rewrite lookup_drop in Hy. by rewrite <- Hy.
Qed.

Lemma where_last_none (cond : Z -> bool) (l : list Z) :
  Forall (fun x => cond x = false) l ->
  where_last cond l = Err IndexError.
Proof.
  intros Hl. unfold where_last.
  destruct (last _) as [[j x]|] eqn:Hlast; [|done].
  apply last_Some_elem_of in Hlast.
  apply list_elem_of_filter in Hlast as [Hc Hin]. cbn in Hc.
  unfold enumerate in Hin. apply list_elem_of_lookup in Hin as [k Hk].
  apply lookup_zip_with_Some in Hk as (j' & x' & [= -> ->] & _ & Hx).
  rewrite Forall_lookup in Hl. specialize (Hl _ _ Hx). cbn in Hl.
  by rewrite Hl in Hc.
Qed.

Lemma where_last_raises (cond : Z -> bool) (l : list Z) (e : exn) :
  where_last cond l = Err e -> e = IndexError.
Proof.
  unfold where_last. destruct (last _) as [[j x]|]; [done|]. by intros [= <-].
Qed.

Lemma offsets_nonneg (spans : list Z) :
  Forall (fun x => 0 <= x) spans ->
  Forall (fun x => 0 <= x) (0 :: cumsum spans).
Proof.
  intros Hs. apply Forall_lookup. intros i x Hi.
  assert (Hlt : (i <= length spans)%nat).
  { apply lookup_lt_Some in Hi. rewrite offsets_length in Hi. lia. }
  rewrite offsets_lookup in Hi by done. injection Hi as <-.
  apply sum_list_nonneg. by apply Forall_take.
Qed.

(** X13: no sample before the start of the recording. With a table of
    contents whose spans are not negative, a range that starts below
    sample 0 or ends at or below it is refused with [IndexError]; a negative
    index is never counted from the end of the recording. *)
Theorem return_dat_before_start (self : Ktlx) (chan : list Z)
    (begsam endsam : Z) (stc : stc_hdr) (all_stamp : list stamp) :
  _read_stc (stc_file self) = Ok (stc, all_stamp) ->
  Forall (fun st => 0 <= sample_span st) all_stamp ->
  begsam < 0 \/ endsam <= 0 ->
  return_dat self chan begsam endsam = Err IndexError.
Proof.
  intros Hstc Hspans Hrange. unfold return_dat. rewrite Hstc. cbn [bind snd].
  assert (Hoff : Forall (fun x => 0 <= x)
                   (0 :: cumsum (map sample_span all_stamp))).
  { apply offsets_nonneg. by apply Forall_fmap. }
  destruct (decide (begsam < 0)) as [Hb|Hb].
  - rewrite where_last_none; [done|].
    eapply Forall_impl; [exact Hoff|]. intros x Hx. apply Z.leb_gt. cbn in Hx. lia.
  - destruct (where_last (fun x => x <=? begsam) _) as [begrec|e] eqn:Hbeg.
    + cbn [bind]. rewrite where_last_none; [done|].
      eapply Forall_impl; [exact Hoff|]. intros x Hx. apply Z.ltb_ge.
      cbn in Hx. lia.
    + apply where_last_raises in Hbeg as ->. done.
Qed.

Lemma return_dat_before_start_witness :
  return_dat two_segments [0] (-2) 1 = Err IndexError.
Proof.
  apply (return_dat_before_start two_segments [0] (-2) 1
           {| next_segment := 0; final := 0; padding := replicate 12 0 |}
           stamps_two_segments).
  - vm_compute; reflexivity.
  - repeat constructor; discriminate.
  - left; reflexivity.
Defined.

(** X14: no sample after the end of the recording. A range that starts at
    or after the total of the spans of the table of contents (and is not
    empty) selects the entry after the last segment, and [return_dat]
    raises [IndexError] without reading any segment file. *)
Theorem return_dat_past_end (self : Ktlx) (chan : list Z)
    (begsam endsam : Z) (stc : stc_hdr) (all_stamp : list stamp) :
  _read_stc (stc_file self) = Ok (stc, all_stamp) ->
  sum_list (map sample_span all_stamp) <= begsam ->
  begsam < endsam ->
  return_dat self chan begsam endsam = Err IndexError.
Proof.
  intros Hstc Hbeg Hend. unfold return_dat. rewrite Hstc. cbn [bind snd].
  set (spans := map sample_span all_stamp).
  assert (Hlast : (0 :: cumsum spans) !! length spans
                  = Some (sum_list spans)).
  { rewrite offsets_lookup by done. by rewrite firstn_all. }
  assert (Hnone : forall j y, (length spans < j)%nat ->
                              (0 :: cumsum spans) !! j = Some y -> False).
  { intros j y Hj Hy. apply lookup_lt_Some in Hy.
    rewrite offsets_length in Hy. lia. }
  rewrite (where_last_intro _ _ (length spans) (sum_list spans));
    [|done|apply Z.leb_le; subst spans; lia
     |intros j y Hj Hy; by destruct (Hnone j y)].
  cbn [bind].
  rewrite (where_last_intro _ _ (length spans) (sum_list spans));
    [|done|apply Z.ltb_lt; subst spans; lia
     |intros j y Hj Hy; by destruct (Hnone j y)].
  cbn [bind].
  replace (endsam - begsam <? 0) with false by (symmetry; apply Z.ltb_ge; lia).
  replace (length spans + 1 - length spans)%nat with 1%nat by lia.
  cbn [seq foldM]. unfold return_dat_rec.
  unfold index at 1. rewrite Hlast. cbn [bind].
  unfold index at 1. rewrite lookup_ge_None_2; [done|].
  subst spans. rewrite !length_map. lia.
Qed.

Lemma return_dat_past_end_witness :
  return_dat two_segments [0] 5 6 = Err IndexError.
Proof.
  apply (return_dat_past_end two_segments [0] 5 6
           {| next_segment := 0; final := 0; padding := replicate 12 0 |}
           stamps_two_segments).
  - vm_compute; reflexivity.
  - vm_compute; discriminate.
  - reflexivity.
Defined.

Lemma mget_lookup (m : list (list Z)) (rows cols r c : nat) (row : list Z) :
  shape m rows cols -> m !! r = Some row -> (c < cols)%nat ->
  row !! c = Some (mget m r c).
Proof.
  intros [_ Hcols] Hrow Hc. unfold mget. rewrite Hrow. cbn.
  rewrite Forall_lookup in Hcols. specialize (Hcols r row Hrow). cbn in Hcols.
  destruct (row !! c) as [v|] eqn:Hv; [done|].
  apply lookup_ge_None in Hv. lia.
Qed.

(** The rows [chan] and the columns from [a] to the last one, cut out of a
    matrix of converted values. *)
Lemma select_rows_inside (g : Z -> float) (raw : list (list Z))
    (n_chan k : nat) (chan : list Z) (a : Z) :
  shape raw n_chan k ->
  Forall (fun c => 0 <= c < Z.of_nat n_chan) chan ->
  0 <= a <= Z.of_nat k ->
  select_rows (map (map g) raw) chan a (Z.of_nat k)
  = Ok (map (fun c =>
               map (fun j => g (mget raw (Z.to_nat c) (Z.to_nat a + j)))
                 (seq 0 (k - Z.to_nat a))) chan).
Proof.
  intros Hshape Hchan Ha. unfold select_rows. rewrite length_map.
  pose proof Hshape as [Hrows Hcols]. rewrite Hrows.
  induction Hchan as [|c chan Hc _ IH]; [reflexivity|].
  cbn [mapM map]. rewrite IH.
  replace ((0 <=? c) && (c <? Z.of_nat n_chan)) with true
    by (symmetry; apply andb_true_iff; split;
        [apply Z.leb_le|apply Z.ltb_lt]; lia).
  destruct (raw !! Z.to_nat c) as [row|] eqn:Hrow.
  2:{ apply lookup_ge_None in Hrow. lia. }
  unfold index. rewrite list_lookup_fmap, Hrow. cbn [fmap option_fmap option_map bind].
  do 2 f_equal.
  assert (Hlen : length row = k).
  { rewrite Forall_lookup in Hcols. exact (Hcols _ _ Hrow). }
  unfold py_slice, slice_len, slice_start, slice_bound.
  rewrite length_map, Hlen.
  replace (a <? 0) with false by (symmetry; apply Z.ltb_ge; lia).
  replace (Z.of_nat k <? 0) with false by (symmetry; apply Z.ltb_ge; lia).
  rewrite !Z.min_l by lia.
  replace (Z.to_nat (Z.of_nat k - a)) with (k - Z.to_nat a)%nat by lia.
  apply list_eq. intros i.
  destruct (decide (i < k - Z.to_nat a)%nat) as [Hi|Hi].
  - rewrite lookup_take_lt by done.
    rewrite lookup_drop, !list_lookup_fmap, lookup_seq_lt by done.
    rewrite (mget_lookup raw n_chan k (Z.to_nat c) (Z.to_nat a + i) row)
      by (done || lia).
    reflexivity.
  - rewrite !lookup_ge_None_2; [done| |].
    + rewrite length_map, length_seq. lia.
    + rewrite length_take. lia.
Qed.

Lemma sum_list_take_S (l : list Z) (i : nat) (x : Z) :
  l !! i = Some x -> sum_list (take (S i) l) = sum_list (take i l) + x.
Proof.
  intros Hi. rewrite (take_S_r l i x Hi), sum_list_app.
  unfold sum_list. cbn [foldr]. lia.
Qed.

(** The segment of a sample: with spans that are not negative, the last
    offset that [cond] accepts is the offset of segment [rec], when it
    accepts that offset and refuses the offset of the next segment. *)
Lemma where_last_segment (cond : Z -> bool) (spans : list Z) (rec : nat)
    (span : Z) :
  Forall (fun x => 0 <= x) spans ->
  spans !! rec = Some span ->
  cond (sum_list (take rec spans)) = true ->
  (forall y, sum_list (take rec spans) + span <= y -> cond y = false) ->
  where_last cond (0 :: cumsum spans) = Ok rec.
Proof.
  intros Hspans Hrec Hyes Hno.
  assert (Hlt : (rec < length spans)%nat) by (by eapply lookup_lt_Some).
  apply (where_last_intro _ _ rec (sum_list (take rec spans))).
  - apply offsets_lookup. lia.
  - done.
  - intros j y Hj Hy.
    assert (Hjl : (j <= length spans)%nat).
    { apply lookup_lt_Some in Hy. rewrite offsets_length in Hy. lia. }
    rewrite offsets_lookup in Hy by done. injection Hy as <-.
    apply Hno. rewrite <- (sum_list_take_S spans rec span Hrec).
    apply sum_list_take_le; [done|lia].
Qed.

(** X15: a read inside one segment returns the samples asked for. For a
    recording whose table of contents has no negative span, a range
    [begsam, endsam) that lies in segment [rec] (which starts at the total
    of the spans before it), and a segment file written for a headbox of
    type 1 or 3 that holds at least the samples up to the end of the range:
    [return_dat] returns, for every channel of [chan] and every sample of
    the range, the accumulated value of that sample of the segment times
    the conversion factor. *)
Theorem return_dat_inside_segment (self : Ktlx) (chan : list Z)
    (begsam endsam : Z) (stc : stc_hdr) (all_stamp : list stamp)
    (rec : nat) (st : stamp) (schema : Z) (n_chan : nat)
    (hb_type discard : Z) (ss : list sample) (tl : list byte) :
  _read_stc (stc_file self) = Ok (stc, all_stamp) ->
  Forall (fun s => 0 <= sample_span s) all_stamp ->
  all_stamp !! rec = Some st ->
  let off := sum_list (map sample_span (take rec all_stamp)) in
  off <= begsam < endsam ->
  endsam <= off + sample_span st ->
  erd_file self (segment_name st)
  = Some (erd_header schema (Z.of_nat n_chan) hb_type discard
          ++ encode_samples schema ss ++ tl) ->
  schema = 7 \/ schema = 8 \/ schema = 9 ->
  (n_chan <= 1024)%nat ->
  hb_type = 1 \/ hb_type = 3 ->
  - 2 ^ 31 <= discard < 1024 ->
  forallb (valid_sample schema n_chan) ss = true ->
  endsam - off <= Z.of_nat (length ss) ->
  Forall (fun c => 0 <= c < Z.of_nat n_chan) chan ->
  exists raw,
    return_dat self chan begsam endsam
    = Ok (map (fun c =>
                 map (fun j =>
                        (scaled (8711 / (221 - 0.5)) discard
                         * float_of_Z (mget raw (Z.to_nat c)
                                         (Z.to_nat (begsam - off) + j)))%float)
                   (seq 0 (Z.to_nat (endsam - begsam)))) chan)
    /\ forall s smp c it,
         Z.of_nat s < endsam - off ->
         ss !! s = Some smp -> items smp !! c = Some it ->
         mget raw c s
         = item_value (match s with
                       | O => 0
                       | S p => mget raw c p
                       end) it.
Proof.
  intros Hstc Hspans Hst off Hrange Hend Hfile Hschema Hn Hhb Hd Hv Hlen Hchan.
  set (spans := map sample_span all_stamp).
  assert (Hoff : off = sum_list (take rec spans))
    by (subst off spans; by rewrite fmap_take).
  assert (Hspans' : Forall (fun x => 0 <= x) spans)
    by (subst spans; by apply Forall_fmap).
  assert (Hspan : spans !! rec = Some (sample_span st))
    by (subst spans; by rewrite list_lookup_fmap, Hst).
  set (k := Z.to_nat (endsam - off)).
  assert (Hk : (k <= length ss)%nat) by lia.
  destruct (outputs_after_written schema n_chan k ss Hv Hk) as [Hshape Hvals].
  cbv zeta in Hshape, Hvals.
  exists (outputs_after k 0 (zeros n_chan k) (take k ss)). split.
  - rewrite (return_dat_single_segment self chan begsam endsam stc all_stamp
               rec st off Hstc).
    + rewrite Hfile. replace (endsam - off) with (Z.of_nat k) by lia.
      rewrite read_erd_written_scaled by done. cbn [bind].
      rewrite (select_rows_inside _ _ n_chan k) by (done || lia).
      replace (k - Z.to_nat (begsam - off))%nat
        with (Z.to_nat (endsam - begsam)) by lia.
      reflexivity.
    + fold spans. apply (where_last_segment _ spans rec (sample_span st));
        try done.
      * apply Z.leb_le. lia.
      * intros y Hy. apply Z.leb_gt. lia.
    + fold spans. apply (where_last_segment _ spans rec (sample_span st));
        try done.
      * apply Z.ltb_lt. lia.
      * intros y Hy. apply Z.ltb_ge. lia.
    + lia.
    + done.
    + fold spans. rewrite Hoff. apply offsets_lookup.
      apply lookup_lt_Some in Hspan. lia.
  - intros s smp c it Hs. apply Hvals. lia.
Qed.

Lemma return_dat_inside_segment_witness :
  exists raw,
    return_dat two_segments [0] 3 5
    = Ok (map (fun c =>
                 map (fun j =>
                        (scaled (8711 / (221 - 0.5)) 0
                         * float_of_Z
                             (mget raw (Z.to_nat c)
                                (Z.to_nat
                                   (3 - sum_list
                                          (map sample_span
                                             (take 1 stamps_two_segments)))
                                 + j)))%float)
                   (seq 0 (Z.to_nat (5 - 3)))) [0])
    /\ forall s smp c it,
         Z.of_nat s
         < 5 - sum_list (map sample_span (take 1 stamps_two_segments)) ->
         one_channel [40; 10] !! s = Some smp -> items smp !! c = Some it ->
         mget raw c s
         = item_value (match s with
                       | O => 0
                       | S p => mget raw c p
                       end) it.
Proof.
  apply (return_dat_inside_segment two_segments [0] 3 5
           {| next_segment := 0; final := 0; padding := replicate 12 0 |}
           stamps_two_segments 1
           {| segment_name := "rec_001"; start_stamp := 3; end_stamp := 4;
              sample_num := 3; sample_span := 2 |}
           7 1 1 0 (one_channel [40; 10]) []).
  - vm_compute; reflexivity.
  - repeat constructor; discriminate.
  - reflexivity.
  - split; [discriminate|reflexivity].
  - discriminate.
  - vm_compute; reflexivity.
  - left; reflexivity.
  - lia.
  - left; reflexivity.
  - split; [discriminate|reflexivity].
  - reflexivity.
  - discriminate.
  - repeat constructor; discriminate.
Defined.

(** X16: the samples decoded do not depend on how many are asked for. For a
    stream of the reference encoder, decoding the first [k] samples and
    decoding the first [k'] samples ([k <= k'], both encoded) give the same
    value in every cell of the first [k] columns: what [return_dat] cuts
    out of a segment read up to the end of its range is what a longer read
    holds there. *)
Theorem erd_output_prefix (schema : Z) (n_chan : nat) (ss : list sample)
    (pre tl abs_delta : list byte) (k k' : nat) :
  erd_start schema = Some (length pre, abs_delta) ->
  forallb (valid_sample schema n_chan) ss = true ->
  (k <= k')%nat ->
  (k' <= length ss)%nat ->
  exists output output',
    erd_output schema (Z.of_nat n_chan)
      (pre ++ encode_samples schema ss ++ tl) (Z.of_nat k) = Ok output
    /\ erd_output schema (Z.of_nat n_chan)
         (pre ++ encode_samples schema ss ++ tl) (Z.of_nat k') = Ok output'
    /\ shape output n_chan k
    /\ shape output' n_chan k'
    /\ forall c s, (s < k)%nat -> mget output c s = mget output' c s.
Proof.
  intros Hstart Hv Hkk Hk'.
  assert (Hk : (k <= length ss)%nat) by lia.
  destruct (outputs_after_written schema n_chan k ss Hv Hk) as [Hshape Hvals].
  destruct (outputs_after_written schema n_chan k' ss Hv Hk')
    as [Hshape' Hvals'].
  cbv zeta in Hshape, Hvals, Hshape', Hvals'.
  eexists _, _. split.
  { apply (erd_output_encoded schema n_chan k ss pre tl abs_delta); auto. }
  split.
  { apply (erd_output_encoded schema n_chan k' ss pre tl abs_delta); auto. }
  split; [done|]. split; [done|].
  intros c s. destruct (decide (c < n_chan)%nat) as [Hc|Hc].
  - induction s as [|p IH]; intros Hs.
    + destruct (lookup_lt_is_Some_2 ss 0%nat ltac:(lia)) as [smp Hsmp].
      assert (Hit : is_Some (items smp !! c)).
      { apply lookup_lt_is_Some_2.
        pose proof (valid_samples_items schema n_chan ss Hv) as Hitems.
        rewrite Forall_lookup in Hitems. rewrite (Hitems _ _ Hsmp). done. }
      destruct Hit as [it Hit].
      rewrite (Hvals 0%nat smp c it) by (done || lia).
      by rewrite (Hvals' 0%nat smp c it) by (done || lia).
    + destruct (lookup_lt_is_Some_2 ss (S p) ltac:(lia)) as [smp Hsmp].
      assert (Hit : is_Some (items smp !! c)).
      { apply lookup_lt_is_Some_2.
        pose proof (valid_samples_items schema n_chan ss Hv) as Hitems.
        rewrite Forall_lookup in Hitems. rewrite (Hitems _ _ Hsmp). done. }
      destruct Hit as [it Hit].
      rewrite (Hvals (S p) smp c it) by (done || lia).
      rewrite (Hvals' (S p) smp c it) by (done || lia).
      by rewrite IH by lia.
  - intros _. unfold mget.
    destruct Hshape as [Hrows _], Hshape' as [Hrows' _].
    rewrite !lookup_ge_None_2; [done| |]; lia.
Qed.

Lemma erd_output_prefix_witness :
  exists output output',
    erd_output 8 (Z.of_nat 4)
      (erd_header 8 4 1 0 ++ encode_samples 8 samples_schema8 ++ [])
      (Z.of_nat 1) = Ok output
    /\ erd_output 8 (Z.of_nat 4)
         (erd_header 8 4 1 0 ++ encode_samples 8 samples_schema8 ++ [])
         (Z.of_nat 2) = Ok output'
    /\ shape output 4 1
    /\ shape output' 4 2
    /\ forall c s, (s < 1)%nat -> mget output c s = mget output' c s.
Proof.
  apply (erd_output_prefix 8 4 samples_schema8 (erd_header 8 4 1 0) []
           [xff; xff] 1 2).
  - vm_compute; reflexivity.
  - reflexivity.
  - lia.
  - simpl; lia.
Defined.
